(** * Contact-form worker of the VA by Anna website

    A shallow embedding of [_worker.js] (the Cloudflare worker that
    validates, rate-limits, spam-filters and delivers contact-form
    submissions) and of the client-side helpers of
    [public/assets/js/main.js] that mirror it, with the properties the
    specification states about them.

    Conventions of the embedding:
    - a JavaScript string is a [string]; the modelled alphabet is ASCII
      (case mapping and white space are the ASCII ones, code units above
      127 are carried along unchanged);
    - a JavaScript value coming out of [JSON.parse] is a [jsval];
    - a call that may throw returns a [result];
    - [async] code runs in the monad [M] over a [world] that holds the
      clock, the key-value stores, the email provider and the trace of
      outbound effects. *)

From Stdlib Require Import ZArith Ascii String List Bool Lia DecimalString.
From Stdlib Require Import Decimal DecimalPos.
From stdpp Require Import base gmap strings.

Set Warnings "-register-all,-abstract-large-number".
Local Open Scope string_scope.

(* ====================================================================== *)
(** ** JavaScript strings *)
(* ====================================================================== *)

Module JsString.

Definition code (c : ascii) : nat := nat_of_ascii c.

Definition in_range (lo hi : nat) (c : ascii) : bool :=
  (lo <=? code c)%nat && (code c <=? hi)%nat.

Definition is_upper : ascii -> bool := in_range 65 90.
Definition is_lower : ascii -> bool := in_range 97 122.
Definition is_digit : ascii -> bool := in_range 48 57.
Definition is_alpha (c : ascii) : bool := is_upper c || is_lower c.

(** [\s] restricted to ASCII: tab, line feed, vertical tab, form feed,
    carriage return and space. *)
Definition is_space (c : ascii) : bool :=
  in_range 9 13 c || (code c =? 32)%nat.

(** Line terminators, the characters [.] does not match. *)
Definition is_line_terminator (c : ascii) : bool :=
  (code c =? 10)%nat || (code c =? 13)%nat.

Definition to_lower_char (c : ascii) : ascii :=
  if is_upper c then ascii_of_nat (code c + 32) else c.

Definition to_upper_char (c : ascii) : ascii :=
  if is_lower c then ascii_of_nat (code c - 32) else c.

Fixpoint smap (f : ascii -> ascii) (s : string) : string :=
  match s with
  | EmptyString => EmptyString
  | String c r => String (f c) (smap f r)
  end.

Definition toLowerCase : string -> string := smap to_lower_char.
Definition toUpperCase : string -> string := smap to_upper_char.

Fixpoint sall (p : ascii -> bool) (s : string) : bool :=
  match s with
  | EmptyString => true
  | String c r => p c && sall p r
  end.

(** [occurs c s]: the character [c] occurs literally in [s]. *)
Fixpoint occurs (c : ascii) (s : string) : bool :=
  match s with
  | EmptyString => false
  | String d r => Ascii.eqb c d || occurs c r
  end.

Fixpoint trimStart (s : string) : string :=
  match s with
  | EmptyString => EmptyString
  | String c r => if is_space c then trimStart r else s
  end.

Fixpoint trimEnd (s : string) : string :=
  match s with
  | EmptyString => EmptyString
  | String c r =>
      match trimEnd r with
      | EmptyString => if is_space c then EmptyString else String c EmptyString
      | t => String c t
      end
  end.

Definition trim (s : string) : string := trimEnd (trimStart s).

(** [s.replace(/c/g, rep)] for a single literal character [c]. *)
Fixpoint replaceAll (c : ascii) (rep : string) (s : string) : string :=
  match s with
  | EmptyString => EmptyString
  | String d r =>
      if Ascii.eqb d c then rep ++ replaceAll c rep r
      else String d (replaceAll c rep r)
  end.

(** [s.slice(0, n)]. *)
Fixpoint slice0 (n : nat) (s : string) : string :=
  match n, s with
  | S k, String c r => String c (slice0 k r)
  | _, _ => EmptyString
  end.

Fixpoint startsWith (p s : string) : bool :=
  match p, s with
  | EmptyString, _ => true
  | String a p', String b s' => Ascii.eqb a b && startsWith p' s'
  | String _ _, EmptyString => false
  end.

(** [s.includes(p)]. *)
Fixpoint includes (p s : string) : bool :=
  startsWith p s ||
  match s with
  | EmptyString => false
  | String _ r => includes p r
  end.

(** [n.toString()] for an integer. *)
Definition of_Z (z : Z) : string := NilZero.string_of_int (Z.to_int z).

(** The double-quote character. *)
Definition dquote : ascii := ascii_of_nat 34.

End JsString.

Import JsString.

(* ====================================================================== *)
(** ** JavaScript values and exceptions *)
(* ====================================================================== *)

(** What [JSON.parse] and [Object.fromEntries] can produce.  Numbers are
    kept as integers: the worker only tests them for truthiness and for
    not being strings. *)
Inductive jsval : Type :=
| VUndefined
| VNull
| VBool (b : bool)
| VNum (n : Z)
| VStr (s : string)
| VArr (items : list jsval)
| VObj (fields : list (string * jsval)).

Definition truthy (v : jsval) : bool :=
  match v with
  | VUndefined | VNull => false
  | VBool b => b
  | VNum n => negb (n =? 0)%Z
  | VStr s => negb (String.eqb s "")
  | VArr _ | VObj _ => true
  end.

Inductive js_error : Type :=
| TypeError (message : string)
| Error (message : string).

Definition error_message (e : js_error) : string :=
  match e with TypeError m | Error m => m end.

Inductive result (A : Type) : Type :=
| Ok (a : A)
| Throw (e : js_error).
Arguments Ok {A} a.
Arguments Throw {A} e.

Fixpoint assoc (k : string) (l : list (string * jsval)) : jsval :=
  match l with
  | [] => VUndefined
  | (k', v) :: r => if String.eqb k k' then v else assoc k r
  end.

(** [data.name]: reading a property of [null] or [undefined] throws;
    primitives and arrays have none of the form's names; an object is
    looked up. *)
Definition get_prop (data : jsval) (name : string) : result jsval :=
  match data with
  | VUndefined | VNull =>
      Throw (TypeError ("Cannot read properties of null or undefined (reading " ++ name ++ ")"))
  | VObj fields => Ok (assoc name fields)
  | _ => Ok VUndefined
  end.

(* ====================================================================== *)
(** ** Regular expressions *)
(* ====================================================================== *)

(** The regular expressions of the worker use character classes,
    concatenation and greedy bounded repetition.  [exec] is a backtracking
    matcher in continuation-passing style: it tries the alternatives in the
    order a JavaScript engine does and hands the rest of the input to the
    continuation [k]. *)
Module Regex.

Inductive regex : Type :=
| RChar (p : ascii -> bool)
| REps
| RCat (a b : regex)
| RAlt (a b : regex)
| RRep (lo : nat) (hi : option nat) (a : regex).

Definition matcher (R : Type) : Type :=
  list ascii -> (list ascii -> option R) -> option R.

(** Greedy repetition of [ma], between [lo] and [hi] times.  An
    iteration that consumes nothing is rejected, so [fuel] beyond the
    length of the input is never used up. *)
Fixpoint rep {R} (ma : matcher R) (fuel lo : nat) (hi : option nat)
    (s : list ascii) (k : list ascii -> option R) : option R :=
  match fuel with
  | O => None
  | S f =>
      let stop := if (lo =? 0)%nat then k s else None in
      match hi with
      | Some O => stop
      | _ =>
          match ma s (fun s' =>
                   if (length s' <? length s)%nat
                   then rep ma f (Nat.pred lo) (option_map Nat.pred hi) s' k
                   else None) with
          | Some r => Some r
          | None => stop
          end
      end
  end.

Fixpoint exec {R} (r : regex) : matcher R :=
  fun s k =>
    match r with
    | RChar p =>
        match s with
        | c :: s' => if p c then k s' else None
        | [] => None
        end
    | REps => k s
    | RCat a b => exec a s (fun s' => exec b s' k)
    | RAlt a b =>
        match exec a s k with
        | Some x => Some x
        | None => exec b s k
        end
    | RRep lo hi a => rep (exec a) (S (length s)) lo hi s k
    end.

Definition chr (c : ascii) : regex := RChar (Ascii.eqb c).
Definition plus (a : regex) : regex := RRep 1 None a.
Definition opt (a : regex) : regex := RRep 0 (Some 1) a.

Fixpoint lit (s : string) : regex :=
  match s with
  | EmptyString => REps
  | String c r => RCat (chr c) (lit r)
  end.

Definition is_some {A} (o : option A) : bool :=
  match o with Some _ => true | None => false end.

(** [/^r$/.test(s)]. *)
Definition test_anchored (r : regex) (s : string) : bool :=
  is_some (exec r (list_ascii_of_string s)
             (fun rest => match rest with [] => Some tt | _ => None end)).

(** The rest of the input after the match of [r] at the head of [s]. *)
Definition match_here (r : regex) (s : list ascii) : option (list ascii) :=
  exec r s Some.

(** [(s.match(/r/g) || []).length]: leftmost matches, each search
    resuming where the previous match ended (one character further
    after an empty match). *)
Fixpoint count_from (fuel : nat) (r : regex) (s : list ascii) : nat :=
  match fuel with
  | O => 0
  | S f =>
      match match_here r s with
      | Some rest =>
          S (if (length rest <? length s)%nat then count_from f r rest
             else match s with [] => 0 | _ :: s' => count_from f r s' end)
      | None =>
          match s with [] => 0 | _ :: s' => count_from f r s' end
      end
  end.

Definition match_count (r : regex) (s : string) : nat :=
  count_from (S (String.length s)) r (list_ascii_of_string s).

(** [/(.)\1{n,}/.test(s)]: some character other than a line
    terminator is followed by at least [n] copies of itself. *)
Fixpoint copies (n : nat) (c : ascii) (s : list ascii) : bool :=
  match n with
  | O => true
  | S k =>
      match s with
      | d :: s' => Ascii.eqb c d && copies k c s'
      | [] => false
      end
  end.

Fixpoint repeated_from (n : nat) (s : list ascii) : bool :=
  match s with
  | [] => false
  | c :: s' =>
      (negb (is_line_terminator c) && copies n c s') || repeated_from n s'
  end.

Definition test_repeated (n : nat) (s : string) : bool :=
  repeated_from n (list_ascii_of_string s).

End Regex.

Import Regex.

(* ====================================================================== *)
(** ** The clock *)
(* ====================================================================== *)

(** [new Date(ms).toISOString()] of the runtime: the UTC date of a number
    of milliseconds since the epoch in the proleptic Gregorian calendar,
    printed as [YYYY-MM-DDTHH:mm:ss.sssZ]. *)
Module Date.

Local Open Scope Z_scope.

Definition digit (n : Z) : ascii := ascii_of_nat (48 + Z.to_nat (n mod 10)).

(** The last [width] decimal digits of [n]. *)
Fixpoint pad (width : nat) (n : Z) : string :=
  match width with
  | O => EmptyString
  | S w => (pad w (n / 10) ++ String (digit n) EmptyString)%string
  end.

(** Year, month and day of a number of days since 1970-01-01. *)
Definition civil_from_days (days : Z) : Z * Z * Z :=
  let z := days + 719468 in
  let era := z / 146097 in
  let doe := z - era * 146097 in
  let yoe := (doe - doe / 1460 + doe / 36524 - doe / 146096) / 365 in
  let doy := doe - (365 * yoe + yoe / 4 - yoe / 100) in
  let mp := (5 * doy + 2) / 153 in
  let d := doy - (153 * mp + 2) / 5 + 1 in
  let m := if mp <? 10 then mp + 3 else mp - 9 in
  let y := yoe + era * 400 + (if m <=? 2 then 1 else 0) in
  (y, m, d).

Definition year_string (y : Z) : string :=
  if (0 <=? y) && (y <=? 9999) then pad 4 y
  else ((if (y <? 0)%Z then "-" else "+") ++ pad 6 (Z.abs y))%string.

Definition toISOString (ms : Z) : string :=
  let '(y, m, d) := civil_from_days (ms / 86400000) in
  let t := ms mod 86400000 in
  (year_string y ++ "-" ++ pad 2 m ++ "-" ++ pad 2 d ++ "T"
     ++ pad 2 (t / 3600000) ++ ":" ++ pad 2 (t / 60000 mod 60) ++ ":"
     ++ pad 2 (t / 1000 mod 60) ++ "." ++ pad 3 (t mod 1000) ++ "Z")%string.

End Date.

(* ====================================================================== *)
(** ** Field validation and sanitization (server) *)
(* ====================================================================== *)

Definition rbind {A B} (r : result A) (k : A -> result B) : result B :=
  match r with
  | Ok a => k a
  | Throw e => Throw e
  end.

Notation "x <-? e ;; k" := (rbind e (fun x => k))
  (at level 100, e at next level, k at level 200, right associativity).

(** The result of [validateContactForm]: [data] is the object
    [sanitizedData], whose properties are added one by one. *)
Record validation : Type := {
  isValid : bool;
  errors : list string;
  data : gmap string string
}.

Module ServerValidator.

(** The chain of [.replace] calls and the final [.slice(0, 10000)] of
    [ServerValidator.sanitizeInput], on a string. *)
Definition sanitize_string (s : string) : string :=
  slice0 10000
    (replaceAll "\" "&#x5C;"
      (replaceAll "/" "&#x2F;"
        (replaceAll "'" "&#x27;"
          (replaceAll dquote "&quot;"
            (replaceAll ">" "&gt;"
              (replaceAll "<" "&lt;" (trim s))))))).

Definition sanitizeInput (input : jsval) : string :=
  match input with
  | VStr s => if truthy input then sanitize_string s else ""
  | _ => ""
  end.

(** [[^\s@]] *)
Definition not_space_at (c : ascii) : bool :=
  negb (is_space c || Ascii.eqb c "@").

(** [/^[^\s@]+@[^\s@]+\.[^\s@]+$/] *)
Definition emailRegex : regex :=
  RCat (plus (RChar not_space_at))
    (RCat (chr "@")
      (RCat (plus (RChar not_space_at))
        (RCat (chr ".") (plus (RChar not_space_at))))).

(** [[\d\s\-\(\)]] *)
Definition phone_char (c : ascii) : bool :=
  is_digit c || is_space c || Ascii.eqb c "-" || Ascii.eqb c "("
  || Ascii.eqb c ")".

(** [/^[\+]?[\d\s\-\(\)]{7,20}$/] *)
Definition phoneRegex : regex :=
  RCat (opt (chr "+")) (RRep 7 (Some 20) (RChar phone_char)).

Definition isValidEmail (email : jsval) : bool :=
  match email with
  | VStr s =>
      if negb (truthy email) then false
      else test_anchored emailRegex (trim s) && (String.length s <=? 254)%nat
  | _ => false
  end.

(** The JavaScript function returns the last operand evaluated; every
    caller only tests it, so the embedding returns its truth value. *)
Definition isRequired (value : jsval) : bool :=
  match value with
  | VStr s => truthy value && (0 <? String.length (trim s))%nat
  | _ => false
  end.

Definition hasMinLength (value : jsval) (minLength : nat) : bool :=
  match value with
  | VStr s => truthy value && (minLength <=? String.length (trim s))%nat
  | _ => false
  end.

Definition hasMaxLength (value : jsval) (maxLength : nat) : bool :=
  negb (truthy value) ||
  match value with
  | VStr s => (String.length (trim s) <=? maxLength)%nat
  | _ => false
  end.

(** [phone.trim()] is called before the [typeof] test: a truthy value
    that is not a string has no [trim] method. *)
Definition isValidPhone (phone : jsval) : result bool :=
  if negb (truthy phone) then Ok true
  else
    match phone with
    | VStr s =>
        if (String.length (trim s) =? 0)%nat then Ok true
        else Ok (test_anchored phoneRegex (trim s))
    | _ => Throw (TypeError "phone.trim is not a function")
    end.

(** The pair of [errors] and [sanitizedData] while the form is checked. *)
Definition vstate : Type := list string * gmap string string.

Definition push (msg : string) (st : vstate) : vstate :=
  ((st.1 ++ [msg])%list, st.2).

Definition set_field (name value : string) (st : vstate) : vstate :=
  (st.1, <[name := value]> st.2).

Definition check_firstName (v : jsval) (st : vstate) : vstate :=
  if negb (isRequired v) then push "First name is required" st
  else if negb (hasMinLength v 2) then
    push "First name must be at least 2 characters long" st
  else if negb (hasMaxLength v 50) then
    push "First name must be less than 50 characters" st
  else set_field "firstName" (sanitizeInput v) st.

Definition check_lastName (v : jsval) (st : vstate) : vstate :=
  if negb (isRequired v) then push "Last name is required" st
  else if negb (hasMinLength v 2) then
    push "Last name must be at least 2 characters long" st
  else if negb (hasMaxLength v 50) then
    push "Last name must be less than 50 characters" st
  else set_field "lastName" (sanitizeInput v) st.

Definition check_email (v : jsval) (st : vstate) : vstate :=
  if negb (isRequired v) then push "Email is required" st
  else if negb (isValidEmail v) then
    push "Please enter a valid email address" st
  else set_field "email" (toLowerCase (sanitizeInput v)) st.

Definition check_phone (v : jsval) (st : vstate) : result vstate :=
  if truthy v then
    ok <-? isValidPhone v ;;
    if negb ok then Ok (push "Please enter a valid phone number" st)
    else Ok (set_field "phone" (sanitizeInput v) st)
  else Ok (set_field "phone" (sanitizeInput (VStr "")) st).

Definition check_message (v : jsval) (st : vstate) : vstate :=
  if negb (isRequired v) then push "Message is required" st
  else if negb (hasMinLength v 10) then
    push "Message must be at least 10 characters long" st
  else if negb (hasMaxLength v 5000) then
    push "Message must be less than 5000 characters" st
  else set_field "message" (sanitizeInput v) st.

(** [ServerValidator.validateContactForm(data)], run when the clock
    reads [now]. *)
Definition validateContactForm (now : Z) (input : jsval) : result validation :=
  firstName <-? get_prop input "firstName" ;;
  let st := check_firstName firstName ([], ∅) in
  lastName <-? get_prop input "lastName" ;;
  let st := check_lastName lastName st in
  email <-? get_prop input "email" ;;
  let st := check_email email st in
  phone <-? get_prop input "phone" ;;
  st <-? check_phone phone st ;;
  message <-? get_prop input "message" ;;
  let st := check_message message st in
  let st := set_field "timestamp" (Date.toISOString now) st in
  let st := set_field "source" "website_contact_form" st in
  Ok {| isValid := (length st.1 =? 0)%nat; errors := st.1; data := st.2 |}.

End ServerValidator.

(* ====================================================================== *)
(** ** The client-side helpers *)
(* ====================================================================== *)

(** [keywords.some(keyword => message.includes(keyword))] *)
Definition some_included (keywords : list string) (message : string) : bool :=
  existsb (fun keyword => includes keyword message) keywords.

Module FormValidator.

(** The client-side variant: five substitutions, no backslash, no
    length cap, and no type test before [.trim()]. *)
Definition sanitize_string (s : string) : string :=
  replaceAll "/" "&#x2F;"
    (replaceAll "'" "&#x27;"
      (replaceAll dquote "&quot;"
        (replaceAll ">" "&gt;"
          (replaceAll "<" "&lt;" (trim s))))).

Definition sanitizeInput (input : jsval) : result string :=
  if negb (truthy input) then Ok ""
  else match input with
       | VStr s => Ok (sanitize_string s)
       | _ => Throw (TypeError "input.trim is not a function")
       end.

(** [value.trim()] on whatever is passed: only a string has the method. *)
Definition trimmed (name : string) (value : jsval) : result string :=
  match value with
  | VStr s => Ok (trim s)
  | VUndefined | VNull =>
      Throw (TypeError "Cannot read properties of null or undefined (reading trim)")
  | _ => Throw (TypeError (name ++ ".trim is not a function"))
  end.

(** [/^[^\s@]+@[^\s@]+\.[^\s@]+$/], the expression of the server. *)
Definition emailRegex : regex := ServerValidator.emailRegex.

(** [/^[\+]?[\d\s\-\(\)]{7,}$/]: no upper bound. *)
Definition phoneRegex : regex :=
  RCat (opt (chr "+")) (RRep 7 None (RChar ServerValidator.phone_char)).

Definition isValidEmail (email : jsval) : result bool :=
  t <-? trimmed "email" email ;;
  Ok (test_anchored emailRegex t).

(** As on the server, the truth value of what the function returns. *)
Definition isRequired (value : jsval) : result bool :=
  if negb (truthy value) then Ok false
  else t <-? trimmed "value" value ;; Ok (0 <? String.length t)%nat.

Definition hasMinLength (value : jsval) (minLength : nat) : result bool :=
  if negb (truthy value) then Ok false
  else t <-? trimmed "value" value ;; Ok (minLength <=? String.length t)%nat.

Definition isValidPhone (phone : jsval) : result bool :=
  if negb (truthy phone) then Ok true
  else
    t <-? trimmed "phone" phone ;;
    if (String.length t =? 0)%nat then Ok true
    else Ok (test_anchored phoneRegex t).

(** The rules of one field; an absent property is [false] or [None]. *)
Record rules : Type := {
  required : bool;
  email : bool;
  phone : bool;
  minLength : option nat;
  label : option string
}.

(** The two properties of a [FormValidator] that its methods read
    back.  The classes and attributes set on the page's elements are
    written and never read. *)
Record validator : Type := {
  errors : gmap string string;
  isValid : bool
}.

Definition showFieldError (fieldName message : string) (st : validator) : validator :=
  {| errors := <[fieldName := message]> (errors st); isValid := false |}.

Definition clearFieldError (fieldName : string) (st : validator) : validator :=
  {| errors := delete fieldName (errors st); isValid := isValid st |}.

Definition clearAllErrors (st : validator) : validator :=
  {| errors := ∅; isValid := true |}.

(** [rules.label || fieldName] *)
Definition label_of (fieldName : string) (r : rules) : string :=
  match label r with
  | Some l => if String.eqb l "" then fieldName else l
  | None => fieldName
  end.

(** [validator.validateField(fieldName, value, rules)] *)
Definition validateField (fieldName : string) (value : jsval) (r : rules)
    (st : validator) : result (bool * validator) :=
  let st := clearFieldError fieldName st in
  present <-? (if required r then isRequired value else Ok true) ;;
  if negb present then
    Ok (false, showFieldError fieldName (label_of fieldName r ++ " is required.") st)
  else if negb (truthy value) then Ok (true, st)
  else
    t <-? trimmed "value" value ;;
    if (String.length t =? 0)%nat then Ok (true, st)
    else
      emailOk <-? (if email r then isValidEmail value else Ok true) ;;
      if negb emailOk then
        Ok (false, showFieldError fieldName "Please enter a valid email address." st)
      else
        phoneOk <-? (if phone r then isValidPhone value else Ok true) ;;
        if negb phoneOk then
          Ok (false, showFieldError fieldName "Please enter a valid phone number." st)
        else
          match minLength r with
          | Some (S n) =>
              longEnough <-? hasMinLength value (S n) ;;
              if negb longEnough then
                Ok (false,
                    showFieldError fieldName
                      (label_of fieldName r ++ " must be at least "
                         ++ of_Z (Z.of_nat (S n)) ++ " characters long.") st)
              else Ok (true, st)
          | _ => Ok (true, st)
          end.

(** The [forEach] of [validateForm] over the names of the rules, in
    their order: a name the form has no field for is skipped, and what
    [validateField] returns is dropped. *)
Fixpoint validate_each (validationRules : list (string * rules))
    (form : gmap string string) (st : validator) : result validator :=
  match validationRules with
  | [] => Ok st
  | (fieldName, r) :: rest =>
      match form !! fieldName with
      | Some value =>
          checked <-? validateField fieldName (VStr value) r st ;;
          validate_each rest form checked.2
      | None => validate_each rest form st
      end
  end.

(** [validator.validateForm(validationRules)] on a form whose fields
    have the values [form]. *)
Definition validateForm (validationRules : list (string * rules))
    (form : gmap string string) (st : validator) : result (bool * validator) :=
  st <-? validate_each validationRules form (clearAllErrors st) ;;
  Ok (isValid st, st).

End FormValidator.

Module SpamProtection.

Definition spamKeywords : list string :=
  ["viagra"; "casino"; "lottery"; "winner"; "congratulations";
   "click here"; "free money"; "make money fast"; "work from home";
   "guaranteed income"; "no experience required"; "act now"].

(** [/https?:\/\/[^\s]+/g] *)
Definition linkRegex : regex :=
  RCat (lit "http")
    (RCat (opt (chr "s"))
      (RCat (lit "://") (plus (RChar (fun c => negb (is_space c)))))).

(** [[a-zA-Z0-9._%+-]] *)
Definition local_char (c : ascii) : bool :=
  is_alpha c || is_digit c || Ascii.eqb c "." || Ascii.eqb c "_"
  || Ascii.eqb c "%" || Ascii.eqb c "+" || Ascii.eqb c "-".

(** [[a-zA-Z0-9.-]] *)
Definition domain_char (c : ascii) : bool :=
  is_alpha c || is_digit c || Ascii.eqb c "." || Ascii.eqb c "-".

(** [/[a-zA-Z0-9._%+-]+@[a-zA-Z0-9.-]+\.[a-zA-Z]{2,}/g] *)
Definition emailRegex : regex :=
  RCat (plus (RChar local_char))
    (RCat (chr "@")
      (RCat (plus (RChar domain_char))
        (RCat (chr ".") (RRep 2 None (RChar is_alpha))))).

(** [SpamProtection.detectSpam(message)] of the client.  The test
    [digits > message.length * 0.3] is written over the integers as
    [10 * digits > 3 * message.length]. *)
Definition detectSpam (message : jsval) : bool :=
  match message with
  | VStr m =>
      if negb (truthy message) then false
      else
        let lowerMessage := toLowerCase m in
        let hasSpamKeywords := some_included spamKeywords lowerMessage in
        let linkCount := match_count linkRegex m in
        let hasExcessiveLinks := (2 <? linkCount)%nat in
        let hasRepeatedChars := test_repeated 10 m in
        let hasAllCaps :=
          (20 <? String.length m)%nat && String.eqb m (toUpperCase m) in
        let hasExcessiveNumbers :=
          (3 * String.length m <? 10 * match_count (RChar is_digit) m)%nat in
        let emailCount := match_count emailRegex m in
        let hasMultipleEmails := (1 <? emailCount)%nat in
        hasSpamKeywords || hasExcessiveLinks || hasRepeatedChars
        || hasAllCaps || hasExcessiveNumbers || hasMultipleEmails
  | _ => false
  end.

End SpamProtection.

(* ====================================================================== *)
(** ** Numbers *)
(* ====================================================================== *)

(** The numbers the worker computes with are integers or [NaN] (what
    [parseInt] gives on a text with no leading digits). *)
Inductive number : Type :=
| Num (z : Z)
| NaN.

Module Number.

Local Open Scope Z_scope.

Definition digit_value (c : ascii) : option Z :=
  if is_digit c then Some (Z.of_nat (code c) - 48)
  else if is_lower c then Some (Z.of_nat (code c) - 87)
  else if is_upper c then Some (Z.of_nat (code c) - 55)
  else None.

(** The value of the longest prefix of [s] made of digits of [radix],
    [acc] being the value read so far ([None]: no digit yet). *)
Fixpoint digits (radix : Z) (acc : option Z) (s : string) : option Z :=
  match s with
  | EmptyString => acc
  | String c r =>
      match digit_value c with
      | Some d =>
          if d <? radix then digits radix (Some (default 0 acc * radix + d)) r
          else acc
      | None => acc
      end
  end.

Definition unsigned (s : string) : option Z :=
  match s with
  | String "0" (String "x" r) | String "0" (String "X" r) => digits 16 None r
  | _ => digits 10 None s
  end.

(** [parseInt(s)]: leading white space, an optional sign, an optional
    [0x] prefix, then as many digits as there are. *)
Definition parseInt (s : string) : number :=
  let s := trimStart s in
  let '(sign, s) :=
    match s with
    | String "-" r => (-1, r)
    | String "+" r => (1, r)
    | _ => (1, s)
    end in
  match unsigned s with
  | Some z => Num (sign * z)
  | None => NaN
  end.

(** Comparisons with [NaN] are false. *)
Definition ge (a : number) (b : Z) : bool :=
  match a with Num z => b <=? z | NaN => false end.

Definition gt (a : number) (b : Z) : bool :=
  match a with Num z => b <? z | NaN => false end.

Definition add (a : number) (b : Z) : number :=
  match a with Num z => Num (z + b) | NaN => NaN end.

(** [b - a] *)
Definition rsub (b : Z) (a : number) : number :=
  match a with Num z => Num (b - z) | NaN => NaN end.

Definition toString (a : number) : string :=
  match a with Num z => of_Z z | NaN => "NaN" end.

(** [Math.ceil(x / d)] for integers [x] and [d > 0]. *)
Definition ceil_div (x d : Z) : Z := - ((- x) / d).

End Number.

(* ====================================================================== *)
(** ** The world of one invocation *)
(* ====================================================================== *)

(** The fields of a log entry or of a JSON body, in order. *)
Definition fields : Type := list (string * jsval).

(** The payload of [EmailSender.createEmailContent]. *)
Record email : Type := {
  from : string;
  to : list string;
  reply_to : string;
  subject : string;
  html : string;
  text : string
}.

(** The two namespaces the worker only writes to. *)
Inductive sink : Type := Analytics | ErrorLogs.

(** Effects that leave the worker. *)
Inductive event : Type :=
| EvKvGet (key : string)
| EvKvPut (key value : string) (expirationTtl : Z)
| EvLogPut (s : sink) (entry : fields) (expirationTtl : Z)
| EvConsole (label : string)
| EvFetch (payload : email) (apiKey : string)
| EvSleep (ms : Z).

(** What the email provider does with one request: the connection
    fails, the body of the answer is not JSON, or it answers with a
    status ([ok]: 2xx) and a JSON body. *)
Inductive provider_reply : Type :=
| NetworkError (message : string)
| NotJson (ok : bool)
| Reply (ok : bool) (body : jsval).

(** The rate-limit namespace: every entry has a value and the time (in
    milliseconds) at which it expires; a store that is unreachable makes
    [get] or [put] throw. *)
Record kv_store : Type := {
  entries : gmap string (string * Z);
  get_throws : bool;
  put_throws : bool
}.

Record world : Type := {
  clock : Z;                       (* what [Date.now()] reads *)
  latency : nat -> Z;              (* how long the k-th awaited call takes *)
  awaited : nat;                   (* number of awaited calls so far *)
  rate_limit_kv : kv_store;
  log_put_throws : sink -> bool;
  provider : nat -> provider_reply;
  sent : nat;                      (* number of provider calls so far *)
  toLocaleString : string -> string;
  trace : list event
}.

Record env : Type := {
  RESEND_API_KEY : option string;
  RATE_LIMIT_KV : bool;            (* is the namespace bound? *)
  ANALYTICS_KV : bool;             (* likewise *)
  ERROR_LOGS_KV : bool             (* likewise *)
}.

(** Computations of the worker: they read and change the world and
    return or throw. *)
Definition M (A : Type) : Type := world -> result A * world.

Definition ret {A} (a : A) : M A := fun w => (Ok a, w).

Definition throw {A} (e : js_error) : M A := fun w => (Throw e, w).

Definition bind {A B} (m : M A) (k : A -> M B) : M B :=
  fun w =>
    match m w with
    | (Ok a, w') => k a w'
    | (Throw e, w') => (Throw e, w')
    end.

(** [try { m } catch (error) { handler error }] *)
Definition try_catch {A} (m : M A) (handler : js_error -> M A) : M A :=
  fun w =>
    match m w with
    | (Ok a, w') => (Ok a, w')
    | (Throw e, w') => handler e w'
    end.

Definition lift {A} (r : result A) : M A := fun w => (r, w).

Notation "x <- e ;; k" := (bind e (fun x => k))
  (at level 100, e at next level, k at level 200, right associativity).
Notation "'run' e ;; k" := (bind e (fun _ => k))
  (at level 100, e at next level, k at level 200, right associativity).

Definition with_clock (t : Z) (w : world) : world :=
  {| clock := t; latency := latency w; awaited := awaited w;
     rate_limit_kv := rate_limit_kv w; log_put_throws := log_put_throws w;
     provider := provider w; sent := sent w;
     toLocaleString := toLocaleString w; trace := trace w |}.

Definition with_awaited (n : nat) (w : world) : world :=
  {| clock := clock w; latency := latency w; awaited := n;
     rate_limit_kv := rate_limit_kv w; log_put_throws := log_put_throws w;
     provider := provider w; sent := sent w;
     toLocaleString := toLocaleString w; trace := trace w |}.

Definition with_entries (m : gmap string (string * Z)) (w : world) : world :=
  {| clock := clock w; latency := latency w; awaited := awaited w;
     rate_limit_kv :=
       {| entries := m; get_throws := get_throws (rate_limit_kv w);
          put_throws := put_throws (rate_limit_kv w) |};
     log_put_throws := log_put_throws w;
     provider := provider w; sent := sent w;
     toLocaleString := toLocaleString w; trace := trace w |}.

Definition with_sent (n : nat) (w : world) : world :=
  {| clock := clock w; latency := latency w; awaited := awaited w;
     rate_limit_kv := rate_limit_kv w; log_put_throws := log_put_throws w;
     provider := provider w; sent := n;
     toLocaleString := toLocaleString w; trace := trace w |}.

Definition with_trace (t : list event) (w : world) : world :=
  {| clock := clock w; latency := latency w; awaited := awaited w;
     rate_limit_kv := rate_limit_kv w; log_put_throws := log_put_throws w;
     provider := provider w; sent := sent w;
     toLocaleString := toLocaleString w; trace := t |}.

(** [Date.now()] *)
Definition date_now : M Z := fun w => (Ok (clock w), w).

Definition emit (ev : event) : M unit :=
  fun w => (Ok tt, with_trace (trace w ++ [ev])%list w).

(** An awaited call to the outside takes its time. *)
Definition await_io : M unit :=
  fun w =>
    (Ok tt,
     with_awaited (S (awaited w))
       (with_clock (clock w + latency w (awaited w))%Z w)).

(** [await new Promise(resolve => setTimeout(resolve, ms))] *)
Definition sleep (ms : Z) : M unit :=
  run emit (EvSleep ms) ;;
  fun w => (Ok tt, with_clock (clock w + ms)%Z w).

Definition console (label : string) : M unit := emit (EvConsole label).

(** [env.RATE_LIMIT_KV.get(key)]: [None] is JavaScript's [null], for a
    key that is absent or expired. *)
Definition kv_get (key : string) : M (option string) :=
  run await_io ;;
  run emit (EvKvGet key) ;;
  fun w =>
    if get_throws (rate_limit_kv w) then (Throw (Error "KV GET failed"), w)
    else
      match entries (rate_limit_kv w) !! key with
      | Some (value, expiry) =>
          if (clock w <? expiry)%Z then (Ok (Some value), w) else (Ok None, w)
      | None => (Ok None, w)
      end.

(** [env.RATE_LIMIT_KV.put(key, value, { expirationTtl })] *)
Definition kv_put (key value : string) (expirationTtl : Z) : M unit :=
  run await_io ;;
  run emit (EvKvPut key value expirationTtl) ;;
  fun w =>
    if put_throws (rate_limit_kv w) then (Throw (Error "KV PUT failed"), w)
    else
      (Ok tt,
       with_entries
         (<[key := (value, (clock w + expirationTtl * 1000)%Z)]>
            (entries (rate_limit_kv w))) w).

(** A write to one of the two log namespaces.  They are never read: the
    write is kept in the trace, its key (the clock and a random suffix)
    is not. *)
Definition log_put (s : sink) (entry : fields) (expirationTtl : Z) : M unit :=
  run await_io ;;
  run emit (EvLogPut s entry expirationTtl) ;;
  fun w =>
    if log_put_throws w s then (Throw (Error "KV PUT failed"), w)
    else (Ok tt, w).

(** [fetch('https://api.resend.com/emails', ...)] *)
Definition provider_fetch (payload : email) (apiKey : string) : M provider_reply :=
  run await_io ;;
  run emit (EvFetch payload apiKey) ;;
  fun w => (Ok (provider w (sent w)), with_sent (S (sent w)) w).

(* ====================================================================== *)
(** ** Requests and responses *)
(* ====================================================================== *)

(** An incoming request.  Header names are case-insensitive: the map is
    keyed by the lower-cased name.  [json] and [formData] are what
    [request.json()] and [request.formData()] resolve to, or the error
    they reject with. *)
Record request : Type := {
  method : string;
  url : string;
  request_headers : gmap string string;
  json : result jsval;
  formData : result (list (string * string))
}.

(** [request.headers.get(name)], [None] being [null]. *)
Definition header (r : request) (name : string) : option string :=
  request_headers r !! toLowerCase name.

(** [value || fallback] for a string that may be [null]. *)
Definition or_else (value : option string) (fallback : string) : string :=
  match value with
  | Some s => if String.eqb s "" then fallback else s
  | None => fallback
  end.

Definition nullable (value : option string) : jsval :=
  match value with Some s => VStr s | None => VNull end.

Inductive body : Type :=
| BodyNull
| BodyText (s : string)
| BodyJson (o : fields).

Record response : Type := {
  status : Z;
  headers : list (string * string);
  content : body
}.

Definition response_header (r : response) (name : string) : option string :=
  snd <$> List.find (fun kv => String.eqb (fst kv) name) (headers r).

Definition json_headers : list (string * string) :=
  [("Content-Type", "application/json"); ("Access-Control-Allow-Origin", "*")].

(** [new Response(JSON.stringify(o), { status, headers: {...} })] *)
Definition json_response (st : Z) (o : fields) : response :=
  {| status := st; headers := json_headers; content := BodyJson o |}.

(* ====================================================================== *)
(** ** Rate limiting *)
(* ====================================================================== *)

Record rate_limit : Type := {
  allowed : bool;
  remaining : number;
  resetTime : Z
}.

Module RateLimiter.

Import Number.

Definition maxRequests : Z := 5.

Definition rateLimitKey (r : request) : string :=
  "rate_limit:" ++ or_else (header r "CF-Connecting-IP") "unknown".

(** [RateLimiter.checkRateLimit(request, env)] *)
Definition checkRateLimit (r : request) (e : env) : M rate_limit :=
  let rateLimitKey := rateLimitKey r in
  try_catch
    (currentCount <-
       (if RATE_LIMIT_KV e then kv_get rateLimitKey else ret None) ;;
     let count :=
       match currentCount with
       | Some c => if String.eqb c "" then Num 0 else parseInt c
       | None => Num 0
       end in
     if ge count maxRequests then
       now <- date_now ;;
       ret {| allowed := false; remaining := Num 0;
              resetTime := (now + 60 * 60 * 1000)%Z |}
     else
       run (if RATE_LIMIT_KV e
            then kv_put rateLimitKey (toString (add count 1)) 3600
            else ret tt) ;;
       now <- date_now ;;
       ret {| allowed := true;
              remaining := add (rsub maxRequests count) (-1);
              resetTime := (now + 60 * 60 * 1000)%Z |})
    (fun error =>
       run console "Rate limiting error:" ;;
       now <- date_now ;;
       ret {| allowed := true; remaining := Num 4;
              resetTime := (now + 60 * 60 * 1000)%Z |}).

Definition spamKeywords : list string :=
  ["viagra"; "casino"; "lottery"; "winner"; "congratulations";
   "click here"; "free money"].

(** [/https?:\/\//g] *)
Definition linkRegex : regex :=
  RCat (lit "http") (RCat (opt (chr "s")) (lit "://")).

(** [RateLimiter.detectSpam(formData)]: every test, the all-caps one
    included, reads the lower-cased [message]. *)
Definition detectSpam (formData : gmap string string) : bool :=
  let message := toLowerCase (default "" (formData !! "message")) in
  let hasSpamKeywords := some_included spamKeywords message in
  let linkCount := match_count linkRegex message in
  let hasExcessiveLinks := (2 <? linkCount)%nat in
  let hasRepeatedChars := test_repeated 10 message in
  let hasAllCaps :=
    (20 <? String.length message)%nat
    && String.eqb message (toUpperCase message) in
  hasSpamKeywords || hasExcessiveLinks || hasRepeatedChars || hasAllCaps.

End RateLimiter.

(* ====================================================================== *)
(** ** Email delivery *)
(* ====================================================================== *)

(** [`${v}`] for a value read out of a JSON body. *)
Fixpoint to_text (v : jsval) : string :=
  match v with
  | VUndefined => "undefined"
  | VNull => "null"
  | VBool b => if b then "true" else "false"
  | VNum n => of_Z n
  | VStr s => s
  | VArr items =>
      String.concat ","
        (List.map (fun i => match i with
                            | VUndefined | VNull => ""
                            | _ => to_text i
                            end) items)
  | VObj _ => "[object Object]"
  end.

Module EmailSender.

Definition newline : ascii := ascii_of_nat 10.

(** [EmailSender.createEmailContent(formData)]; [locale] is the
    runtime's [new Date(t).toLocaleString()]. *)
Definition createEmailContent (locale : string -> string)
    (formData : gmap string string) : result email :=
  let prop name := default "undefined" (formData !! name) in
  let has name := negb (String.eqb (default "" (formData !! name)) "") in
  let nl := String newline "" in
  let dq := String dquote "" in
  match formData !! "message" with
  | None => Throw (TypeError "Cannot read properties of undefined (reading replace)")
  | Some message =>
      Ok {| from := "VA by Anna Contact Form <noreply@vabyanna.com>";
            to := ["anna@vabyanna.com"];
            reply_to := prop "email";
            subject := "New Contact Form Submission from "
                         ++ prop "firstName" ++ " " ++ prop "lastName";
            html := String.concat "" [
      nl; "            <h2>New Contact Form Submission</h2>"; nl;
      "            <p><strong>From:</strong> "; prop "firstName"; " ";
      prop "lastName"; "</p>"; nl;
      "            <p><strong>Email:</strong> "; prop "email"; "</p>"; nl;
      "            ";
      (if has "phone" then "<p><strong>Phone:</strong> " ++ prop "phone" ++ "</p>" else "");
      nl; "            <p><strong>Submitted:</strong> ";
      locale (prop "timestamp"); "</p>"; nl; "            "; nl;
      "            <h3>Message:</h3>"; nl; "            <div style="; dq;
      "background: #f5f5f5; padding: 15px; border-radius: 5px; margin: 10px 0;";
      dq; ">"; nl; "                "; replaceAll newline "<br>" message;
      nl; "            </div>"; nl; "            "; nl;
      "            <hr>"; nl; "            <p style="; dq;
      "color: #666; font-size: 12px;"; dq; ">"; nl;
      "                This message was sent from the vabyanna.com contact form.";
      nl; "            </p>"; nl; "        "];
            text := String.concat "" [
      nl; "New Contact Form Submission"; nl; nl; "From: ";
      prop "firstName"; " "; prop "lastName"; nl; "Email: "; prop "email";
      nl; (if has "phone" then "Phone: " ++ prop "phone" else ""); nl;
      "Submitted: "; locale (prop "timestamp"); nl; nl; "Message:"; nl;
      message; nl; nl; "---"; nl;
      "This message was sent from the vabyanna.com contact form."; nl;
      "        "] |}
  end.

(** [EmailSender.sendWithResend(emailData, apiKey)] *)
Definition sendWithResend (emailData : email) (apiKey : string) : M jsval :=
  reply <- provider_fetch emailData apiKey ;;
  match reply with
  | NetworkError m => throw (TypeError m)
  | NotJson _ => throw (Error "Unexpected token in JSON")
  | Reply ok result =>
      if negb ok then
        message <- lift (get_prop result "message") ;;
        throw (Error ("Resend API error: "
                        ++ (if truthy message then to_text message
                            else "Unknown error")))
      else ret result
  end.

(** [EmailSender.sendContactFormEmail(formData, apiKey)] *)
Definition sendContactFormEmail (formData : gmap string string)
    (apiKey : string) : M jsval :=
  locale <- (fun w => (Ok (toLocaleString w), w)) ;;
  emailContent <- lift (createEmailContent locale formData) ;;
  sendWithResend emailContent apiKey.

End EmailSender.

(* ====================================================================== *)
(** ** Logging *)
(* ====================================================================== *)

Module Logger.

(** [Logger.logSubmission(data, env)] *)
Definition logSubmission (data : fields) (e : env) : M unit :=
  now <- date_now ;;
  let logEntry :=
    ([("timestamp", VStr (Date.toISOString now));
      ("type", VStr "form_submission")] ++ data)%list in
  run console "Form submission:" ;;
  if ANALYTICS_KV e then
    try_catch (log_put Analytics logEntry (30 * 24 * 60 * 60))
      (fun error => console "Failed to store log:")
  else ret tt.

(** [Logger.logError(error, context, env)]; the [stack] of the entry
    is left out. *)
Definition logError (error : js_error) (context : fields) (e : env) : M unit :=
  now <- date_now ;;
  let logEntry :=
    [("timestamp", VStr (Date.toISOString now));
     ("type", VStr "error");
     ("error", VStr (error_message error));
     ("context", VObj context)] in
  run console "Error:" ;;
  if ERROR_LOGS_KV e then
    try_catch (log_put ErrorLogs logEntry (7 * 24 * 60 * 60))
      (fun kvError => console "Failed to store error log:")
  else ret tt.

End Logger.

(* ====================================================================== *)
(** ** The worker *)
(* ====================================================================== *)

Module Worker.

Import Number ServerValidator RateLimiter EmailSender Logger.

Definition preflight : response :=
  {| status := 200;
     headers := [("Access-Control-Allow-Origin", "*");
                 ("Access-Control-Allow-Methods", "POST, OPTIONS");
                 ("Access-Control-Allow-Headers", "Content-Type");
                 ("Access-Control-Max-Age", "86400")];
     content := BodyNull |}.

Definition not_found : response :=
  {| status := 404;
     headers := [("Access-Control-Allow-Origin", "*")];
     content := BodyText "Not Found" |}.

Definition too_large : response :=
  json_response 413
    [("success", VBool false); ("message", VStr "Request too large")].

Definition too_many_requests (retryAfter retryAfterHeader : Z) : response :=
  {| status := 429;
     headers := (json_headers ++ [("Retry-After", of_Z retryAfterHeader)])%list;
     content :=
       BodyJson [("success", VBool false);
                 ("message", VStr "Too many requests. Please try again later.");
                 ("retryAfter", VNum retryAfter)] |}.

Definition invalid_format : response :=
  json_response 400
    [("success", VBool false); ("message", VStr "Invalid request format")].

Definition validation_failed (errs : list string) : response :=
  json_response 400
    [("success", VBool false); ("message", VStr "Validation failed");
     ("errors", VArr (List.map VStr errs))].

Definition received : response :=
  json_response 200
    [("success", VBool true); ("message", VStr "Message received successfully")].

Definition sent_ok : response :=
  json_response 200
    [("success", VBool true); ("message", VStr "Message sent successfully")].

Definition internal_error : response :=
  json_response 500
    [("success", VBool false);
     ("message", VStr "Internal server error. Please try again later.")].

(** The inner [try] that reads the body. *)
Definition parse (r : request) : result jsval :=
  let contentType := or_else (header r "Content-Type") "" in
  if includes "application/json" contentType then json r
  else if includes "application/x-www-form-urlencoded" contentType then
    formDataObj <-? formData r ;;
    (* [Object.fromEntries]: the last entry of a name wins *)
    Ok (VObj (rev (List.map (fun kv => (kv.1, VStr kv.2)) formDataObj)))
  else Throw (Error "Unsupported content type").

Definition maxRetries : nat := 2.

(** The [while (retryCount <= maxRetries)] loop.  Every turn that does
    not leave the loop increments [retryCount], so [S maxRetries] turns
    of [fuel] are enough from [retryCount = 0]. *)
Fixpoint retry_loop (fuel : nat) (retryCount : nat) (e : env)
    (formData : gmap string string) (apiKey : string) : M jsval :=
  match fuel with
  | O => ret VUndefined
  | S fuel' =>
      if (retryCount <=? maxRetries)%nat then
        try_catch (sendContactFormEmail formData apiKey)
          (fun emailError =>
             let retryCount := S retryCount in
             if (maxRetries <? retryCount)%nat then
               run logError emailError
                     [("type", VStr "email_send_failed");
                      ("retryCount", VNum (Z.of_nat retryCount));
                      ("email", VStr (default "undefined" (formData !! "email")))]
                     e ;;
               throw emailError
             else
               run sleep (2 ^ Z.of_nat retryCount * 1000)%Z ;;
               retry_loop fuel' retryCount e formData apiKey)
      else ret VUndefined
  end.

(** From "Send email with retry logic" to the end of the [try]. *)
Definition deliver (r : request) (e : env) (v : validation) : M response :=
  match RESEND_API_KEY e with
  | Some apiKey =>
      if String.eqb apiKey "" then
        run logError (Error "Email service not configured")
              [("type", VStr "configuration_error")] e ;;
        throw (Error "Email service not configured")
      else
        emailResult <- retry_loop (S maxRetries) 0 e (data v) apiKey ;;
        emailId <- lift (get_prop emailResult "id") ;;
        run logSubmission
              [("status", VStr "success");
               ("email", VStr (default "undefined" (data v !! "email")));
               ("emailId", emailId);
               ("ip", nullable (header r "CF-Connecting-IP"))] e ;;
        ret sent_ok
  | None =>
      run logError (Error "Email service not configured")
            [("type", VStr "configuration_error")] e ;;
      throw (Error "Email service not configured")
  end.

(** From "Parse form data" on: what an accepted request goes through. *)
Definition submit (r : request) (e : env) : M response :=
  match parse r with
  | Throw _ => ret invalid_format
  | Ok input =>
      now <- date_now ;;
      v <- lift (validateContactForm now input) ;;
      if negb (isValid v) then
        run logSubmission
              [("status", VStr "validation_failed");
               ("errors", VArr (List.map VStr (errors v)));
               ("ip", nullable (header r "CF-Connecting-IP"))] e ;;
        ret (validation_failed (errors v))
      else if detectSpam (data v) then
        run logSubmission
              [("status", VStr "spam_detected");
               ("ip", nullable (header r "CF-Connecting-IP"));
               ("email", VStr (default "undefined" (data v !! "email")))] e ;;
        ret received
      else deliver r e v
  end.

(** [contentLength && parseInt(contentLength) > 10240] *)
Definition oversized (r : request) : bool :=
  let contentLength := or_else (header r "Content-Length") "" in
  negb (String.eqb contentLength "") && gt (parseInt contentLength) 10240.

(** The body of the outer [try]. *)
Definition handle (r : request) (e : env) : M response :=
  if oversized r then ret too_large
  else
    rateLimitResult <- checkRateLimit r e ;;
    if negb (allowed rateLimitResult) then
      run logSubmission
            [("status", VStr "rate_limited");
             ("ip", nullable (header r "CF-Connecting-IP"));
             ("userAgent", nullable (header r "User-Agent"))] e ;;
      bodyNow <- date_now ;;
      headerNow <- date_now ;;
      ret (too_many_requests
             (ceil_div (resetTime rateLimitResult - bodyNow) 1000)
             (ceil_div (resetTime rateLimitResult - headerNow) 1000))
    else submit r e.

(** The [catch] of the outer [try]. *)
Definition on_error (r : request) (e : env) (error : js_error) : M response :=
  run logError error
        [("url", VStr (url r)); ("method", VStr (method r));
         ("ip", nullable (header r "CF-Connecting-IP"));
         ("userAgent", nullable (header r "User-Agent"))] e ;;
  ret internal_error.

(** [export default { async fetch(request, env, ctx) }] *)
Definition fetch (r : request) (e : env) : M response :=
  if String.eqb (method r) "OPTIONS" then ret preflight
  else if negb (String.eqb (method r) "POST")
          || negb (includes "/api/contact" (url r))
  then ret not_found
  else try_catch (handle r e) (on_error r e).

End Worker.

(* ====================================================================== *)
(** ** The contact form of the page *)
(* ====================================================================== *)

Module Page.

Import FormValidator.

(** [validationRules] of [initializeContactForm], in the order of its
    names. *)
Definition validationRules : list (string * rules) :=
  [("firstName",
    {| required := true; email := false; phone := false;
       minLength := Some 2; label := Some "First Name" |});
   ("lastName",
    {| required := true; email := false; phone := false;
       minLength := Some 2; label := Some "Last Name" |});
   ("email",
    {| required := true; email := true; phone := false;
       minLength := None; label := Some "Email" |});
   ("phone",
    {| required := false; email := false; phone := true;
       minLength := None; label := Some "Phone Number" |});
   ("message",
    {| required := true; email := false; phone := false;
       minLength := Some 10; label := Some "Message" |})].

Definition minInterval : Z := 30000.

(** [SpamProtection.checkSubmissionFrequency()], on what
    [localStorage.getItem('lastFormSubmission')] holds ([None]: [null])
    when the clock reads [now]; it returns its answer and what the item
    holds afterwards. *)
Definition checkSubmissionFrequency (lastSubmission : option string) (now : Z)
    : bool * option string :=
  let tooFrequent :=
    match lastSubmission with
    | Some s =>
        negb (String.eqb s "")
        && match Number.parseInt s with
           | Num last => (now - last <? minInterval)%Z
           | NaN => false
           end
    | None => false
    end in
  if tooFrequent then (true, lastSubmission)
  else (false, Some (of_Z now)).

(** [response.json()]: the bodies the worker sends that are not JSON
    objects are empty or the text [Not Found]. *)
Definition json_of (resp : response) : result jsval :=
  match content resp with
  | BodyJson o => Ok (VObj o)
  | _ => Throw (Error "Unexpected token in JSON")
  end.

(** [errors.join(sep)] *)
Definition join (sep : string) (errors : jsval) : result string :=
  match errors with
  | VArr items =>
      Ok (String.concat sep
            (List.map (fun i => match i with
                                | VUndefined | VNull => ""
                                | _ => to_text i
                                end) items))
  | _ => Throw (TypeError "result.errors.join is not a function")
  end.

(** [value || fallback] for a property read out of a JSON body. *)
Definition text_or (value : jsval) (fallback : string) : string :=
  if truthy value then to_text value else fallback.

(** [submitContactForm(formData)]; [reply] is what
    [await fetch('/api/contact', ...)] gives for the body
    [JSON.stringify(formData)]: a response, or the error it rejects
    with. *)
Definition submitContactForm (reply : result response) : result jsval :=
  let attempt :=
    response <-? reply ;;
    result <-? json_of response ;;
    if negb ((200 <=? status response)%Z && (status response <? 300)%Z) then
      if (status response =? 429)%Z then
        Throw (Error "Too many requests. Please wait a moment and try again.")
      else
        errors <-? (if (status response =? 400)%Z then get_prop result "errors"
                    else Ok VUndefined) ;;
        if truthy errors then
          joined <-? join ", " errors ;;
          Throw (Error ("Validation failed: " ++ joined))
        else
          message <-? get_prop result "message" ;;
          Throw (Error (text_or message "Failed to send message"))
    else Ok result in
  match attempt with
  | Ok result => Ok result
  | Throw (TypeError m) =>
      if includes "fetch" m then
        Throw (Error "Network error. Please check your connection and try again.")
      else Throw (TypeError m)
  | Throw error => Throw error
  end.

(** What [FormFeedback] shows. *)
Inductive feedback : Type :=
| ShowSuccess (message : string)
| ShowError (message : string).

Definition thanks : string :=
  "Thank you for your message! I'll get back to you within 24 hours.".

Definition apology : string :=
  "Sorry, there was an error sending your message. Please try again or contact me directly at anna@vabyanna.com.".

(** The message the [catch] of the submit handler chooses. *)
Definition explain (error : js_error) : string :=
  let message := error_message error in
  if includes "Too many requests" message then
    "You've sent several messages recently. Please wait a moment before trying again."
  else if includes "Network error" message then
    "Network connection issue. Please check your internet connection and try again."
  else if includes "Validation failed" message then
    "Please check your information and try again."
  else apology.

(** [sanitizedData[key] = value] *)
Fixpoint set_prop (name : string) (value : jsval) (o : fields) : fields :=
  match o with
  | [] => [(name, value)]
  | (k, x) :: rest =>
      if String.eqb k name then (k, value) :: rest
      else (k, x) :: set_prop name value rest
  end.

(** The loop over [formData.entries()]. *)
Fixpoint sanitize_entries (entries : list (string * string)) (o : fields)
    : result fields :=
  match entries with
  | [] => Ok o
  | (key, value) :: rest =>
      clean <-? sanitizeInput (VStr value) ;;
      sanitize_entries rest (set_prop key (VStr clean) o)
  end.

(** The [try] of the submit handler with its [catch]: what is shown
    once the form has been sent; [stamp] is the clock read for the
    timestamp. *)
Definition send (entries : list (string * string)) (stamp : Z)
    (network : fields -> result response) : feedback :=
  let attempt :=
    sanitizedData <-? sanitize_entries entries [] ;;
    let sanitizedData :=
      set_prop "source" (VStr "website_contact_form")
        (set_prop "timestamp" (VStr (Date.toISOString stamp)) sanitizedData) in
    response <-? submitContactForm (network sanitizedData) ;;
    success <-? get_prop response "success" ;;
    if truthy success then Ok tt
    else
      message <-? get_prop response "message" ;;
      Throw (Error (text_or message "Failed to send message")) in
  match attempt with
  | Ok _ => ShowSuccess thanks
  | Throw error => ShowError (explain error)
  end.

(** What the page keeps between two submissions. *)
Record page : Type := {
  form_validator : validator;
  lastFormSubmission : option string
}.

(** The [submit] listener of the contact form, on a form whose named
    fields have the values [entries] (in document order), when the
    clock reads [now] at the frequency check and [stamp] at the
    timestamp. *)
Definition on_submit (entries : list (string * string)) (now stamp : Z)
    (network : fields -> result response) (pg : page)
    : result (feedback * page) :=
  let form : gmap string string := list_to_map entries in
  checked <-? validateForm validationRules form (form_validator pg) ;;
  let pg := {| form_validator := checked.2;
               lastFormSubmission := lastFormSubmission pg |} in
  if negb checked.1 then
    Ok (ShowError "Please correct the errors above and try again.", pg)
  else
    match form !! "message" with
    | None => Throw (TypeError "Cannot read properties of null (reading value)")
    | Some message =>
        if SpamProtection.detectSpam (VStr message) then
          Ok (ShowError
                "Your message appears to contain spam content. Please revise and try again.",
              pg)
        else
          let tooFrequent := checkSubmissionFrequency (lastFormSubmission pg) now in
          let pg := {| form_validator := form_validator pg;
                       lastFormSubmission := tooFrequent.2 |} in
          if tooFrequent.1 then
            Ok (ShowError
                  "Please wait at least 30 seconds between form submissions.",
                pg)
          else
            match send entries stamp network with
            | ShowSuccess m =>
                Ok (ShowSuccess m,
                    {| form_validator := clearAllErrors (form_validator pg);
                       lastFormSubmission := lastFormSubmission pg |})
            | ShowError m => Ok (ShowError m, pg)
            end
    end.

End Page.

(* ====================================================================== *)
(** ** Observations on a trace *)
(* ====================================================================== *)

(** Provider calls and timer waits, in order, the payloads forgotten. *)
Inductive delivery_step : Type :=
| Attempt
| Wait (ms : Z).

Fixpoint delivery_steps (t : list event) : list delivery_step :=
  match t with
  | [] => []
  | EvFetch _ _ :: r => Attempt :: delivery_steps r
  | EvSleep ms :: r => Wait ms :: delivery_steps r
  | _ :: r => delivery_steps r
  end.

(** A provider reply that makes [sendWithResend] throw. *)
Definition reply_fails (p : provider_reply) : bool :=
  match p with
  | NetworkError _ | NotJson _ => true
  | Reply ok _ => negb ok
  end.

(** Seconds until the entry of [key] expires, rounded up. *)
Definition seconds_until_reset (w : world) (key : string) : option Z :=
  match entries (rate_limit_kv w) !! key with
  | Some (_, expiry) => Some (Number.ceil_div (expiry - clock w) 1000)
  | None => None
  end.

(** The counter of [key] as the limiter will read it: the stored text,
    if it has not expired when the read completes, through [parseInt]. *)
Definition stored_count (w : world) (key : string) : number :=
  match entries (rate_limit_kv w) !! key with
  | Some (c, expiry) =>
      if (clock w + latency w (awaited w) <? expiry)%Z
      then (if String.eqb c "" then Num 0 else Number.parseInt c)
      else Num 0
  | None => Num 0
  end.

(** From [w] to [w'] the delivery steps [steps] were added, [n] provider
    calls were made, and the provider is the same. *)
Definition extends (w w' : world) (steps : list delivery_step) (n : nat) : Prop :=
  delivery_steps (trace w') = (delivery_steps (trace w) ++ steps)%list
  /\ sent w' = sent w + n
  /\ provider w' = provider w.

(** A computation that always returns and adds no delivery step. *)
Definition calm {A} (m : M A) : Prop :=
  forall w, exists a w', m w = (Ok a, w') /\ extends w w' [] 0.

(** A computation that adds no delivery step, whether it returns or
    throws. *)
Definition quiet {A} (m : M A) : Prop :=
  forall w, extends w (m w).2 [] 0.

(** Every response the computation returns satisfies [P]. *)
Definition responds (P : response -> Prop) (m : M response) : Prop :=
  forall w resp w', m w = (Ok resp, w') -> P resp.

(** The response is not a rate-limit rejection. *)
Definition proceeds (resp : response) : Prop := status resp <> 429%Z.

(** A store operation the limiter performs throws: the read, or the
    write that follows a count below the limit. *)
Definition store_fails (w : world) (key : string) : Prop :=
  get_throws (rate_limit_kv w) = true
  \/ (get_throws (rate_limit_kv w) = false
      /\ put_throws (rate_limit_kv w) = true
      /\ Number.ge (stored_count w key) RateLimiter.maxRequests = false).

(** The request is a [POST] to the form's path, is not oversized, and
    the limiter lets it in, leaving the world [w1]. *)
Definition accepted (r : request) (e : env) (w w1 : world) : Prop :=
  method r = "POST"
  /\ includes "/api/contact" (url r) = true
  /\ Worker.oversized r = false
  /\ exists rl, RateLimiter.checkRateLimit r e w = (Ok rl, w1)
                /\ allowed rl = true.

(** The body of the request parses and passes validation as [v] when the
    clock is that of [w1]. *)
Definition validated (r : request) (w1 : world) (v : validation) : Prop :=
  exists input,
    Worker.parse r = Ok input
    /\ ServerValidator.validateContactForm (clock w1) input = Ok v
    /\ isValid v = true.

(** [env.RESEND_API_KEY] is a non-empty string. *)
Definition api_key (e : env) (k : string) : Prop :=
  RESEND_API_KEY e = Some k /\ String.eqb k "" = false.

(** The field [name] of a JSON body. *)
Definition body_field (r : response) (name : string) : jsval :=
  match content r with
  | BodyJson o => assoc name o
  | _ => VUndefined
  end.

(* ====================================================================== *)
(** ** Sample inputs *)
(* ====================================================================== *)

Module Samples.

Fixpoint repeat_char (n : nat) (c : ascii) : string :=
  match n with
  | O => EmptyString
  | S k => String c (repeat_char k c)
  end.

(** The characters [sanitizeInput] escapes on the server; the client
    escapes the first five. *)
Definition escaped_by_client : list ascii := ["<"; ">"; dquote; "'"; "/"]%char.
Definition escaped_by_server : list ascii := (escaped_by_client ++ ["\"%char])%list.

Definition ann_fields : fields :=
  [("firstName", VStr "Ann"); ("lastName", VStr "Lee");
   ("email", VStr "ann@example.com");
   ("message", VStr "Hello, I would like to book a call please.")].

(** A well-formed submission. *)
Definition ann : jsval := VObj ann_fields.

(** The same submission with a phone number sent as a JSON number. *)
Definition ann_numeric_phone : jsval :=
  VObj (("phone", VNum 5551234567) :: ann_fields).

(** A submission with no required field and a numeric phone. *)
Definition only_numeric_phone : jsval := VObj [("phone", VNum 5551234567)].

(** A submission in which every check fails. *)
Definition all_wrong : jsval :=
  VObj [("firstName", VStr "A"); ("lastName", VNum 7);
        ("email", VStr "bad-email"); ("phone", VStr "abc");
        ("message", VStr "short")].

(** A submission with no field at all. *)
Definition empty_form : jsval := VObj [].

(** A [POST] of a JSON body to the form's path from the address [ip]. *)
Definition post (ip : string) (input : jsval) : request :=
  {| method := "POST";
     url := "https://vabyanna.com/api/contact";
     request_headers :=
       {[ "content-type" := "application/json"; "cf-connecting-ip" := ip ]};
     json := Ok input;
     formData := Throw (TypeError "Body is not form data") |}.

(** A provider that accepts every email. *)
Definition accepting : nat -> provider_reply :=
  fun _ => Reply true (VObj [("id", VStr "email_1")]).

(** A provider that rejects the first two emails and accepts the
    third. *)
Definition recovering : nat -> provider_reply :=
  fun n =>
    if (n <? 2)%nat
    then Reply false (VObj [("message", VStr "Service unavailable")])
    else Reply true (VObj [("id", VStr "email_3")]).

(** A provider that rejects every email. *)
Definition rejecting : nat -> provider_reply :=
  fun _ => Reply false (VObj [("message", VStr "Service unavailable")]).

(** A world at time [now] with the counters [counters], where awaited
    calls take no time and the stores work. *)
Definition world_at (now : Z) (counters : gmap string (string * Z))
    (p : nat -> provider_reply) : world :=
  {| clock := now; latency := fun _ => 0%Z; awaited := 0;
     rate_limit_kv :=
       {| entries := counters; get_throws := false; put_throws := false |};
     log_put_throws := fun _ => false;
     provider := p; sent := 0;
     toLocaleString := fun t => t; trace := [] |}.

(** The same world with an unreachable rate-limit store. *)
Definition store_down (w : world) : world :=
  {| clock := clock w; latency := latency w; awaited := awaited w;
     rate_limit_kv :=
       {| entries := entries (rate_limit_kv w);
          get_throws := true; put_throws := true |};
     log_put_throws := log_put_throws w;
     provider := provider w; sent := sent w;
     toLocaleString := toLocaleString w; trace := trace w |}.

Definition env_with (key : option string) : env :=
  {| RESEND_API_KEY := key; RATE_LIMIT_KV := true;
     ANALYTICS_KV := true; ERROR_LOGS_KV := true |}.

Definition visitor : string := "203.0.113.7".
Definition configured : env := env_with (Some "re_test").
Definition unconfigured : env := env_with None.

(** A deployment with the provider's key and no namespace bound. *)
Definition bare : env :=
  {| RESEND_API_KEY := Some "re_test"; RATE_LIMIT_KV := false;
     ANALYTICS_KV := false; ERROR_LOGS_KV := false |}.

(** What the limiter answers to a first request at time 0. *)
Definition first_allowed : rate_limit :=
  {| allowed := true; remaining := Num 4; resetTime := 3600000 |}.

(** The address [203.0.113.7] has made five requests, the last of them
    half an hour ago: its counter expires in half an hour. *)
Definition half_hour_left : world :=
  world_at 1800000 {[ "rate_limit:203.0.113.7" := ("5", 3600000%Z) ]} accepting.

(** The world the limiter leaves behind. *)
Definition limiter_world (r : request) (e : env) (w : world) : world :=
  (RateLimiter.checkRateLimit r e w).2.

(** The result of validating [input] at time [now], for an input on
    which the call returns. *)
Definition validation_of (now : Z) (input : jsval) : validation :=
  match ServerValidator.validateContactForm now input with
  | Ok v => v
  | Throw _ => {| isValid := false; errors := []; data := ∅ |}
  end.

(** The requests [rs] served one after the other: the statuses
    answered, and the world left behind. *)
Fixpoint serve (rs : list request) (e : env) (w : world) : list Z * world :=
  match rs with
  | [] => ([], w)
  | r :: rest =>
      let '(answer, w1) := Worker.fetch r e w in
      let '(statuses, w2) := serve rest e w1 in
      (match answer with Ok resp => status resp | Throw _ => 0%Z end :: statuses,
       w2)
  end.

(** The submission of the specification's second end-to-end example. *)
Definition three_mistakes : jsval :=
  VObj [("firstName", VStr "A"); ("lastName", VStr "Lee");
        ("email", VStr "bad-email"); ("message", VStr "short")].

(** A message that contains a spam keyword. *)
Definition casino : jsval :=
  VObj [("firstName", VStr "Ann"); ("lastName", VStr "Lee");
        ("email", VStr "ann@example.com");
        ("message", VStr "Visit our casino for a great evening out.")].

(** A submission whose first name carries markup. *)
Definition markup : jsval :=
  VObj [("firstName", VStr "<b>Ann</b>"); ("lastName", VStr "Lee");
        ("email", VStr "Ann@Example.com");
        ("message", VStr "Hello, I would like to book a call please.")].

(** Twenty-five capital letters. *)
Definition shout : string := "ABCDEFGHIJKLMNOPQRSTUVWXY".

(** [s] contains a letter. *)
Definition has_letter (s : string) : bool := negb (sall (fun c => negb (is_alpha c)) s).

End Samples.

Import Samples.

(* ====================================================================== *)
(** ** The shape of an ISO-8601 timestamp *)
(* ====================================================================== *)

(** [s] is made of exactly [n] decimal digits. *)
Definition digits_of_width (n : nat) (s : string) : Prop :=
  String.length s = n /\ sall is_digit s = true.

(** [YYYY-MM-DDTHH:mm:ss.sssZ], the year being four digits or a sign and
    six digits. *)
Definition iso_8601 (s : string) : Prop :=
  exists Y M D h m sec ms,
    s = Y ++ "-" ++ M ++ "-" ++ D ++ "T" ++ h ++ ":" ++ m ++ ":" ++ sec
          ++ "." ++ ms ++ "Z"
    /\ (digits_of_width 4 Y
        \/ exists Y', (Y = "+" ++ Y' \/ Y = "-" ++ Y') /\ digits_of_width 6 Y')
    /\ digits_of_width 2 M /\ digits_of_width 2 D /\ digits_of_width 2 h
    /\ digits_of_width 2 m /\ digits_of_width 2 sec /\ digits_of_width 3 ms.

(* ====================================================================== *)
(** ** Reading a validation result *)
(* ====================================================================== *)

Module Reading.

Import ServerValidator.

Definition required_fields : list string :=
  ["firstName"; "lastName"; "email"; "message"].

(** The messages the validator has for each field, the "is required"
    one first. *)
Definition field_messages (field : string) : list string :=
  if String.eqb field "firstName" then
    ["First name is required";
     "First name must be at least 2 characters long";
     "First name must be less than 50 characters"]
  else if String.eqb field "lastName" then
    ["Last name is required";
     "Last name must be at least 2 characters long";
     "Last name must be less than 50 characters"]
  else if String.eqb field "email" then
    ["Email is required"; "Please enter a valid email address"]
  else if String.eqb field "phone" then
    ["Please enter a valid phone number"]
  else if String.eqb field "message" then
    ["Message is required";
     "Message must be at least 10 characters long";
     "Message must be less than 5000 characters"]
  else [].

Definition required_message (field : string) : string :=
  hd "" (field_messages field).

(** [msg] is one of the messages of [field]. *)
Definition about (field msg : string) : bool :=
  existsb (String.eqb msg) (field_messages field).

(** The value of a property of the input, [undefined] when the input
    has no properties at all. *)
Definition prop_of (input : jsval) (field : string) : jsval :=
  match get_prop input field with
  | Ok v => v
  | Throw _ => VUndefined
  end.

(** The field is missing, not a string, or empty once trimmed. *)
Definition missing (input : jsval) (field : string) : bool :=
  negb (isRequired (prop_of input field)).

Definition is_string (v : jsval) : bool :=
  match v with VStr _ => true | _ => false end.

(** The input has properties, and its [phone] is falsy or a string:
    the inputs on which [isValidPhone] does not call [.trim()] on a
    value that has none. *)
Definition phone_ok (input : jsval) : bool :=
  match get_prop input "phone" with
  | Ok phone => negb (truthy phone) || is_string phone
  | Throw _ => false
  end.

(** The errors each block of [validateContactForm] adds. *)
Definition firstName_errors (v : jsval) : list string :=
  (check_firstName v ([], ∅)).1.
Definition lastName_errors (v : jsval) : list string :=
  (check_lastName v ([], ∅)).1.
Definition email_errors (v : jsval) : list string :=
  (check_email v ([], ∅)).1.
Definition phone_errors (v : jsval) : list string :=
  match check_phone v ([], ∅) with
  | Ok st => st.1
  | Throw _ => []
  end.
Definition message_errors (v : jsval) : list string :=
  (check_message v ([], ∅)).1.

End Reading.

(* ====================================================================== *)
(** ** Calls that return *)
(* ====================================================================== *)

(** The call returned a value rather than threw. *)
Definition returns {A} (x : result A) : bool :=
  match x with Ok _ => true | Throw _ => false end.

(** None of the characters the server escapes occurs in [s]. *)
Definition escaped (s : string) : Prop :=
  forall c, In c Samples.escaped_by_server -> JsString.occurs c s = false.

(** Every value stored so far is free of the escaped characters. *)
Definition escaped_state (st : ServerValidator.vstate) : Prop :=
  forall k s, st.2 !! k = Some s -> escaped s.

(* ====================================================================== *)
(** ** The texts the validators accept *)
(* ====================================================================== *)

(** [n] does not exceed the bound [hi], when there is one. *)
Definition below (hi : option nat) (n : nat) : Prop :=
  match hi with Some h => n <= h | None => True end.

Definition belowb (hi : option nat) (n : nat) : bool :=
  match hi with Some h => (n <=? h)%nat | None => true end.

(** An optional [+], then at least seven and at most [hi] digits, white
    space, hyphens and parentheses. *)
Definition phone_shape (hi : option nat) (t : string) : bool :=
  let body :=
    match t with
    | String c r => if Ascii.eqb "+" c then r else t
    | EmptyString => t
    end in
  JsString.sall ServerValidator.phone_char body
  && (7 <=? String.length body)%nat && belowb hi (String.length body).

(** [local@domain.rest]: three non-empty parts without white space or
    [@]; the last two may contain further dots. *)
Definition email_shape (t : string) : Prop :=
  exists l d e,
    t = (l ++ "@" ++ d ++ "." ++ e)%string
    /\ l <> "" /\ d <> "" /\ e <> ""
    /\ JsString.sall ServerValidator.not_space_at l = true
    /\ JsString.sall ServerValidator.not_space_at d = true
    /\ JsString.sall ServerValidator.not_space_at e = true.

(** The continuation of an anchored test: the input is used up. *)
Definition at_end (rest : list ascii) : option unit :=
  match rest with [] => Some tt | _ => None end.

(* ====================================================================== *)
(** ** What a computation leaves alone *)
(* ====================================================================== *)

(** [m] does not change the part [f] of the world. *)
Definition keeps {T A} (f : world -> T) (m : M A) : Prop :=
  forall w, f (m w).2 = f w.

(** The request gets as far as the limiter. *)
Definition reaches_limiter (r : request) : bool :=
  negb (String.eqb (method r) "OPTIONS")
  && String.eqb (method r) "POST"
  && includes "/api/contact" (url r)
  && negb (Worker.oversized r).

(* ====================================================================== *)
(** ** Worlds that differ in their logs *)
(* ====================================================================== *)

(** The two worlds agree on everything but the state of the log
    stores and what has been traced. *)
Definition same_but_logs (w w' : world) : Prop :=
  clock w = clock w' /\ latency w = latency w' /\ awaited w = awaited w'
  /\ rate_limit_kv w = rate_limit_kv w' /\ provider w = provider w'
  /\ sent w = sent w' /\ toLocaleString w = toLocaleString w'.

(** [m] returns the same from two such worlds, and leaves two such
    worlds. *)
Definition alike {A} (m : M A) : Prop :=
  forall w w', same_but_logs w w' ->
    (m w).1 = (m w').1 /\ same_but_logs (m w).2 (m w').2.

(** The same world with log stores that refuse every write. *)
Definition logs_down (w : world) : world :=
  {| clock := clock w; latency := latency w; awaited := awaited w;
     rate_limit_kv := rate_limit_kv w;
     log_put_throws := fun _ => true;
     provider := provider w; sent := sent w;
     toLocaleString := toLocaleString w; trace := trace w |}.

(* ====================================================================== *)
(** ** The answers of the worker, as the page reads them *)
(* ====================================================================== *)

(** The answers of the worker; a validation failure lists the errors
    of a result the validator returned as invalid. *)
Inductive answer : response -> Prop :=
| answer_preflight : answer Worker.preflight
| answer_not_found : answer Worker.not_found
| answer_too_large : answer Worker.too_large
| answer_too_many a b : answer (Worker.too_many_requests a b)
| answer_invalid_format : answer Worker.invalid_format
| answer_validation_failed now input v :
    ServerValidator.validateContactForm now input = Ok v ->
    isValid v = false ->
    answer (Worker.validation_failed (errors v))
| answer_received : answer Worker.received
| answer_sent_ok : answer Worker.sent_ok
| answer_internal_error : answer Worker.internal_error.

(** What the page shows for an answer, and why. *)
Definition page_shows (resp : response) (shown : Page.feedback) : Prop :=
  (In resp [Worker.received; Worker.sent_ok]
   /\ shown = Page.ShowSuccess Page.thanks)
  \/ ((exists a b, resp = Worker.too_many_requests a b)
      /\ shown = Page.ShowError
                   "You've sent several messages recently. Please wait a moment before trying again.")
  \/ ((exists errs, resp = Worker.validation_failed errs)
      /\ shown = Page.ShowError "Please check your information and try again.")
  \/ (In resp [Worker.preflight; Worker.not_found; Worker.too_large;
               Worker.invalid_format; Worker.internal_error]
      /\ shown = Page.ShowError Page.apology).

(* ====================================================================== *)
(** ** Trimmed texts *)
(* ====================================================================== *)

(** [t] does not start with white space. *)
Definition starts_clean (t : string) : Prop :=
  match t with
  | EmptyString => True
  | String c _ => JsString.is_space c = false
  end.

(** [t] does not end with white space. *)
Definition ends_clean (t : string) : Prop := JsString.trimEnd t = t.

(* ====================================================================== *)
(** ** The state of the page's validator *)
(* ====================================================================== *)


(** A form filled in as [Samples.ann] is. *)
Definition ann_entries : list (string * string) :=
  [("firstName", "Ann"); ("lastName", "Lee"); ("email", "ann@example.com");
   ("message", "Hello, I would like to book a call please.")].

(** A network that cannot be reached. *)
Definition offline : fields -> result response :=
  fun _ => Throw (TypeError "Failed to fetch").

(* ====================================================================== *)
(** ** The shapes of a delivery *)
(* ====================================================================== *)

(** One, two or three provider calls, with the waits between them. *)
Definition attempts_shape (steps : list delivery_step) (n : nat) : Prop :=
  (steps = [Attempt] /\ n = 1)
  \/ (steps = [Attempt; Wait 2000; Attempt] /\ n = 2)
  \/ (steps = [Attempt; Wait 2000; Attempt; Wait 4000; Attempt] /\ n = 3).

(* ====================================================================== *)
(** ** Reading a decimal numeral *)
(* ====================================================================== *)

(** The value of the decimal numeral [d] read after [acc]. *)
Fixpoint uint_value (acc : Z) (d : Decimal.uint) : Z :=
  match d with
  | Decimal.Nil => acc
  | Decimal.D0 r => uint_value (acc * 10 + 0) r
  | Decimal.D1 r => uint_value (acc * 10 + 1) r
  | Decimal.D2 r => uint_value (acc * 10 + 2) r
  | Decimal.D3 r => uint_value (acc * 10 + 3) r
  | Decimal.D4 r => uint_value (acc * 10 + 4) r
  | Decimal.D5 r => uint_value (acc * 10 + 5) r
  | Decimal.D6 r => uint_value (acc * 10 + 6) r
  | Decimal.D7 r => uint_value (acc * 10 + 7) r
  | Decimal.D8 r => uint_value (acc * 10 + 8) r
  | Decimal.D9 r => uint_value (acc * 10 + 9) r
  end.

(* ====================================================================== *)
(** * Properties *)
(* ====================================================================== *)

(** ** Strings *)

Section StringFacts.

Lemma occurs_app c a b : occurs c (a ++ b) = occurs c a || occurs c b.
Proof.
  induction a as [|d a IH]; simpl; [reflexivity|].
  rewrite IH. apply orb_assoc.
Qed.

(** A substitution removes its target, provided the replacement does
    not contain it. *)
Lemma replaceAll_removes c rep s :
  occurs c rep = false -> occurs c (replaceAll c rep s) = false.
Proof.
  intros Hrep. induction s as [|d s IH]; simpl; [reflexivity|].
  destruct (Ascii.eqb d c) eqn:E.
  - rewrite occurs_app, Hrep, IH. reflexivity.
  - simpl. rewrite IH, orb_false_r.
    rewrite Ascii.eqb_sym. exact E.
Qed.

(** A substitution does not bring back a character that is absent from
    both its input and its replacement. *)
Lemma replaceAll_keeps_absent d c rep s :
  occurs d rep = false -> occurs d s = false ->
  occurs d (replaceAll c rep s) = false.
Proof.
  intros Hrep. induction s as [|x s IH]; simpl; [reflexivity|].
  intros H. apply orb_false_iff in H as [Hx Hs].
  destruct (Ascii.eqb x c).
  - rewrite occurs_app, Hrep, (IH Hs). reflexivity.
  - simpl. rewrite Hx, (IH Hs). reflexivity.
Qed.

Lemma slice0_keeps_absent d n s :
  occurs d s = false -> occurs d (slice0 n s) = false.
Proof.
  revert n. induction s as [|x s IH]; intros [|n] H; simpl in *; try reflexivity.
  apply orb_false_iff in H as [Hx Hs]. rewrite Hx, (IH n Hs). reflexivity.
Qed.

Lemma slice0_length n s : String.length (slice0 n s) <= n.
Proof.
  revert s. induction n as [|n IH]; intros [|x s]; simpl; try lia.
  specialize (IH s). lia.
Qed.

End StringFacts.

(** ** Sanitization *)

Ltac absent_step :=
  first [ apply replaceAll_removes; reflexivity
        | apply replaceAll_keeps_absent; [reflexivity|] ].

Lemma server_sanitize_string_clean s c :
  In c escaped_by_server -> occurs c (ServerValidator.sanitize_string s) = false.
Proof.
  unfold ServerValidator.sanitize_string. intros Hc.
  apply slice0_keeps_absent.
  simpl in Hc.
  destruct Hc as [<-|[<-|[<-|[<-|[<-|[<-|[]]]]]]]; repeat absent_step.
Qed.

Lemma client_sanitize_string_clean s c :
  In c escaped_by_client -> occurs c (FormValidator.sanitize_string s) = false.
Proof.
  unfold FormValidator.sanitize_string. intros Hc.
  simpl in Hc.
  destruct Hc as [<-|[<-|[<-|[<-|[<-|[]]]]]]; repeat absent_step.
Qed.

(** C8, as the code has it.  For every string the server's
    [sanitizeInput] returns at most 10,000 characters, none of which is
    one of the six escaped characters; the client's variant returns a
    string (without a length cap) in which none of its five escaped
    characters occurs; and ["<script>"] becomes ["&lt;script&gt;"]. *)
Theorem sanitizeInput_escapes (s : string) :
  String.length (ServerValidator.sanitizeInput (VStr s)) <= 10000
  /\ (forall c, In c escaped_by_server ->
               occurs c (ServerValidator.sanitizeInput (VStr s)) = false)
  /\ (exists out, FormValidator.sanitizeInput (VStr s) = Ok out
                  /\ forall c, In c escaped_by_client -> occurs c out = false)
  /\ ServerValidator.sanitizeInput (VStr "<script>") = "&lt;script&gt;"
  /\ FormValidator.sanitizeInput (VStr "<script>") = Ok "&lt;script&gt;".
Proof.
  split; [|split; [|split; [|split]]].
  - unfold ServerValidator.sanitizeInput.
    destruct (truthy (VStr s)); [apply slice0_length | simpl; lia].
  - intros c Hc. unfold ServerValidator.sanitizeInput.
    destruct (truthy (VStr s)); [|reflexivity].
    apply server_sanitize_string_clean, Hc.
  - unfold FormValidator.sanitizeInput.
    destruct (truthy (VStr s)); simpl.
    + eexists; split; [reflexivity|].
      intros c Hc. apply client_sanitize_string_clean, Hc.
    + eexists; split; [reflexivity|]. reflexivity.
  - vm_compute. reflexivity.
  - vm_compute. reflexivity.
Qed.

Lemma sanitizeInput_escapes_witness :
  In "/"%char escaped_by_server
  /\ occurs "/" (ServerValidator.sanitizeInput (VStr "<a href='/x'>")) = false.
Proof.
  assert (Hin : In "/"%char escaped_by_server) by (simpl; tauto).
  split; [exact Hin|].
  destruct (sanitizeInput_escapes "<a href='/x'>") as (_ & H & _).
  apply H, Hin.
Defined.

(** C8 as stated fails for the client's variant: it has no [.slice], so
    10,001 letters come back as 10,001 letters. *)
Lemma client_sanitizeInput_not_capped :
  exists out,
    FormValidator.sanitizeInput (VStr (repeat_char 10001 "a")) = Ok out
    /\ ~ (String.length out <= 10000).
Proof.
  exists (repeat_char 10001 "a"). split.
  - vm_compute. reflexivity.
  - intros H. apply Nat.leb_le in H. vm_compute in H. discriminate H.
Qed.

(** ** Field validation *)

Section ValidatorFacts.

Import ServerValidator Reading.

Lemma check_firstName_errors v st :
  (check_firstName v st).1 = (st.1 ++ firstName_errors v)%list.
Proof.
  unfold firstName_errors, check_firstName, push, set_field.
  repeat (destruct (negb _)); simpl; try reflexivity.
  symmetry; apply app_nil_r.
Qed.

Lemma check_lastName_errors v st :
  (check_lastName v st).1 = (st.1 ++ lastName_errors v)%list.
Proof.
  unfold lastName_errors, check_lastName, push, set_field.
  repeat (destruct (negb _)); simpl; try reflexivity.
  symmetry; apply app_nil_r.
Qed.

Lemma check_email_errors v st :
  (check_email v st).1 = (st.1 ++ email_errors v)%list.
Proof.
  unfold email_errors, check_email, push, set_field.
  repeat (destruct (negb _)); simpl; try reflexivity.
  symmetry; apply app_nil_r.
Qed.

Lemma check_message_errors v st :
  (check_message v st).1 = (st.1 ++ message_errors v)%list.
Proof.
  unfold message_errors, check_message, push, set_field.
  repeat (destruct (negb _)); simpl; try reflexivity.
  symmetry; apply app_nil_r.
Qed.

Lemma check_phone_errors v st st' :
  check_phone v st = Ok st' -> st'.1 = (st.1 ++ phone_errors v)%list.
Proof.
  unfold phone_errors, check_phone, push, set_field.
  destruct (truthy v); simpl.
  - destruct (isValidPhone v) as [ok|e]; simpl; [|discriminate].
    destruct (negb ok); intros [= <-]; simpl; [reflexivity|].
    symmetry; apply app_nil_r.
  - intros [= <-]. simpl. symmetry; apply app_nil_r.
Qed.

(** [check_phone] throws exactly on a truthy value that is not a
    string. *)
Lemma check_phone_returns v st :
  negb (truthy v) || is_string v = true -> exists st', check_phone v st = Ok st'.
Proof.
  unfold check_phone, isValidPhone. intros H.
  destruct (truthy v) eqn:T; simpl in *; [|eauto].
  destruct v; try discriminate H. simpl.
  destruct (_ =? 0)%nat; simpl; [eauto|].
  destruct (negb _); eauto.
Qed.

Lemma check_phone_throws v st :
  truthy v = true -> is_string v = false ->
  check_phone v st = Throw (TypeError "phone.trim is not a function").
Proof.
  unfold check_phone, isValidPhone. intros -> S. simpl.
  destruct v; try discriminate S; reflexivity.
Qed.

(** [validateContactForm] on an input that has properties, unfolded
    into its five blocks. *)
Lemma validateContactForm_blocks now input v :
  validateContactForm now input = Ok v ->
  errors v =
    (firstName_errors (prop_of input "firstName")
     ++ lastName_errors (prop_of input "lastName")
     ++ email_errors (prop_of input "email")
     ++ phone_errors (prop_of input "phone")
     ++ message_errors (prop_of input "message"))%list
  /\ isValid v = (length (errors v) =? 0)%nat
  /\ exists sd,
       data v = <["source" := "website_contact_form"]>
                 (<["timestamp" := Date.toISOString now]> sd).
Proof.
  unfold validateContactForm, prop_of.
  destruct (get_prop input "firstName") as [fn|] eqn:Efn; simpl; [|discriminate].
  assert (Hall : forall name, exists x, get_prop input name = Ok x).
  { intros name. destruct input; simpl in *; try discriminate Efn; eauto. }
  destruct (Hall "lastName") as [ln ->], (Hall "email") as [em ->],
    (Hall "phone") as [ph ->], (Hall "message") as [msg ->]. simpl.
  destruct (check_phone ph _) as [st'|] eqn:Eph; simpl; [|discriminate].
  intros [= <-]. simpl.
  apply check_phone_errors in Eph.
  rewrite check_message_errors, Eph, check_email_errors,
    check_lastName_errors, check_firstName_errors. simpl.
  rewrite <- !app_assoc.
  split; [reflexivity|]. split; [reflexivity|]. eauto.
Qed.

(** On every input that has properties and a usable phone the call
    returns. *)
Lemma validateContactForm_returns now input :
  phone_ok input = true -> exists v, validateContactForm now input = Ok v.
Proof.
  unfold phone_ok, validateContactForm.
  destruct (get_prop input "phone") as [ph|] eqn:Eph; [|discriminate].
  assert (Hall : forall name, exists x, get_prop input name = Ok x).
  { intros name. destruct input; simpl in *; try discriminate Eph; eauto. }
  destruct (Hall "firstName") as [fn ->], (Hall "lastName") as [ln ->],
    (Hall "email") as [em ->], (Hall "message") as [msg ->]. simpl.
  intros H.
  destruct (check_phone_returns ph
              (check_email em (check_lastName ln (check_firstName fn ([], ∅)))) H)
    as [st' ->].
  simpl. eauto.
Qed.

(** The messages a block can add are those of its field. *)
Ltac block_messages :=
  unfold firstName_errors, lastName_errors, email_errors, message_errors,
    phone_errors, check_firstName, check_lastName, check_email,
    check_message, check_phone, push, set_field;
  intros msg;
  repeat match goal with
         | |- context [rbind ?r _] => destruct r as [[]|]; simpl
         | |- context [if ?b then _ else _] => destruct b; simpl
         end;
  intuition (subst; auto).

Lemma firstName_errors_about v msg :
  In msg (firstName_errors v) -> In msg (field_messages "firstName").
Proof. revert msg. block_messages. Qed.

Lemma lastName_errors_about v msg :
  In msg (lastName_errors v) -> In msg (field_messages "lastName").
Proof. revert msg. block_messages. Qed.

Lemma email_errors_about v msg :
  In msg (email_errors v) -> In msg (field_messages "email").
Proof. revert msg. block_messages. Qed.

Lemma phone_errors_about v msg :
  In msg (phone_errors v) -> In msg (field_messages "phone").
Proof. revert msg. block_messages. Qed.

Lemma message_errors_about v msg :
  In msg (message_errors v) -> In msg (field_messages "message").
Proof. revert msg. block_messages. Qed.

(** A block whose required check fails adds its "is required" message
    and nothing else. *)
Lemma firstName_errors_missing v :
  isRequired v = false -> firstName_errors v = [required_message "firstName"].
Proof. unfold firstName_errors, check_firstName. intros ->. reflexivity. Qed.

Lemma lastName_errors_missing v :
  isRequired v = false -> lastName_errors v = [required_message "lastName"].
Proof. unfold lastName_errors, check_lastName. intros ->. reflexivity. Qed.

Lemma email_errors_missing v :
  isRequired v = false -> email_errors v = [required_message "email"].
Proof. unfold email_errors, check_email. intros ->. reflexivity. Qed.

Lemma message_errors_missing v :
  isRequired v = false -> message_errors v = [required_message "message"].
Proof. unfold message_errors, check_message. intros ->. reflexivity. Qed.

Lemma filter_none {A} (p : A -> bool) (l : list A) :
  (forall x, In x l -> p x = false) -> List.filter p l = [].
Proof.
  induction l as [|x l IH]; simpl; intros H; [reflexivity|].
  rewrite (H x (or_introl eq_refl)). apply IH. intros y Hy. apply H. right; exact Hy.
Qed.

(** The messages of another field are not about this one. *)
Ltac other_block lemma :=
  apply filter_none; intros msg Hmsg; apply lemma in Hmsg; simpl in Hmsg;
  repeat (destruct Hmsg as [<-|Hmsg]; [reflexivity|]); destruct Hmsg.

(** What C7 says, on every input for which the call returns: a missing
    required field is reported by its "is required" message and by no
    other message about that field, whatever the other fields do, and the
    result is invalid. *)
Lemma validateContactForm_required_errors now input v field :
  validateContactForm now input = Ok v ->
  In field required_fields -> missing input field = true ->
  List.filter (about field) (errors v) = [required_message field]
  /\ isValid v = false.
Proof.
  intros Hv Hf Hm.
  destruct (validateContactForm_blocks _ _ _ Hv) as (He & Hvalid & _).
  unfold missing in Hm. apply negb_true_iff in Hm.
  assert (Hfilter : List.filter (about field) (errors v) = [required_message field]).
  { rewrite He, !List.filter_app.
    simpl in Hf. destruct Hf as [<-|[<-|[<-|[<-|[]]]]].
    - rewrite (firstName_errors_missing _ Hm).
      replace (List.filter _ (lastName_errors _)) with (@nil string)
        by (symmetry; other_block lastName_errors_about).
      replace (List.filter _ (email_errors _)) with (@nil string)
        by (symmetry; other_block email_errors_about).
      replace (List.filter _ (phone_errors _)) with (@nil string)
        by (symmetry; other_block phone_errors_about).
      replace (List.filter _ (message_errors _)) with (@nil string)
        by (symmetry; other_block message_errors_about).
      reflexivity.
    - rewrite (lastName_errors_missing _ Hm).
      replace (List.filter _ (firstName_errors _)) with (@nil string)
        by (symmetry; other_block firstName_errors_about).
      replace (List.filter _ (email_errors _)) with (@nil string)
        by (symmetry; other_block email_errors_about).
      replace (List.filter _ (phone_errors _)) with (@nil string)
        by (symmetry; other_block phone_errors_about).
      replace (List.filter _ (message_errors _)) with (@nil string)
        by (symmetry; other_block message_errors_about).
      reflexivity.
    - rewrite (email_errors_missing _ Hm).
      replace (List.filter _ (firstName_errors _)) with (@nil string)
        by (symmetry; other_block firstName_errors_about).
      replace (List.filter _ (lastName_errors _)) with (@nil string)
        by (symmetry; other_block lastName_errors_about).
      replace (List.filter _ (phone_errors _)) with (@nil string)
        by (symmetry; other_block phone_errors_about).
      replace (List.filter _ (message_errors _)) with (@nil string)
        by (symmetry; other_block message_errors_about).
      reflexivity.
    - rewrite (message_errors_missing _ Hm).
      replace (List.filter _ (firstName_errors _)) with (@nil string)
        by (symmetry; other_block firstName_errors_about).
      replace (List.filter _ (lastName_errors _)) with (@nil string)
        by (symmetry; other_block lastName_errors_about).
      replace (List.filter _ (email_errors _)) with (@nil string)
        by (symmetry; other_block email_errors_about).
      replace (List.filter _ (phone_errors _)) with (@nil string)
        by (symmetry; other_block phone_errors_about).
      reflexivity. }
  split; [exact Hfilter|].
  rewrite Hvalid. destruct (errors v); [discriminate Hfilter | reflexivity].
Qed.

(** On an object whose [phone] is truthy and not a string the call
    throws, whatever the other fields are. *)
Lemma validateContactForm_throws now fs :
  truthy (assoc "phone" fs) = true -> is_string (assoc "phone" fs) = false ->
  validateContactForm now (VObj fs) = Throw (TypeError "phone.trim is not a function").
Proof.
  intros T S. unfold validateContactForm. simpl.
  rewrite (check_phone_throws _ _ T S). reflexivity.
Qed.

(** C6 fails on the code.  A submission whose phone number is a JSON
    number makes [validateContactForm] throw a [TypeError]: [isValidPhone]
    calls [phone.trim()] before its [typeof] test. *)
Theorem validateContactForm_numeric_phone_throws (now : Z) :
  validateContactForm now ann_numeric_phone
  = Throw (TypeError "phone.trim is not a function").
Proof. apply validateContactForm_throws; reflexivity. Qed.

(** C7 fails on the code for the same reason.  With every required field
    missing and a numeric phone no result comes back, hence no
    [isValid = false] and no list of errors. *)
Theorem validateContactForm_missing_fields_numeric_phone_throws (now : Z) :
  (forall field, In field required_fields ->
                 missing only_numeric_phone field = true)
  /\ validateContactForm now only_numeric_phone
     = Throw (TypeError "phone.trim is not a function").
Proof.
  split.
  - intros field Hf. simpl in Hf.
    destruct Hf as [<-|[<-|[<-|[<-|[]]]]]; reflexivity.
  - apply validateContactForm_throws; reflexivity.
Qed.

End ValidatorFacts.

(** ** The timestamp *)

Section DateFacts.

Import Date.

Lemma string_length_app a b :
  String.length (a ++ b) = String.length a + String.length b.
Proof. induction a as [|c a IH]; simpl; [reflexivity | rewrite IH; reflexivity]. Qed.

Lemma sall_app p a b : sall p (a ++ b) = sall p a && sall p b.
Proof.
  induction a as [|c a IH]; simpl; [reflexivity|].
  rewrite IH. apply andb_assoc.
Qed.

Lemma digit_is_digit n : is_digit (digit n) = true.
Proof.
  unfold digit.
  assert (H : Z.to_nat (n mod 10) < 10).
  { pose proof (Z.mod_pos_bound n 10 ltac:(lia)). lia. }
  destruct (Z.to_nat (n mod 10)) as [|[|[|[|[|[|[|[|[|[|k]]]]]]]]]];
    try reflexivity; lia.
Qed.

Lemma pad_width w n : digits_of_width w (pad w n).
Proof.
  unfold digits_of_width. revert n.
  induction w as [|w IH]; intros n; simpl; [split; reflexivity|].
  destruct (IH (n / 10)%Z) as [Hl Hd].
  rewrite string_length_app, sall_app, Hl, Hd.
  change (String.length (String (digit n) "")) with 1.
  change (sall is_digit (String (digit n) "")) with (is_digit (digit n) && true).
  rewrite digit_is_digit. split; [lia | reflexivity].
Qed.

Lemma toISOString_shape now : iso_8601 (toISOString now).
Proof.
  unfold toISOString, iso_8601.
  destruct (civil_from_days _) as [[y m] d].
  do 7 eexists. split; [reflexivity|].
  repeat split; try apply pad_width.
  unfold year_string. destruct (_ && _).
  - left. apply pad_width.
  - right. exists (pad 6 (Z.abs y)). split; [|apply pad_width].
    destruct (y <? 0)%Z; [right | left]; reflexivity.
Qed.

End DateFacts.

Section MetadataFacts.

Import ServerValidator Reading.

(** C10.  Every result [validateContactForm] returns carries, in its
    [data], the ISO-8601 rendering of the clock as [timestamp] and the
    tag ['website_contact_form'] as [source], valid or not; and a result
    is returned for every input that has properties and whose phone is
    falsy or a string (the other inputs are those of C6). *)
Theorem validateContactForm_metadata (now : Z) (input : jsval) :
  (forall v, validateContactForm now input = Ok v ->
     data v !! "timestamp" = Some (Date.toISOString now)
     /\ iso_8601 (Date.toISOString now)
     /\ data v !! "source" = Some "website_contact_form")
  /\ (phone_ok input = true -> exists v, validateContactForm now input = Ok v).
Proof.
  split.
  - intros v Hv.
    destruct (validateContactForm_blocks _ _ _ Hv) as (_ & _ & sd & ->).
    split; [|split].
    + rewrite lookup_insert_ne by discriminate. apply lookup_insert_eq.
    + apply toISOString_shape.
    + apply lookup_insert_eq.
  - apply validateContactForm_returns.
Qed.

(** The metadata is there when every per-field check has failed. *)
Lemma validateContactForm_metadata_witness :
  phone_ok all_wrong = true
  /\ exists v, validateContactForm 1700000000000 all_wrong = Ok v
       /\ data v !! "timestamp" = Some (Date.toISOString 1700000000000)
       /\ data v !! "source" = Some "website_contact_form".
Proof.
  split; [reflexivity|].
  destruct (validateContactForm_metadata 1700000000000 all_wrong) as [Hmeta Hret].
  destruct (Hret eq_refl) as [v Hv].
  exists v. split; [exact Hv|].
  destruct (Hmeta v Hv) as (Ht & _ & Hs). split; assumption.
Defined.

Example validateContactForm_all_wrong :
  match validateContactForm 1700000000000 all_wrong with
  | Ok v => Some (isValid v, errors v, data v !! "timestamp")
  | Throw _ => None
  end
  = Some (false,
          ["First name must be at least 2 characters long";
           "Last name is required";
           "Please enter a valid email address";
           "Please enter a valid phone number";
           "Message must be at least 10 characters long"],
          Some "2023-11-14T22:13:20.000Z").
Proof. vm_compute. reflexivity. Qed.

End MetadataFacts.

(** ** Spam heuristics *)

Section SpamFacts.

Lemma upper_fixed c : is_upper c = true -> to_upper_char c = c.
Proof.
  destruct c as [[] [] [] [] [] [] [] []]; intros H;
    try discriminate H; reflexivity.
Qed.

Lemma toUpperCase_upper m : sall is_upper m = true -> toUpperCase m = m.
Proof.
  unfold toUpperCase.
  induction m as [|c m IH]; simpl; [reflexivity|].
  intros H. apply andb_true_iff in H as [Hc Hm].
  rewrite (upper_fixed c Hc), (IH Hm). reflexivity.
Qed.

(** The client's heuristic flags every message of more than 20
    characters that is made of capital letters. *)
Lemma client_detectSpam_all_caps m :
  20 < String.length m -> sall is_upper m = true ->
  SpamProtection.detectSpam (VStr m) = true.
Proof.
  intros Hlen Hup. unfold SpamProtection.detectSpam.
  assert (T : truthy (VStr m) = true) by (destruct m; [simpl in Hlen; lia | reflexivity]).
  rewrite T. cbv zeta. change (negb true) with false. cbv iota.
  rewrite (toUpperCase_upper m Hup), String.eqb_refl.
  apply Nat.ltb_lt in Hlen. rewrite Hlen.
  change (true && true) with true.
  rewrite !orb_true_r. reflexivity.
Qed.

(** Lower-casing a letter gives a character that upper-casing changes. *)
Lemma lowered_letter_moves c :
  is_alpha c = true ->
  Ascii.eqb (to_lower_char c) (to_upper_char (to_lower_char c)) = false.
Proof.
  destruct c as [[] [] [] [] [] [] [] []]; intros H;
    try discriminate H; reflexivity.
Qed.

(** On the server the all-caps test compares the lower-cased message
    with its upper-cased form: it fails as soon as there is a letter. *)
Lemma server_all_caps_test_dead m :
  has_letter m = true ->
  String.eqb (toLowerCase m) (toUpperCase (toLowerCase m)) = false.
Proof.
  unfold has_letter, toLowerCase, toUpperCase.
  induction m as [|c m IH]; simpl; [discriminate|].
  destruct (is_alpha c) eqn:A; simpl.
  - intros _. rewrite (lowered_letter_moves c A). reflexivity.
  - intros H. rewrite (IH H). destruct (Ascii.eqb _ _); reflexivity.
Qed.

(** C3 fails on the server.  [RateLimiter.detectSpam] lower-cases the
    message before every test, the all-caps one included, so a message of
    25 capital letters is not flagged; the client's
    [SpamProtection.detectSpam], which tests the message as typed, flags
    it. *)
Theorem server_detectSpam_misses_all_caps :
  String.length shout = 25
  /\ sall is_upper shout = true
  /\ RateLimiter.detectSpam {["message" := shout]} = false
  /\ SpamProtection.detectSpam (VStr shout) = true.
Proof. repeat split; vm_compute; reflexivity. Qed.

End SpamFacts.

(** ** Running the worker *)

Section MonadFacts.

Import Number ServerValidator RateLimiter EmailSender Logger Worker.

Lemma delivery_steps_app a b :
  delivery_steps (a ++ b) = (delivery_steps a ++ delivery_steps b)%list.
Proof.
  induction a as [|ev a IH]; simpl; [reflexivity|].
  destruct ev; simpl; rewrite ?IH; reflexivity.
Qed.

Lemma extends_refl w : extends w w [] 0.
Proof. unfold extends. rewrite app_nil_r. auto. Qed.

Lemma extends_trans w1 w2 w3 s1 s2 n1 n2 :
  extends w1 w2 s1 n1 -> extends w2 w3 s2 n2 ->
  extends w1 w3 (s1 ++ s2) (n1 + n2).
Proof.
  unfold extends. intros (T1 & S1 & P1) (T2 & S2 & P2).
  rewrite T2, T1, S2, S1, P2, P1, app_assoc. repeat split; lia.
Qed.

Lemma calm_ret {A} (a : A) : calm (ret a).
Proof. intros w. exists a, w. split; [reflexivity | apply extends_refl]. Qed.

Lemma calm_bind {A B} (m : M A) (k : A -> M B) :
  calm m -> (forall a, calm (k a)) -> calm (bind m k).
Proof.
  intros Hm Hk w. destruct (Hm w) as (a & w1 & E1 & X1).
  destruct (Hk a w1) as (b & w2 & E2 & X2).
  exists b, w2. unfold bind. rewrite E1, E2. split; [reflexivity|].
  apply (extends_trans _ _ _ _ _ _ _ X1 X2).
Qed.

Lemma calm_quiet {A} (m : M A) : calm m -> quiet m.
Proof. intros H w. destruct (H w) as (a & w' & -> & X). exact X. Qed.

Lemma calm_try_catch {A} (m : M A) (handler : js_error -> M A) :
  quiet m -> (forall e, calm (handler e)) -> calm (try_catch m handler).
Proof.
  intros Hm Hh w. unfold try_catch. specialize (Hm w).
  destruct (m w) as [[a|e] w1]; simpl in Hm.
  - exists a, w1. split; [reflexivity | exact Hm].
  - destruct (Hh e w1) as (b & w2 & E2 & X2).
    exists b, w2. split; [exact E2|].
    apply (extends_trans _ _ _ _ _ _ _ Hm X2).
Qed.

Lemma quiet_bind {A B} (m : M A) (k : A -> M B) :
  quiet m -> (forall a, quiet (k a)) -> quiet (bind m k).
Proof.
  intros Hm Hk w. unfold bind. specialize (Hm w).
  destruct (m w) as [[a|e] w1]; simpl in *; [|exact Hm].
  apply (extends_trans _ _ _ _ _ _ _ Hm (Hk a w1)).
Qed.

Lemma quiet_step {A} (m : M A) :
  (forall w, trace (m w).2 = trace w \/
             exists ev, trace (m w).2 = (trace w ++ [ev])%list
                        /\ delivery_steps [ev] = []) ->
  (forall w, sent (m w).2 = sent w) ->
  (forall w, provider (m w).2 = provider w) ->
  quiet m.
Proof.
  intros Ht Hs Hp w. unfold extends. rewrite Hs, Hp.
  repeat split; [|lia].
  destruct (Ht w) as [->|(ev & -> & Hev)]; [symmetry; apply app_nil_r|].
  rewrite delivery_steps_app, Hev. reflexivity.
Qed.

Lemma calm_date_now : calm date_now.
Proof. intros w. exists (clock w), w. split; [reflexivity | apply extends_refl]. Qed.

Lemma calm_console label : calm (console label).
Proof.
  intros w. eexists tt, _. split; [reflexivity|].
  unfold extends. simpl. rewrite delivery_steps_app. simpl. auto.
Qed.

Lemma quiet_kv_get key : quiet (kv_get key).
Proof.
  apply quiet_step; intros w; unfold kv_get, bind, await_io, emit; simpl;
    destruct (get_throws _); simpl;
    try (destruct (entries _ !! key) as [[c x]|]; simpl;
         try destruct (_ <? x)%Z; simpl);
    try reflexivity; right; eexists; split; reflexivity.
Qed.

Lemma quiet_kv_put key value ttl : quiet (kv_put key value ttl).
Proof.
  apply quiet_step; intros w; unfold kv_put, bind, await_io, emit; simpl;
    destruct (put_throws _); simpl;
    try reflexivity; right; eexists; split; reflexivity.
Qed.

Lemma quiet_log_put s entry ttl : quiet (log_put s entry ttl).
Proof.
  apply quiet_step; intros w; unfold log_put, bind, await_io, emit; simpl;
    destruct (log_put_throws _ _); simpl;
    try reflexivity; right; eexists; split; reflexivity.
Qed.

Lemma calm_logSubmission d e : calm (logSubmission d e).
Proof.
  unfold logSubmission.
  apply calm_bind; [apply calm_date_now|]. intros now.
  apply calm_bind; [apply calm_console|]. intros _.
  destruct (ANALYTICS_KV e); [|apply calm_ret].
  apply calm_try_catch; [apply quiet_log_put | intros; apply calm_console].
Qed.

Lemma calm_logError err ctx e : calm (logError err ctx e).
Proof.
  unfold logError.
  apply calm_bind; [apply calm_date_now|]. intros now.
  apply calm_bind; [apply calm_console|]. intros _.
  destruct (ERROR_LOGS_KV e); [|apply calm_ret].
  apply calm_try_catch; [apply quiet_log_put | intros; apply calm_console].
Qed.

(** The limiter always answers, and never calls the provider. *)
Lemma calm_checkRateLimit r e : calm (checkRateLimit r e).
Proof.
  unfold checkRateLimit. apply calm_try_catch.
  - apply quiet_bind.
    + destruct (RATE_LIMIT_KV e); [apply quiet_kv_get | apply calm_quiet, calm_ret].
    + intros c. destruct (ge _ _).
      * apply calm_quiet, calm_bind; [apply calm_date_now | intros; apply calm_ret].
      * apply quiet_bind.
        -- destruct (RATE_LIMIT_KV e); [apply quiet_kv_put | apply calm_quiet, calm_ret].
        -- intros _. apply calm_quiet, calm_bind;
             [apply calm_date_now | intros; apply calm_ret].
  - intros err. apply calm_bind; [apply calm_console|]. intros _.
    apply calm_bind; [apply calm_date_now | intros; apply calm_ret].
Qed.

Lemma calm_on_error r e err : calm (on_error r e err).
Proof.
  unfold on_error. apply calm_bind; [apply calm_logError | intros; apply calm_ret].
Qed.

End MonadFacts.

(** ** Rate limiting *)

Section RateLimitFacts.

Import Number ServerValidator RateLimiter EmailSender Logger Worker.

Lemma responds_ret P resp : P resp -> responds P (ret resp).
Proof. intros H w resp' w' [= <- _]. exact H. Qed.

Lemma responds_throw P err : responds P (throw err).
Proof. intros w resp w' [=]. Qed.

Lemma responds_bind {A} P (m : M A) (k : A -> M response) :
  (forall a, responds P (k a)) -> responds P (bind m k).
Proof.
  intros Hk w resp w'. unfold bind.
  destruct (m w) as [[a|err] w1]; [apply Hk | discriminate].
Qed.

Lemma responds_try_catch P (m : M response) handler :
  responds P m -> (forall err, responds P (handler err)) ->
  responds P (try_catch m handler).
Proof.
  intros Hm Hh w resp w'. unfold try_catch.
  destruct (m w) as [[a|err] w1] eqn:E.
  - intros [= <- <-]. apply (Hm _ _ _ E).
  - apply Hh.
Qed.

(** The answers an accepted request can get satisfy [P]. *)
Lemma submit_responds (P : response -> Prop) r e :
  P invalid_format -> (forall errs, P (validation_failed errs)) ->
  P received -> P sent_ok ->
  responds P (submit r e).
Proof.
  intros Hf Hv Hr Hs.
  unfold submit. destruct (parse r); [|apply responds_ret; exact Hf].
  apply responds_bind; intros now. apply responds_bind; intros v.
  destruct (negb (isValid v)).
  { apply responds_bind; intros. apply responds_ret, Hv. }
  destruct (detectSpam (data v)).
  { apply responds_bind; intros. apply responds_ret, Hr. }
  unfold deliver.
  destruct (RESEND_API_KEY e) as [k|].
  - destruct (String.eqb k "").
    + apply responds_bind; intros; apply responds_throw.
    + repeat (apply responds_bind; intros). apply responds_ret, Hs.
  - apply responds_bind; intros; apply responds_throw.
Qed.

Lemma submit_proceeds r e : responds proceeds (submit r e).
Proof. apply submit_responds; try intros errs; discriminate. Qed.

Lemma on_error_proceeds r e err : responds proceeds (on_error r e err).
Proof.
  unfold on_error. apply responds_bind; intros. apply responds_ret. discriminate.
Qed.

(** Every answer of the worker is one of its nine responses. *)
Lemma fetch_responds (P : response -> Prop) r e :
  P preflight -> P not_found -> P too_large ->
  (forall body_seconds header_seconds,
     P (too_many_requests body_seconds header_seconds)) ->
  P invalid_format -> (forall errs, P (validation_failed errs)) ->
  P received -> P sent_ok -> P internal_error ->
  responds P (fetch r e).
Proof.
  intros Hp Hn Hl Hm Hf Hv Hr Hs Hi. unfold fetch.
  destruct (String.eqb (method r) "OPTIONS"); [apply responds_ret, Hp|].
  destruct (_ || _); [apply responds_ret, Hn|].
  apply responds_try_catch.
  - unfold handle. destruct (oversized r); [apply responds_ret, Hl|].
    apply responds_bind; intros rl.
    destruct (negb (allowed rl)).
    + repeat (apply responds_bind; intros). apply responds_ret, Hm.
    + apply submit_responds; assumption.
  - intros err. unfold on_error.
    apply responds_bind; intros. apply responds_ret, Hi.
Qed.

(** Every answer carries the permissive cross-origin header. *)
Lemma fetch_allows_any_origin r e w resp w' :
  fetch r e w = (Ok resp, w') ->
  response_header resp "Access-Control-Allow-Origin" = Some "*".
Proof.
  apply (fetch_responds
           (fun resp => response_header resp "Access-Control-Allow-Origin"
                        = Some "*")); try intros; reflexivity.
Qed.

(** The worker always answers: no exception leaves [fetch]. *)
Lemma fetch_answers r e w : exists resp w', fetch r e w = (Ok resp, w').
Proof.
  unfold fetch.
  destruct (String.eqb (method r) "OPTIONS"); [eexists _, _; reflexivity|].
  destruct (_ || _); [eexists _, _; reflexivity|].
  unfold try_catch. destruct (handle r e w) as [[resp|err] w1].
  - eauto.
  - destruct (calm_on_error r e err w1) as (resp & w' & E & _). eauto.
Qed.

Lemma fetch_accepted r e w w1 :
  accepted r e w w1 -> fetch r e w = try_catch (submit r e) (on_error r e) w1.
Proof.
  intros (Hm & Hu & Hs & rl & Hc & Ha).
  unfold fetch. rewrite Hm, Hu. simpl.
  unfold try_catch, handle. rewrite Hs. unfold bind. rewrite Hc, Ha. reflexivity.
Qed.

Lemma accepted_extends r e w w1 : accepted r e w w1 -> extends w w1 [] 0.
Proof.
  intros (_ & _ & _ & rl & Hc & _).
  destruct (calm_checkRateLimit r e w) as (rl' & w1' & E & X).
  rewrite Hc in E. injection E as <- <-. exact X.
Qed.

(** What the limiter does when a store operation throws. *)
Lemma checkRateLimit_store_fails r e w :
  RATE_LIMIT_KV e = true -> store_fails w (rateLimitKey r) ->
  exists rl w1,
    checkRateLimit r e w = (Ok rl, w1)
    /\ allowed rl = true /\ remaining rl = Num 4
    /\ resetTime rl = (clock w1 + 60 * 60 * 1000)%Z.
Proof.
  intros Hb Hf. unfold checkRateLimit, try_catch, bind. rewrite Hb.
  unfold kv_get, bind, await_io, emit. simpl.
  destruct Hf as [Hg | (Hg & Hp & Hc)]; rewrite Hg.
  - eexists _, _. split; [reflexivity|]. repeat split.
  - unfold stored_count in Hc.
    destruct (entries (rate_limit_kv w) !! rateLimitKey r) as [[c x]|]; simpl.
    + destruct (_ <? x)%Z; simpl.
      * destruct (String.eqb c ""); simpl.
        -- unfold kv_put, bind, await_io, emit. simpl. rewrite Hp.
           eexists _, _. split; [reflexivity|]. repeat split.
        -- rewrite Hc. unfold kv_put, bind, await_io, emit. simpl. rewrite Hp.
           eexists _, _. split; [reflexivity|]. repeat split.
      * unfold kv_put, bind, await_io, emit. simpl. rewrite Hp.
        eexists _, _. split; [reflexivity|]. repeat split.
    + unfold kv_put, bind, await_io, emit. simpl. rewrite Hp.
      eexists _, _. split; [reflexivity|]. repeat split.
Qed.

(** C5.  When the namespace is bound and a store operation throws,
    [checkRateLimit] answers [allowed = true] with [remaining = 4], and
    the request is not rejected: the worker's answer is not a 429, and a
    [POST] to the form's path that is not oversized goes on to parsing
    and validation. *)
Theorem checkRateLimit_fails_open r e w :
  RATE_LIMIT_KV e = true -> store_fails w (rateLimitKey r) ->
  (exists rl w1, checkRateLimit r e w = (Ok rl, w1)
                 /\ allowed rl = true /\ remaining rl = Num 4)
  /\ (exists resp w', fetch r e w = (Ok resp, w') /\ status resp <> 429%Z)
  /\ (method r = "POST" -> includes "/api/contact" (url r) = true ->
      oversized r = false ->
      exists w1, fetch r e w = try_catch (submit r e) (on_error r e) w1).
Proof.
  intros Hb Hf.
  destruct (checkRateLimit_store_fails r e w Hb Hf) as (rl & w1 & Hc & Ha & Hr & _).
  split; [|split].
  - exists rl, w1. auto.
  - destruct (fetch_answers r e w) as (resp & w' & E).
    exists resp, w'. split; [exact E|].
    revert E. unfold fetch.
    destruct (String.eqb (method r) "OPTIONS"); [intros [= <- _]; discriminate|].
    destruct (_ || _); [intros [= <- _]; discriminate|].
    unfold try_catch at 1. unfold handle.
    destruct (oversized r).
    + intros [= <- _]. discriminate.
    + unfold bind at 1. rewrite Hc, Ha. simpl.
      destruct (submit r e w1) as [[resp'|err] w2] eqn:Es.
      * intros [= <- _]. apply (submit_proceeds r e _ _ _ Es).
      * apply on_error_proceeds.
  - intros Hm Hu Hs. exists w1. apply fetch_accepted.
    repeat split; try assumption.
    exists rl. auto.
Qed.

End RateLimitFacts.

Section RetryAfterFacts.

Import Number ServerValidator RateLimiter EmailSender Logger Worker.

Lemma logSubmission_clock d e w :
  exists w',
    logSubmission d e w = (Ok tt, w')
    /\ clock w' = (clock w + if ANALYTICS_KV e
                             then latency w (awaited w) else 0)%Z.
Proof.
  unfold logSubmission, bind, date_now, console, emit, try_catch, log_put,
    bind, await_io, emit, ret.
  destruct (ANALYTICS_KV e); simpl.
  - destruct (log_put_throws w Analytics); simpl;
      eexists; (split; [reflexivity|]); reflexivity.
  - eexists. split; [reflexivity|]. simpl. lia.
Qed.

(** C2, as the code has it.  When the counter the limiter reads has
    reached 5, [checkRateLimit] answers [allowed = false] with
    [remaining = 0] and a reset time one hour after this very check, and
    the worker answers 429 with the same number in the [Retry-After]
    header and in [retryAfter]: one hour, less the time spent logging the
    rejection, in seconds rounded up; 3600 when logging takes no time,
    whatever is left of the stored window. *)
Theorem rate_limited_retry_after r e w :
  method r = "POST" -> includes "/api/contact" (url r) = true ->
  oversized r = false ->
  RATE_LIMIT_KV e = true -> get_throws (rate_limit_kv w) = false ->
  ge (stored_count w (rateLimitKey r)) maxRequests = true ->
  let logging := if ANALYTICS_KV e then latency w (S (awaited w)) else 0%Z in
  let n := ceil_div (60 * 60 * 1000 - logging) 1000 in
  (exists rl w1, checkRateLimit r e w = (Ok rl, w1)
                 /\ allowed rl = false /\ remaining rl = Num 0
                 /\ resetTime rl = (clock w1 + 60 * 60 * 1000)%Z)
  /\ (exists resp w',
        fetch r e w = (Ok resp, w')
        /\ status resp = 429%Z
        /\ response_header resp "Retry-After" = Some (of_Z n)
        /\ body_field resp "retryAfter" = VNum n)
  /\ (logging = 0%Z -> n = 3600%Z).
Proof.
  intros Hm Hu Hs Hb Hg Hc logging n.
  assert (Hcheck : exists w1,
             checkRateLimit r e w
             = (Ok {| allowed := false; remaining := Num 0;
                      resetTime := (clock w + latency w (awaited w) + 60 * 60 * 1000)%Z |}, w1)
             /\ clock w1 = (clock w + latency w (awaited w))%Z
             /\ awaited w1 = S (awaited w) /\ latency w1 = latency w
             /\ log_put_throws w1 = log_put_throws w).
  { unfold checkRateLimit, try_catch, bind. rewrite Hb.
    unfold kv_get, bind, await_io, emit. simpl. rewrite Hg.
    unfold stored_count in Hc.
    destruct (entries (rate_limit_kv w) !! rateLimitKey r) as [[c x]|]; simpl;
      [|discriminate Hc].
    destruct (_ <? x)%Z; simpl; [|discriminate Hc].
    destruct (String.eqb c ""); [discriminate Hc|].
    rewrite Hc. eexists. split; [reflexivity|]. repeat split. }
  destruct Hcheck as (w1 & Hcheck & Hclock & Haw & Hlat & Hlog).
  split; [|split].
  - eexists _, w1. split; [exact Hcheck|]. rewrite Hclock. repeat split.
  - unfold fetch. rewrite Hm, Hu. simpl.
    unfold try_catch, handle. rewrite Hs. unfold bind at 1. rewrite Hcheck. simpl.
    destruct (logSubmission_clock
                [("status", VStr "rate_limited");
                 ("ip", nullable (header r "CF-Connecting-IP"));
                 ("userAgent", nullable (header r "User-Agent"))] e w1)
      as (w2 & Elog & Hclock2).
    unfold bind at 1. rewrite Elog. unfold bind, date_now, ret.
    assert (Hn : ceil_div (clock w + latency w (awaited w) + 60 * 60 * 1000 - clock w2) 1000 = n).
    { unfold n, logging. f_equal. rewrite Hclock2, Hclock, Haw, Hlat.
      destruct (ANALYTICS_KV e); lia. }
    rewrite Hn. exists (too_many_requests n n), w2. repeat split.
  - intros Hz. unfold n. rewrite Hz. reflexivity.
Qed.


End RetryAfterFacts.

Section RetryAfterExamples.

Import Number ServerValidator RateLimiter EmailSender Logger Worker.

Lemma rate_limited_retry_after_witness :
  ge (stored_count half_hour_left (rateLimitKey (post visitor ann)))
     maxRequests = true
  /\ exists resp w',
       fetch (post visitor ann) configured half_hour_left = (Ok resp, w')
       /\ status resp = 429%Z
       /\ response_header resp "Retry-After" = Some (of_Z 3600)
       /\ body_field resp "retryAfter" = VNum 3600.
Proof.
  split; [vm_compute; reflexivity|].
  destruct (rate_limited_retry_after (post visitor ann) configured half_hour_left)
    as (_ & H & _); try (vm_compute; reflexivity).
  exact H.
Defined.

(** C2 as stated fails: half an hour before the counter expires the
    worker announces 3600 seconds, not the 1800 that remain. *)
Lemma retry_after_is_not_the_window_remainder :
  exists resp w',
    fetch (post visitor ann) configured half_hour_left = (Ok resp, w')
    /\ status resp = 429%Z
    /\ response_header resp "Retry-After" = Some "3600"
    /\ body_field resp "retryAfter" = VNum 3600
    /\ seconds_until_reset w' "rate_limit:203.0.113.7" = Some 1800%Z
    /\ response_header resp "Retry-After"
       <> of_Z <$> seconds_until_reset w' "rate_limit:203.0.113.7".
Proof.
  eexists _, _. split; [vm_compute; reflexivity|].
  repeat split; try (vm_compute; reflexivity).
  vm_compute. discriminate.
Qed.

Lemma checkRateLimit_fails_open_witness :
  RATE_LIMIT_KV configured = true
  /\ store_fails (store_down (world_at 0 ∅ accepting))
       (rateLimitKey (post visitor ann))
  /\ exists rl w1,
       checkRateLimit (post visitor ann) configured
         (store_down (world_at 0 ∅ accepting)) = (Ok rl, w1)
       /\ allowed rl = true /\ remaining rl = Num 4.
Proof.
  split; [reflexivity|]. split; [left; reflexivity|].
  destruct (checkRateLimit_fails_open (post visitor ann) configured
              (store_down (world_at 0 ∅ accepting)))
    as (H & _); [reflexivity | left; reflexivity | exact H].
Defined.

End RetryAfterExamples.

(** ** Delivery *)

Section DeliveryFacts.

Import Number ServerValidator RateLimiter EmailSender Logger Worker Reading.

Lemma check_message_valid v st :
  (check_message v st).1 = [] ->
  (check_message v st).2 !! "message" = Some (ServerValidator.sanitizeInput v).
Proof.
  unfold check_message, push, set_field.
  repeat (destruct (negb _)); simpl; intros H;
    try (destruct (st.1); discriminate H).
  apply lookup_insert_eq.
Qed.

(** A valid result has a sanitized message. *)
Lemma valid_has_message now input v :
  validateContactForm now input = Ok v -> isValid v = true ->
  exists msg, data v !! "message" = Some msg.
Proof.
  unfold validateContactForm.
  destruct (get_prop input "firstName") as [fn|]; simpl; [|discriminate].
  destruct (get_prop input "lastName") as [ln|]; simpl; [|discriminate].
  destruct (get_prop input "email") as [em|]; simpl; [|discriminate].
  destruct (get_prop input "phone") as [ph|]; simpl; [|discriminate].
  destruct (check_phone ph _) as [st'|]; simpl; [|discriminate].
  destruct (get_prop input "message") as [msg|]; simpl; [|discriminate].
  intros [= <-]. simpl. intros Hvalid.
  apply Nat.eqb_eq in Hvalid.
  destruct ((check_message msg st').1) eqn:E; [|discriminate Hvalid].
  exists (ServerValidator.sanitizeInput msg).
  rewrite !lookup_insert_ne by discriminate.
  apply check_message_valid, E.
Qed.

Lemma submit_validated r e w1 v :
  validated r w1 v ->
  submit r e w1
  = (if detectSpam (data v) then
       run logSubmission
             [("status", VStr "spam_detected");
              ("ip", nullable (header r "CF-Connecting-IP"));
              ("email", VStr (default "undefined" (data v !! "email")))] e ;;
       ret received
     else deliver r e v) w1.
Proof.
  intros (input & Hp & Hv & Hok). unfold submit. rewrite Hp.
  unfold bind at 1, date_now. unfold bind at 1, lift. rewrite Hv, Hok.
  reflexivity.
Qed.

Lemma on_error_returns r e err w :
  exists w', on_error r e err w = (Ok internal_error, w') /\ extends w w' [] 0.
Proof.
  unfold on_error, bind.
  destruct (calm_logError err
              [("url", VStr (url r)); ("method", VStr (method r));
               ("ip", nullable (header r "CF-Connecting-IP"));
               ("userAgent", nullable (header r "User-Agent"))] e w)
    as ([] & w' & -> & X).
  exists w'. split; [reflexivity | exact X].
Qed.

Lemma createEmailContent_ok locale fd msg :
  fd !! "message" = Some msg -> exists payload, createEmailContent locale fd = Ok payload.
Proof. unfold createEmailContent. intros ->. eauto. Qed.

Ltac one_attempt :=
  unfold extends; simpl; rewrite delivery_steps_app; simpl;
  repeat split; lia.

(** A call the provider does not accept throws, after one outbound
    request. *)
Lemma send_fails fd key w msg :
  fd !! "message" = Some msg -> reply_fails (provider w (sent w)) = true ->
  exists err w',
    sendContactFormEmail fd key w = (Throw err, w') /\ extends w w' [Attempt] 1.
Proof.
  intros Hmsg Hfail.
  destruct (createEmailContent_ok (toLocaleString w) fd msg Hmsg) as [payload Hp].
  unfold sendContactFormEmail. unfold bind at 1. unfold bind at 1, lift.
  rewrite Hp. unfold sendWithResend, bind, provider_fetch, bind, await_io, emit.
  simpl. destruct (provider w (sent w)) as [m|ok|ok body]; simpl in *.
  - eexists _, _. split; [reflexivity | one_attempt].
  - eexists _, _. split; [reflexivity | one_attempt].
  - rewrite Hfail. unfold lift, throw.
    destruct (get_prop body "message");
      (eexists _, _; split; [reflexivity | one_attempt]).
Qed.

Lemma send_succeeds fd key w msg body :
  fd !! "message" = Some msg -> provider w (sent w) = Reply true body ->
  exists w',
    sendContactFormEmail fd key w = (Ok body, w') /\ extends w w' [Attempt] 1.
Proof.
  intros Hmsg Hok.
  destruct (createEmailContent_ok (toLocaleString w) fd msg Hmsg) as [payload Hp].
  unfold sendContactFormEmail. unfold bind at 1. unfold bind at 1, lift.
  rewrite Hp. unfold sendWithResend, bind, provider_fetch, bind, await_io, emit.
  simpl. rewrite Hok. simpl.
  eexists. split; [reflexivity | one_attempt].
Qed.

Lemma sleep_extends ms w :
  exists w', sleep ms w = (Ok tt, w') /\ extends w w' [Wait ms] 0.
Proof.
  unfold sleep, bind, emit. eexists. split; [reflexivity | one_attempt].
Qed.

(** A failed attempt that is not the last one: wait [2^retryCount]
    seconds, [retryCount] already incremented, and go round again. *)
Lemma retry_turn_fails fuel n e fd key w msg :
  n < maxRetries -> fd !! "message" = Some msg ->
  reply_fails (provider w (sent w)) = true ->
  exists w1,
    retry_loop (S fuel) n e fd key w = retry_loop fuel (S n) e fd key w1
    /\ extends w w1 [Attempt; Wait (2 ^ Z.of_nat (S n) * 1000)] 1.
Proof.
  intros Hn Hmsg Hfail. simpl retry_loop.
  replace (n <=? maxRetries)%nat with true by (symmetry; apply Nat.leb_le; lia).
  destruct (send_fails fd key w msg Hmsg Hfail) as (err & w' & E & X).
  unfold try_catch. rewrite E.
  replace (maxRetries <? S n)%nat with false by (symmetry; apply Nat.ltb_ge; lia).
  destruct (sleep_extends (2 ^ Z.of_nat (S n) * 1000) w') as (w1 & Es & Xs).
  unfold bind at 1. rewrite Es.
  exists w1. split; [reflexivity|].
  apply (extends_trans _ _ _ _ _ _ _ X Xs).
Qed.

(** The last failed attempt: log and rethrow, without waiting. *)
Lemma retry_last_fails fuel e fd key w msg :
  fd !! "message" = Some msg -> reply_fails (provider w (sent w)) = true ->
  exists err w',
    retry_loop (S fuel) maxRetries e fd key w = (Throw err, w')
    /\ extends w w' [Attempt] 1.
Proof.
  intros Hmsg Hfail. simpl retry_loop.
  destruct (send_fails fd key w msg Hmsg Hfail) as (err & w' & E & X).
  unfold try_catch. rewrite E.
  change (maxRetries <? S maxRetries)%nat with true. cbv iota.
  match goal with
  | |- context [logError ?a ?b ?c] =>
      destruct (calm_logError a b c w') as ([] & w2 & El & Xl)
  end.
  unfold bind. rewrite El.
  exists err, w2. split; [reflexivity|].
  apply (extends_trans _ _ _ _ _ _ _ X Xl).
Qed.

Lemma retry_turn_succeeds fuel n e fd key w msg body :
  n <= maxRetries -> fd !! "message" = Some msg ->
  provider w (sent w) = Reply true body ->
  exists w',
    retry_loop (S fuel) n e fd key w = (Ok body, w') /\ extends w w' [Attempt] 1.
Proof.
  intros Hn Hmsg Hok. simpl retry_loop.
  replace (n <=? maxRetries)%nat with true by (symmetry; apply Nat.leb_le; lia).
  destruct (send_succeeds fd key w msg body Hmsg Hok) as (w' & E & X).
  unfold try_catch. rewrite E. eauto.
Qed.

(** The loop never runs out of turns: with [retryCount = n] it needs at
    most [S maxRetries - n] of them, and more fuel changes nothing. *)
Lemma retry_loop_fuel fuel extra n e fd key w :
  maxRetries < n + fuel ->
  retry_loop (fuel + extra) n e fd key w = retry_loop fuel n e fd key w.
Proof.
  revert n w. induction fuel as [|fuel IH]; intros n w Hn.
  - destruct extra; simpl; [reflexivity|].
    replace (n <=? maxRetries)%nat with false
      by (symmetry; apply Nat.leb_gt; lia).
    reflexivity.
  - simpl. destruct (n <=? maxRetries)%nat; [|reflexivity].
    unfold try_catch.
    destruct (sendContactFormEmail fd key w) as [[a|err] w1]; [reflexivity|].
    destruct (maxRetries <? S n)%nat; [reflexivity|].
    unfold bind. destruct (sleep _ w1) as [[[]|err'] w2]; [|reflexivity].
    apply IH. lia.
Qed.

(** Two failed attempts: the third one starts 2 then 4 seconds later. *)
Lemma retry_loop_two_failures e fd key w msg :
  fd !! "message" = Some msg ->
  reply_fails (provider w (sent w)) = true ->
  reply_fails (provider w (sent w + 1)) = true ->
  exists w2,
    retry_loop (S maxRetries) 0 e fd key w = retry_loop 1 maxRetries e fd key w2
    /\ extends w w2 [Attempt; Wait 2000; Attempt; Wait 4000] 2.
Proof.
  intros Hmsg H0 H1.
  destruct (retry_turn_fails 2 0 e fd key w msg) as (w1 & E1 & X1);
    [unfold maxRetries; lia | exact Hmsg | exact H0 |].
  assert (X1' := X1). destruct X1' as (_ & S1 & P1).
  destruct (retry_turn_fails 1 1 e fd key w1 msg) as (w2 & E2 & X2);
    [unfold maxRetries; lia | exact Hmsg | rewrite P1, S1; exact H1 |].
  exists w2. split.
  - unfold maxRetries. rewrite E1, E2. reflexivity.
  - apply (extends_trans _ _ _ _ _ _ _ X1 X2).
Qed.

(** Three failed attempts exhaust the loop. *)
Lemma retry_loop_exhausts e fd key w msg :
  fd !! "message" = Some msg ->
  (forall i, i < 3 -> reply_fails (provider w (sent w + i)) = true) ->
  exists err w',
    retry_loop (S maxRetries) 0 e fd key w = (Throw err, w')
    /\ extends w w' [Attempt; Wait 2000; Attempt; Wait 4000; Attempt] 3.
Proof.
  intros Hmsg Hfail.
  destruct (retry_loop_two_failures e fd key w msg Hmsg) as (w2 & E & X).
  { rewrite <- (Nat.add_0_r (sent w)). apply Hfail. lia. }
  { apply Hfail. lia. }
  assert (X' := X). destruct X' as (_ & S2 & P2).
  destruct (retry_last_fails 0 e fd key w2 msg Hmsg) as (err & w' & E3 & X3).
  { rewrite P2, S2. apply Hfail. lia. }
  exists err, w'. split; [rewrite E; exact E3|].
  apply (extends_trans _ _ _ _ _ _ _ X X3).
Qed.

End DeliveryFacts.

(** ** The worker's answers *)

Section WorkerFacts.

Import Number ServerValidator RateLimiter EmailSender Logger Worker Reading.

(** C4.  A submission that passes validation and is flagged by the spam
    heuristic is answered 200 with [success: true], and nothing is sent:
    no provider call and no wait is added to the trace. *)
Theorem spam_is_accepted_and_dropped r e w w1 v :
  accepted r e w w1 -> validated r w1 v -> detectSpam (data v) = true ->
  exists resp w',
    fetch r e w = (Ok resp, w')
    /\ status resp = 200%Z
    /\ body_field resp "success" = VBool true
    /\ extends w w' [] 0.
Proof.
  intros Ha Hv Hspam.
  rewrite (fetch_accepted _ _ _ _ Ha).
  unfold try_catch. rewrite (submit_validated _ e _ _ Hv), Hspam.
  match goal with
  | |- context [logSubmission ?d e] =>
      destruct (calm_logSubmission d e w1) as ([] & w' & El & Xl)
  end.
  unfold bind. rewrite El.
  exists received, w'. split; [reflexivity|]. split; [reflexivity|].
  split; [reflexivity|].
  exact (extends_trans _ _ _ _ _ _ _ (accepted_extends _ _ _ _ Ha) Xl).
Qed.

(** C9.  Without [RESEND_API_KEY] a valid submission that is not spam
    is answered 500 with the fixed message of [internal_error], and
    nothing is sent. *)
Theorem missing_api_key_is_internal_error r e w w1 v :
  accepted r e w w1 -> validated r w1 v -> detectSpam (data v) = false ->
  RESEND_API_KEY e = None ->
  exists resp w',
    fetch r e w = (Ok resp, w')
    /\ status resp = 500%Z
    /\ content resp
       = BodyJson [("success", VBool false);
                   ("message", VStr "Internal server error. Please try again later.")]
    /\ extends w w' [] 0.
Proof.
  intros Ha Hv Hspam Hkey.
  rewrite (fetch_accepted _ _ _ _ Ha).
  unfold try_catch. rewrite (submit_validated _ e _ _ Hv), Hspam.
  unfold deliver. rewrite Hkey.
  match goal with
  | |- context [logError ?a ?b e] =>
      destruct (calm_logError a b e w1) as ([] & w2 & El & Xl)
  end.
  unfold bind, throw. rewrite El.
  destruct (on_error_returns r e (Error "Email service not configured") w2)
    as (w' & Eo & Xo).
  rewrite Eo. exists internal_error, w'.
  split; [reflexivity|]. split; [reflexivity|]. split; [reflexivity|].
  exact (extends_trans _ _ _ _ _ _ _
           (extends_trans _ _ _ _ _ _ _ (accepted_extends _ _ _ _ Ha) Xl) Xo).
Qed.

(** C1, as the code has it.  When the provider fails three times in a
    row the worker makes exactly three calls, waits 2 seconds before the
    second and 4 seconds before the third, and answers 500. *)
Theorem delivery_gives_up_after_three_attempts r e w w1 v k :
  accepted r e w w1 -> validated r w1 v -> detectSpam (data v) = false ->
  api_key e k ->
  (forall i, i < 3 -> reply_fails (provider w (sent w + i)) = true) ->
  exists resp w',
    fetch r e w = (Ok resp, w')
    /\ status resp = 500%Z
    /\ extends w w' [Attempt; Wait 2000; Attempt; Wait 4000; Attempt] 3.
Proof.
  intros Ha Hv Hspam (Hkey & Hne) Hfail.
  rewrite (fetch_accepted _ _ _ _ Ha).
  unfold try_catch. rewrite (submit_validated _ e _ _ Hv), Hspam.
  unfold deliver. rewrite Hkey, Hne.
  destruct Hv as (input & _ & Hval & Hok).
  destruct (valid_has_message _ _ _ Hval Hok) as (msg & Hmsg).
  pose proof (accepted_extends _ _ _ _ Ha) as Xa.
  assert (Xa' := Xa). destruct Xa' as (_ & Sa & Pa).
  destruct (retry_loop_exhausts e (data v) k w1 msg Hmsg) as (err & w2 & Er & Xr).
  { intros i Hi. rewrite Pa, Sa, Nat.add_0_r. apply Hfail, Hi. }
  unfold bind at 1. rewrite Er.
  destruct (on_error_returns r e err w2) as (w' & Eo & Xo).
  rewrite Eo. exists internal_error, w'.
  split; [reflexivity|]. split; [reflexivity|].
  pose proof (extends_trans _ _ _ _ _ _ _ (extends_trans _ _ _ _ _ _ _ Xa Xr) Xo) as X.
  simpl in X. exact X.
Qed.

(** X21.  A retry can save the submission: when the provider fails the
    first two calls and accepts the third with a JSON object, a valid
    submission that is not spam is answered 200 with [success: true]
    after three calls and waits of 2 and 4 seconds. *)
Lemma delivery_succeeds_on_third_attempt r e w w1 v k fs :
  accepted r e w w1 -> validated r w1 v -> detectSpam (data v) = false ->
  api_key e k ->
  reply_fails (provider w (sent w)) = true ->
  reply_fails (provider w (sent w + 1)) = true ->
  provider w (sent w + 2) = Reply true (VObj fs) ->
  exists resp w',
    fetch r e w = (Ok resp, w')
    /\ status resp = 200%Z
    /\ body_field resp "success" = VBool true
    /\ extends w w' [Attempt; Wait 2000; Attempt; Wait 4000; Attempt] 3.
Proof.
  intros Ha Hv Hspam (Hkey & Hne) H0 H1 H2.
  rewrite (fetch_accepted _ _ _ _ Ha).
  unfold try_catch. rewrite (submit_validated _ e _ _ Hv), Hspam.
  unfold deliver. rewrite Hkey, Hne.
  destruct Hv as (input & _ & Hval & Hok).
  destruct (valid_has_message _ _ _ Hval Hok) as (msg & Hmsg).
  pose proof (accepted_extends _ _ _ _ Ha) as Xa.
  assert (Xa' := Xa). destruct Xa' as (_ & Sa & Pa).
  rewrite Nat.add_0_r in Sa.
  destruct (retry_loop_two_failures e (data v) k w1 msg Hmsg) as (w2 & E & X);
    [rewrite Pa, Sa; assumption | rewrite Pa, Sa; assumption |].
  assert (X' := X). destruct X' as (_ & S2 & P2).
  destruct (retry_turn_succeeds 0 maxRetries e (data v) k w2 msg (VObj fs))
    as (w3 & E3 & X3);
    [lia | exact Hmsg | rewrite P2, S2, Pa, Sa; exact H2 |].
  unfold bind at 1. rewrite E, E3.
  unfold bind at 1, lift. simpl get_prop. cbv iota.
  match goal with
  | |- context [logSubmission ?d e] =>
      destruct (calm_logSubmission d e w3) as ([] & w' & El & Xl)
  end.
  unfold bind. rewrite El.
  exists sent_ok, w'. split; [reflexivity|]. split; [reflexivity|].
  split; [reflexivity|].
  pose proof (extends_trans _ _ _ _ _ _ _
                (extends_trans _ _ _ _ _ _ _
                   (extends_trans _ _ _ _ _ _ _ Xa X) X3) Xl) as Xall.
  simpl in Xall. exact Xall.
Qed.

End WorkerFacts.

Section WorkerExamples.

Import Number ServerValidator RateLimiter EmailSender Logger Worker Reading.

Lemma sample_accepted input e p :
  e = configured \/ e = unconfigured ->
  accepted (post visitor input) e (world_at 0 ∅ p)
    (limiter_world (post visitor input) e (world_at 0 ∅ p)).
Proof.
  intros He. unfold accepted.
  split; [reflexivity|]. split; [reflexivity|]. split; [reflexivity|].
  exists first_allowed. split; [|reflexivity].
  destruct He as [-> | ->]; vm_compute; reflexivity.
Qed.

Lemma sample_validated input e p :
  isValid (validation_of 0 input) = true ->
  validated (post visitor input)
    (limiter_world (post visitor input) e (world_at 0 ∅ p))
    (validation_of 0 input).
Proof.
  intros Hok. exists input. split; [reflexivity|].
  assert (Hclock : clock (limiter_world (post visitor input) e (world_at 0 ∅ p)) = 0%Z).
  { unfold limiter_world, checkRateLimit, try_catch, bind, kv_get, kv_put, bind,
      await_io, emit, date_now, ret.
    destruct (RATE_LIMIT_KV e); reflexivity. }
  rewrite Hclock. split; [|exact Hok].
  unfold validation_of in *.
  destruct (validateContactForm 0 input); [reflexivity | discriminate Hok].
Qed.

Lemma spam_is_accepted_and_dropped_witness :
  detectSpam (data (validation_of 0 casino)) = true
  /\ exists resp w',
       fetch (post visitor casino) configured (world_at 0 ∅ accepting)
       = (Ok resp, w')
       /\ status resp = 200%Z
       /\ body_field resp "success" = VBool true
       /\ extends (world_at 0 ∅ accepting) w' [] 0.
Proof.
  split; [vm_compute; reflexivity|].
  destruct (spam_is_accepted_and_dropped (post visitor casino) configured
              (world_at 0 ∅ accepting)
              (limiter_world (post visitor casino) configured
                 (world_at 0 ∅ accepting))
              (validation_of 0 casino))
    as (resp & w' & H).
  - apply sample_accepted. left; reflexivity.
  - apply sample_validated. vm_compute; reflexivity.
  - vm_compute; reflexivity.
  - exists resp, w'. exact H.
Defined.

Lemma missing_api_key_is_internal_error_witness :
  RESEND_API_KEY unconfigured = None
  /\ exists resp w',
       fetch (post visitor ann) unconfigured (world_at 0 ∅ accepting)
       = (Ok resp, w')
       /\ status resp = 500%Z
       /\ content resp
          = BodyJson [("success", VBool false);
                      ("message", VStr "Internal server error. Please try again later.")]
       /\ extends (world_at 0 ∅ accepting) w' [] 0.
Proof.
  split; [reflexivity|].
  destruct (missing_api_key_is_internal_error (post visitor ann) unconfigured
              (world_at 0 ∅ accepting)
              (limiter_world (post visitor ann) unconfigured
                 (world_at 0 ∅ accepting))
              (validation_of 0 ann))
    as (resp & w' & H).
  - apply sample_accepted. right; reflexivity.
  - apply sample_validated. vm_compute; reflexivity.
  - vm_compute; reflexivity.
  - reflexivity.
  - exists resp, w'. exact H.
Defined.

Lemma delivery_gives_up_after_three_attempts_witness :
  (forall i, i < 3 ->
     reply_fails (provider (world_at 0 ∅ rejecting)
                    (sent (world_at 0 ∅ rejecting) + i)) = true)
  /\ exists resp w',
       fetch (post visitor ann) configured (world_at 0 ∅ rejecting)
       = (Ok resp, w')
       /\ status resp = 500%Z
       /\ extends (world_at 0 ∅ rejecting) w'
            [Attempt; Wait 2000; Attempt; Wait 4000; Attempt] 3.
Proof.
  split; [intros i _; reflexivity|].
  destruct (delivery_gives_up_after_three_attempts (post visitor ann) configured
              (world_at 0 ∅ rejecting)
              (limiter_world (post visitor ann) configured
                 (world_at 0 ∅ rejecting))
              (validation_of 0 ann) "re_test")
    as (resp & w' & H).
  - apply sample_accepted. left; reflexivity.
  - apply sample_validated. vm_compute; reflexivity.
  - vm_compute; reflexivity.
  - split; reflexivity.
  - intros i _; reflexivity.
  - exists resp, w'. exact H.
Defined.

(** C1 as stated fails: against a provider that rejects every email the
    waits between the three attempts are 2 and 4 seconds, not 1 and 2. *)
Lemma backoff_is_two_then_four_seconds :
  exists resp w',
    fetch (post visitor ann) configured (world_at 0 ∅ rejecting) = (Ok resp, w')
    /\ status resp = 500%Z
    /\ delivery_steps (trace w')
       = [Attempt; Wait 2000; Attempt; Wait 4000; Attempt]
    /\ delivery_steps (trace w')
       <> [Attempt; Wait 1000; Attempt; Wait 2000; Attempt].
Proof.
  eexists _, _. split; [vm_compute; reflexivity|].
  split; [vm_compute; reflexivity|].
  split; [vm_compute; reflexivity|].
  vm_compute. discriminate.
Qed.

End WorkerExamples.

(** ** The specification's examples *)

Section Examples.

Import Number ServerValidator RateLimiter EmailSender Logger Worker Reading.

Example trim_samples :
  trim "  a b  " = "a b" /\ trim "a " = "a" /\ trim "   " = ""
  /\ includes "free money" (toLowerCase "Get FREE Money") = true
  /\ replaceAll "<" "&lt;" "a<b<" = "a&lt;b&lt;" /\ slice0 3 "abcdef" = "abc".
Proof. repeat split; reflexivity. Qed.

Example parseInt_samples :
  parseInt "5" = Num 5 /\ parseInt " 42abc" = Num 42 /\ parseInt "-7" = Num (-7)
  /\ parseInt "0x1F" = Num 31 /\ parseInt "abc" = NaN /\ parseInt "" = NaN.
Proof. repeat split; reflexivity. Qed.

Example toString_samples :
  of_Z 0 = "0" /\ of_Z 3600 = "3600" /\ of_Z (-5) = "-5"
  /\ toString (add (parseInt "4") 1) = "5".
Proof. repeat split; reflexivity. Qed.

Example toISOString_samples :
  Date.toISOString 0 = "1970-01-01T00:00:00.000Z"
  /\ Date.toISOString 951782400000 = "2000-02-29T00:00:00.000Z"
  /\ Date.toISOString (-1) = "1969-12-31T23:59:59.999Z".
Proof. repeat split; vm_compute; reflexivity. Qed.

Example regex_samples :
  isValidEmail (VStr "ann@example.com") = true
  /\ isValidEmail (VStr "bad-email") = false
  /\ isValidEmail (VStr "a@b@c.d") = false
  /\ isValidPhone (VStr "+1 (555) 123-4567") = Ok true
  /\ isValidPhone (VStr "12345") = Ok false
  /\ match_count RateLimiter.linkRegex "http://a https://b http:/c" = 2
  /\ test_repeated 10 "aaaaaaaaaaa" = true
  /\ test_repeated 10 "aaaaaaaaaa" = false.
Proof. repeat split; vm_compute; reflexivity. Qed.

(** A form with no field: one "is required" error per required field. *)
Example validateContactForm_empty_form :
  errors (validation_of 0 empty_form)
  = ["First name is required"; "Last name is required"; "Email is required";
     "Message is required"]
  /\ isValid (validation_of 0 empty_form) = false.
Proof. split; vm_compute; reflexivity. Qed.

(** "free money" is spam whatever the case; an ordinary message is not. *)
Example detectSpam_samples :
  RateLimiter.detectSpam {["message" := "Get FREE Money today"]} = true
  /\ RateLimiter.detectSpam (data (validation_of 0 ann)) = false
  /\ SpamProtection.detectSpam (VStr "Hello, I would like to book a call please.")
     = false.
Proof. repeat split; vm_compute; reflexivity. Qed.

(** A well-formed submission: 200, one outbound call, the reply goes to
    the submitter. *)
Example end_to_end_success :
  exists resp w',
    fetch (post visitor ann) configured (world_at 0 ∅ accepting) = (Ok resp, w')
    /\ status resp = 200%Z
    /\ body_field resp "success" = VBool true
    /\ delivery_steps (trace w') = [Attempt]
    /\ List.map (fun ev => match ev with
                           | EvFetch payload _ => reply_to payload
                           | _ => ""
                           end)
         (List.filter (fun ev => match ev with EvFetch _ _ => true | _ => false end)
            (trace w'))
       = ["ann@example.com"].
Proof.
  eexists _, _. split; [vm_compute; reflexivity|].
  repeat split; vm_compute; reflexivity.
Qed.

(** Three mistakes in three fields: 400 and the three errors at once. *)
Example end_to_end_validation_failed :
  exists resp w',
    fetch (post visitor three_mistakes) configured (world_at 0 ∅ accepting)
    = (Ok resp, w')
    /\ status resp = 400%Z
    /\ body_field resp "errors"
       = VArr [VStr "First name must be at least 2 characters long";
               VStr "Please enter a valid email address";
               VStr "Message must be at least 10 characters long"]
    /\ delivery_steps (trace w') = [].
Proof.
  eexists _, _. split; [vm_compute; reflexivity|].
  repeat split; vm_compute; reflexivity.
Qed.

(** Six valid requests in a row from one address: the sixth is a 429. *)
Example sixth_request_is_rejected :
  (serve (repeat (post visitor ann) 6) configured (world_at 0 ∅ accepting)).1
  = [200; 200; 200; 200; 200; 429]%Z.
Proof. vm_compute. reflexivity. Qed.

(** Preflight, another method, an oversized body. *)
Example other_requests :
  let w := world_at 0 ∅ accepting in
  let r := post visitor ann in
  let options :=
    {| method := "OPTIONS"; url := url r; request_headers := request_headers r;
       json := json r; formData := formData r |} in
  let get :=
    {| method := "GET"; url := url r; request_headers := request_headers r;
       json := json r; formData := formData r |} in
  let big :=
    {| method := "POST"; url := url r;
       request_headers := <["content-length" := "10241"]> (request_headers r);
       json := json r; formData := formData r |} in
  (serve [options; get; big] configured w).1 = [200; 404; 413]%Z.
Proof. vm_compute. reflexivity. Qed.

(** Once the counter has expired a new one starts at 1. *)
Example expired_counter_starts_again :
  let w := world_at 3600000 {[ "rate_limit:203.0.113.7" := ("5", 3600000%Z) ]} accepting in
  let '(answer, w') := checkRateLimit (post visitor ann) configured w in
  (match answer with Ok rl => Some (allowed rl, remaining rl) | Throw _ => None end,
   entries (rate_limit_kv w') !! "rate_limit:203.0.113.7")
  = (Some (true, Num 4), Some ("1", 7200000%Z)).
Proof. vm_compute. reflexivity. Qed.

End Examples.

(* ====================================================================== *)
(** * Further properties of the worker *)
(* ====================================================================== *)

Section AnswerFacts.

Import Number ServerValidator RateLimiter EmailSender Logger Worker Reading.

(** X1.  Whatever the request, the environment and the world, [fetch]
    returns a response, never an exception, and its status is one of
    200, 400, 404, 413, 429 and 500. *)
Theorem fetch_always_answers_with_a_known_status r e w :
  exists resp w',
    fetch r e w = (Ok resp, w')
    /\ In (status resp) [200; 400; 404; 413; 429; 500]%Z.
Proof.
  destruct (fetch_answers r e w) as (resp & w' & E).
  exists resp, w'. split; [exact E|].
  revert E.
  apply (fetch_responds (fun resp => In (status resp) [200; 400; 404; 413; 429; 500]%Z));
    try intros; simpl; tauto.
Qed.

(** X2.  Every response of [fetch] carries the header
    [Access-Control-Allow-Origin: *]. *)
Theorem fetch_always_allows_any_origin r e w :
  exists resp w',
    fetch r e w = (Ok resp, w')
    /\ response_header resp "Access-Control-Allow-Origin" = Some "*".
Proof.
  destruct (fetch_answers r e w) as (resp & w' & E).
  exists resp, w'. split; [exact E|].
  apply (fetch_allows_any_origin _ _ _ _ _ E).
Qed.

End AnswerFacts.

(** ** Numbers and their decimal text *)

Section NumberFacts.

Import Number.

Lemma digits_of_numeral d acc :
  digits 10 (Some acc) (NilEmpty.string_of_uint d) = Some (uint_value acc d).
Proof.
  revert acc. induction d; intros acc; simpl; try reflexivity; apply IHd.
Qed.

Lemma digits_of_numeral_start d :
  d <> Decimal.Nil ->
  digits 10 None (NilEmpty.string_of_uint d) = Some (uint_value 0 d).
Proof.
  destruct d; intros H; try (exfalso; apply H; reflexivity);
    simpl; apply digits_of_numeral.
Qed.

Lemma uint_value_revapp d d' :
  Z.of_N (Unsigned.of_lu (Decimal.revapp d d'))
  = uint_value (Z.of_N (Unsigned.of_lu d')) d.
Proof.
  revert d'. induction d; intros d'; simpl; try reflexivity;
    rewrite IHd; f_equal; simpl Unsigned.of_lu; lia.
Qed.

Lemma uint_value_to_uint p : uint_value 0 (Pos.to_uint p) = Z.pos p.
Proof.
  pose proof (Unsigned.of_to p) as H.
  rewrite Unsigned.of_uint_alt in H.
  unfold Decimal.rev in H.
  pose proof (uint_value_revapp (Pos.to_uint p) Decimal.Nil) as R.
  rewrite H in R. simpl in R. symmetry. exact R.
Qed.

(** A numeral is read in base 10, without sign or white space. *)
Lemma unsigned_of_numeral p :
  trimStart (NilEmpty.string_of_uint (Pos.to_uint p))
  = NilEmpty.string_of_uint (Pos.to_uint p)
  /\ unsigned (NilEmpty.string_of_uint (Pos.to_uint p)) = Some (Z.pos p)
  /\ (forall c r, NilEmpty.string_of_uint (Pos.to_uint p) = String c r ->
                  c <> "-"%char /\ c <> "+"%char).
Proof.
  pose proof (Unsigned.to_uint_nonnil p) as Hnil.
  pose proof (uint_value_to_uint p) as Hval.
  pose proof (digits_of_numeral_start _ Hnil) as Hdig. rewrite Hval in Hdig.
  destruct (Pos.to_uint p) as [|d|d|d|d|d|d|d|d|d|d]; try (exfalso; apply Hnil; reflexivity);
    (split; [reflexivity|]; split;
     [| intros c r [= <- _]; split; discriminate]);
    try exact Hdig.
  destruct d; exact Hdig.
Qed.

(** Reading back the text of an integer gives the integer. *)
Lemma parseInt_of_Z z : parseInt (of_Z z) = Num z.
Proof.
  unfold of_Z. destruct z as [|p|p]; [reflexivity| |].
  - simpl Z.to_int. unfold NilZero.string_of_int, NilZero.string_of_uint.
    pose proof (Unsigned.to_uint_nonnil p) as Hnil.
    destruct (unsigned_of_numeral p) as (Ht & Hu & Hs).
    destruct (Pos.to_uint p) eqn:E; try (exfalso; apply Hnil; reflexivity);
      unfold parseInt; rewrite Ht;
      match goal with
      | |- context [NilEmpty.string_of_uint ?d] =>
          change (NilEmpty.string_of_uint d) with
            (NilEmpty.string_of_uint d) in *
      end;
      simpl NilEmpty.string_of_uint in *; cbv iota beta; rewrite Hu;
      f_equal; lia.
  - simpl Z.to_int. unfold NilZero.string_of_int.
    pose proof (Unsigned.to_uint_nonnil p) as Hnil.
    destruct (unsigned_of_numeral p) as (Ht & Hu & Hs).
    assert (Hstr : NilZero.string_of_uint (Pos.to_uint p)
                   = NilEmpty.string_of_uint (Pos.to_uint p)).
    { unfold NilZero.string_of_uint.
      destruct (Pos.to_uint p); try reflexivity. exfalso; apply Hnil; reflexivity. }
    rewrite Hstr. unfold parseInt.
    change (trimStart (String "-" ?s)) with (String "-" s).
    simpl trimStart. cbv iota beta. rewrite Hu. f_equal.
Qed.

End NumberFacts.

(** ** Counting requests *)

Section CounterFacts.

Import Number ServerValidator RateLimiter EmailSender Logger Worker.

Lemma of_Z_not_empty z : String.eqb (of_Z z) "" = false.
Proof.
  destruct (String.eqb (of_Z z) "") eqn:E; [|reflexivity].
  apply String.eqb_eq in E. pose proof (parseInt_of_Z z) as H.
  rewrite E in H. discriminate H.
Qed.




End CounterFacts.

(** ** What the worker leaves alone *)

Section FrameFacts.

Import Number ServerValidator RateLimiter EmailSender Logger Worker.

Context {T : Type} (f : world -> T).
Hypothesis f_clock : forall t w, f (with_clock t w) = f w.
Hypothesis f_awaited : forall n w, f (with_awaited n w) = f w.
Hypothesis f_sent : forall n w, f (with_sent n w) = f w.
Hypothesis f_trace : forall t w, f (with_trace t w) = f w.

Lemma keeps_ret {A} (a : A) : keeps f (ret a).
Proof. intros w. reflexivity. Qed.

Lemma keeps_throw {A} err : keeps f (@throw A err).
Proof. intros w. reflexivity. Qed.

Lemma keeps_lift {A} (x : result A) : keeps f (lift x).
Proof. intros w. reflexivity. Qed.

Lemma keeps_bind {A B} (m : M A) (k : A -> M B) :
  keeps f m -> (forall a, keeps f (k a)) -> keeps f (bind m k).
Proof.
  intros Hm Hk w. unfold bind. specialize (Hm w).
  destruct (m w) as [[a|err] w1]; simpl in *; [|exact Hm].
  rewrite (Hk a w1). exact Hm.
Qed.

Lemma keeps_try_catch {A} (m : M A) handler :
  keeps f m -> (forall err, keeps f (handler err)) -> keeps f (try_catch m handler).
Proof.
  intros Hm Hh w. unfold try_catch. specialize (Hm w).
  destruct (m w) as [[a|err] w1]; simpl in *; [exact Hm|].
  rewrite (Hh err w1). exact Hm.
Qed.

Lemma keeps_date_now : keeps f date_now.
Proof. intros w. reflexivity. Qed.

Lemma keeps_emit ev : keeps f (emit ev).
Proof. intros w. apply f_trace. Qed.

Lemma keeps_await_io : keeps f await_io.
Proof. intros w. simpl. rewrite f_awaited. apply f_clock. Qed.

Lemma keeps_sleep ms : keeps f (sleep ms).
Proof. intros w. unfold sleep, bind, emit. simpl. rewrite f_clock. apply f_trace. Qed.

Lemma keeps_log_put s entry ttl : keeps f (log_put s entry ttl).
Proof.
  unfold log_put. apply keeps_bind; [apply keeps_await_io|]. intros _.
  apply keeps_bind; [apply keeps_emit|]. intros _ w.
  destruct (log_put_throws w s); reflexivity.
Qed.

Lemma keeps_kv_get key : keeps f (kv_get key).
Proof.
  unfold kv_get. apply keeps_bind; [apply keeps_await_io|]. intros _.
  apply keeps_bind; [apply keeps_emit|]. intros _ w.
  destruct (get_throws _); [reflexivity|].
  destruct (entries _ !! key) as [[c x]|]; [|reflexivity].
  destruct (_ <? x)%Z; reflexivity.
Qed.

Lemma keeps_provider_fetch payload key : keeps f (provider_fetch payload key).
Proof.
  unfold provider_fetch. apply keeps_bind; [apply keeps_await_io|]. intros _.
  apply keeps_bind; [apply keeps_emit|]. intros _ w. apply f_sent.
Qed.

Lemma keeps_logSubmission d e : keeps f (logSubmission d e).
Proof.
  unfold logSubmission. apply keeps_bind; [apply keeps_date_now|]. intros now.
  apply keeps_bind; [apply keeps_emit|]. intros _.
  destruct (ANALYTICS_KV e); [|apply keeps_ret].
  apply keeps_try_catch; [apply keeps_log_put | intros; apply keeps_emit].
Qed.

Lemma keeps_logError err ctx e : keeps f (logError err ctx e).
Proof.
  unfold logError. apply keeps_bind; [apply keeps_date_now|]. intros now.
  apply keeps_bind; [apply keeps_emit|]. intros _.
  destruct (ERROR_LOGS_KV e); [|apply keeps_ret].
  apply keeps_try_catch; [apply keeps_log_put | intros; apply keeps_emit].
Qed.

Lemma keeps_sendContactFormEmail fd key : keeps f (sendContactFormEmail fd key).
Proof.
  unfold sendContactFormEmail.
  apply keeps_bind; [intros w; reflexivity|]. intros locale.
  apply keeps_bind; [apply keeps_lift|]. intros payload.
  unfold sendWithResend. apply keeps_bind; [apply keeps_provider_fetch|].
  intros [m|ok|ok body]; try apply keeps_throw.
  destruct (negb ok); [|apply keeps_ret].
  apply keeps_bind; [apply keeps_lift | intros; apply keeps_throw].
Qed.

Lemma keeps_retry_loop fuel n e fd key : keeps f (retry_loop fuel n e fd key).
Proof.
  revert n. induction fuel as [|fuel IH]; intros n; simpl; [apply keeps_ret|].
  destruct (n <=? maxRetries)%nat; [|apply keeps_ret].
  apply keeps_try_catch; [apply keeps_sendContactFormEmail|]. intros err.
  destruct (maxRetries <? S n)%nat.
  - apply keeps_bind; [apply keeps_logError | intros; apply keeps_throw].
  - apply keeps_bind; [apply keeps_sleep | intros; apply IH].
Qed.

Lemma keeps_deliver r e v : keeps f (deliver r e v).
Proof.
  unfold deliver. destruct (RESEND_API_KEY e) as [k|].
  - destruct (String.eqb k "").
    + apply keeps_bind; [apply keeps_logError | intros; apply keeps_throw].
    + apply keeps_bind; [apply keeps_retry_loop|]. intros res.
      apply keeps_bind; [apply keeps_lift|]. intros id.
      apply keeps_bind; [apply keeps_logSubmission | intros; apply keeps_ret].
  - apply keeps_bind; [apply keeps_logError | intros; apply keeps_throw].
Qed.

Lemma keeps_submit r e : keeps f (submit r e).
Proof.
  unfold submit. destruct (parse r); [|apply keeps_ret].
  apply keeps_bind; [apply keeps_date_now|]. intros now.
  apply keeps_bind; [apply keeps_lift|]. intros v.
  destruct (negb (isValid v)).
  { apply keeps_bind; [apply keeps_logSubmission | intros; apply keeps_ret]. }
  destruct (detectSpam (data v)).
  { apply keeps_bind; [apply keeps_logSubmission | intros; apply keeps_ret]. }
  apply keeps_deliver.
Qed.

Lemma keeps_on_error r e err : keeps f (on_error r e err).
Proof.
  unfold on_error. apply keeps_bind; [apply keeps_logError | intros; apply keeps_ret].
Qed.

(** After the limiter, nothing changes [f] any more. *)
Lemma keeps_after_limiter r e w :
  f (fetch r e w).2
  = if reaches_limiter r then f (try_catch (handle r e) (on_error r e) w).2
    else f w.
Proof.
  unfold fetch, reaches_limiter.
  destruct (String.eqb (method r) "OPTIONS"); [reflexivity|].
  destruct (String.eqb (method r) "POST"); [|reflexivity].
  destruct (includes "/api/contact" (url r)); [|reflexivity].
  simpl. unfold try_catch at 2. unfold handle.
  destruct (oversized r); reflexivity.
Qed.

Lemma keeps_handle_after r e w :
  oversized r = false ->
  f (try_catch (handle r e) (on_error r e) w).2 = f (checkRateLimit r e w).2.
Proof.
  intros Hs. unfold try_catch, handle. rewrite Hs. unfold bind at 1.
  destruct (checkRateLimit r e w) as [[rl|err] w1]; simpl;
    [|apply keeps_on_error].
  match goal with
  | |- context [(if negb (allowed rl) then ?a else ?b) w1] =>
      assert (Hrest : keeps f (if negb (allowed rl) then a else b))
  end.
  { destruct (negb (allowed rl)); [|apply keeps_submit].
    apply keeps_bind; [apply keeps_logSubmission|]. intros _.
    apply keeps_bind; [apply keeps_date_now|]. intros bodyNow.
    apply keeps_bind; [apply keeps_date_now|]. intros headerNow.
    apply keeps_ret. }
  specialize (Hrest w1).
  match goal with
  | |- context [(if negb (allowed rl) then ?a else ?b) w1] =>
      destruct ((if negb (allowed rl) then a else b) w1) as [[resp|err] w2]
  end; simpl in *; [exact Hrest|].
  rewrite (keeps_on_error r e err w2). exact Hrest.
Qed.

End FrameFacts.

(** ** Delivery, whatever the provider does *)

Section BoundedDelivery.

Import Number ServerValidator RateLimiter EmailSender Logger Worker Reading.

Lemma extends_quiet_r w w1 w2 steps n :
  extends w w1 steps n -> extends w1 w2 [] 0 -> extends w w2 steps n.
Proof.
  intros X Y. pose proof (extends_trans _ _ _ _ _ _ _ X Y) as H.
  rewrite app_nil_r, Nat.add_0_r in H. exact H.
Qed.

Lemma extends_quiet_l w w1 w2 steps n :
  extends w w1 [] 0 -> extends w1 w2 steps n -> extends w w2 steps n.
Proof.
  intros X Y. exact (extends_trans _ _ _ _ _ _ _ X Y).
Qed.

Lemma reply_accepted p : reply_fails p = false -> exists body, p = Reply true body.
Proof.
  destruct p as [m|ok|ok body]; simpl; try discriminate.
  destruct ok; [eauto | discriminate].
Qed.

(** The loop ends after one, two or three calls. *)
Lemma retry_loop_outcome e fd key w msg :
  fd !! "message" = Some msg ->
  exists res w' steps n,
    retry_loop (S maxRetries) 0 e fd key w = (res, w')
    /\ extends w w' steps n /\ attempts_shape steps n.
Proof.
  intros Hmsg. unfold attempts_shape.
  destruct (reply_fails (provider w (sent w))) eqn:F0.
  2:{ destruct (reply_accepted _ F0) as [body Hb].
      destruct (retry_turn_succeeds maxRetries 0 e fd key w msg body)
        as (w' & E & X); [lia | exact Hmsg | exact Hb |].
      exists (Ok body), w', [Attempt], 1. auto. }
  destruct (retry_turn_fails maxRetries 0 e fd key w msg) as (w1 & E1 & X1);
    [unfold maxRetries; lia | exact Hmsg | exact F0 |].
  destruct (reply_fails (provider w1 (sent w1))) eqn:F1.
  2:{ destruct (reply_accepted _ F1) as [body Hb].
      destruct (retry_turn_succeeds 1 1 e fd key w1 msg body)
        as (w' & E & X); [unfold maxRetries; lia | exact Hmsg | exact Hb |].
      exists (Ok body), w', [Attempt; Wait 2000; Attempt], 2.
      split; [exact (eq_trans E1 E)|].
      split; [exact (extends_trans _ _ _ _ _ _ _ X1 X) | auto]. }
  destruct (retry_turn_fails 1 1 e fd key w1 msg) as (w2 & E2 & X2);
    [unfold maxRetries; lia | exact Hmsg | exact F1 |].
  pose proof (extends_trans _ _ _ _ _ _ _ X1 X2) as X12.
  destruct (reply_fails (provider w2 (sent w2))) eqn:F2.
  - destruct (retry_last_fails 0 e fd key w2 msg Hmsg F2) as (err & w' & E & X).
    exists (Throw err), w', [Attempt; Wait 2000; Attempt; Wait 4000; Attempt], 3.
    split; [exact (eq_trans E1 (eq_trans E2 E))|].
    split; [exact (extends_trans _ _ _ _ _ _ _ X12 X) | auto].
  - destruct (reply_accepted _ F2) as [body Hb].
    destruct (retry_turn_succeeds 0 maxRetries e fd key w2 msg body)
      as (w' & E & X); [lia | exact Hmsg | exact Hb |].
    exists (Ok body), w', [Attempt; Wait 2000; Attempt; Wait 4000; Attempt], 3.
    split; [exact (eq_trans E1 (eq_trans E2 E))|].
    split; [exact (extends_trans _ _ _ _ _ _ _ X12 X) | auto].
Qed.

Lemma submit_outcome r e w :
  exists resp w' steps n,
    try_catch (submit r e) (on_error r e) w = (Ok resp, w')
    /\ extends w w' steps n
    /\ ((steps = [] /\ n = 0)
        \/ (attempts_shape steps n /\ (resp = sent_ok \/ resp = internal_error))).
Proof.
  unfold try_catch, submit.
  destruct (parse r) as [input|].
  2:{ exists invalid_format, w, [], 0.
      split; [reflexivity|]. split; [apply extends_refl | auto]. }
  unfold bind at 1, date_now. unfold bind at 1, lift.
  destruct (validateContactForm (clock w) input) as [v|err] eqn:Ev.
  2:{ destruct (on_error_returns r e err w) as (w' & Eo & Xo).
      exists internal_error, w', [], 0. auto. }
  destruct (isValid v) eqn:Hok; cbn [negb].
  2:{ match goal with
      | |- context [logSubmission ?d e] =>
          destruct (calm_logSubmission d e w) as ([] & w' & El & Xl)
      end.
      unfold bind. rewrite El.
      eexists _, w', [], 0. split; [reflexivity|]. auto. }
  destruct (detectSpam (data v)).
  { match goal with
    | |- context [logSubmission ?d e] =>
        destruct (calm_logSubmission d e w) as ([] & w' & El & Xl)
    end.
    unfold bind. rewrite El.
    eexists _, w', [], 0. split; [reflexivity|]. auto. }
  assert (Hnokey :
    exists resp w',
      (let (r0, w'0) :=
         (run logError (Error "Email service not configured")
                [("type", VStr "configuration_error")] e ;;
          throw (Error "Email service not configured")) w in
       match r0 with
       | Ok a => (Ok a, w'0)
       | Throw e0 => on_error r e e0 w'0
       end) = (Ok resp, w') /\ extends w w' [] 0).
  { destruct (calm_logError (Error "Email service not configured")
                [("type", VStr "configuration_error")] e w)
      as ([] & w1 & El & Xl).
    unfold bind, throw. rewrite El.
    destruct (on_error_returns r e (Error "Email service not configured") w1)
      as (w' & Eo & Xo).
    exists internal_error, w'. split; [exact Eo|].
    exact (extends_quiet_l _ _ _ _ _ Xl Xo). }
  unfold deliver. destruct (RESEND_API_KEY e) as [k|].
  2:{ destruct Hnokey as (resp & w' & E & X).
      exists resp, w', [], 0. auto. }
  destruct (String.eqb k "").
  { destruct Hnokey as (resp & w' & E & X).
    exists resp, w', [], 0. auto. }
  destruct (valid_has_message _ _ _ Ev Hok) as (msg & Hmsg).
  destruct (retry_loop_outcome e (data v) k w msg Hmsg)
    as (res & w1 & steps & n & Er & Xr & Sh).
  unfold bind at 1. rewrite Er.
  destruct res as [body|err].
  2:{ destruct (on_error_returns r e err w1) as (w' & Eo & Xo).
      exists internal_error, w', steps, n. split; [exact Eo|].
      split; [exact (extends_quiet_r _ _ _ _ _ Xr Xo) | auto]. }
  unfold bind at 1, lift.
  destruct (get_prop body "id") as [id|err].
  2:{ destruct (on_error_returns r e err w1) as (w' & Eo & Xo).
      exists internal_error, w', steps, n. split; [exact Eo|].
      split; [exact (extends_quiet_r _ _ _ _ _ Xr Xo) | auto]. }
  match goal with
  | |- context [logSubmission ?d e] =>
      destruct (calm_logSubmission d e w1) as ([] & w' & El & Xl)
  end.
  unfold bind. rewrite El.
  exists sent_ok, w', steps, n. split; [reflexivity|].
  split; [exact (extends_quiet_r _ _ _ _ _ Xr Xl) | auto].
Qed.

(** X4.  Whatever the request and whatever the provider answers, one
    invocation of [fetch] makes no provider call at all, or one, two or
    three of them with waits of 2 then 4 seconds in between, and it makes
    some only when it ends with "Message sent successfully" or with the
    500 response. *)
Theorem fetch_makes_at_most_three_calls r e w :
  exists resp w' steps n,
    fetch r e w = (Ok resp, w')
    /\ extends w w' steps n
    /\ ((steps = [] /\ n = 0)
        \/ (attempts_shape steps n /\ (resp = sent_ok \/ resp = internal_error))).
Proof.
  unfold fetch.
  destruct (String.eqb (method r) "OPTIONS").
  { exists preflight, w, [], 0. split; [reflexivity|].
    split; [apply extends_refl | auto]. }
  destruct (_ || _).
  { exists not_found, w, [], 0. split; [reflexivity|].
    split; [apply extends_refl | auto]. }
  unfold try_catch, handle.
  destruct (oversized r).
  { exists too_large, w, [], 0. split; [reflexivity|].
    split; [apply extends_refl | auto]. }
  destruct (calm_checkRateLimit r e w) as (rl & w1 & Ec & Xc).
  unfold bind at 1. rewrite Ec.
  destruct (allowed rl); cbn [negb].
  - destruct (submit_outcome r e w1) as (resp & w' & steps & n & E & X & Sh).
    unfold try_catch in E.
    exists resp, w', steps, n. split; [exact E|].
    split; [exact (extends_quiet_l _ _ _ _ _ Xc X) | exact Sh].
  - match goal with
    | |- context [logSubmission ?d e] =>
        destruct (calm_logSubmission d e w1) as ([] & w' & El & Xl)
    end.
    unfold bind at 1. rewrite El. unfold bind, date_now, ret.
    eexists _, w', [], 0. split; [reflexivity|].
    split; [exact (extends_quiet_l _ _ _ _ _ Xc Xl) | auto].
Qed.

End BoundedDelivery.

(** ** Who writes the counters *)

Section QuotaFacts.

Import Number ServerValidator RateLimiter EmailSender Logger Worker.

Lemma reaches_limiter_not_oversized r :
  reaches_limiter r = true -> oversized r = false.
Proof.
  unfold reaches_limiter. destruct (oversized r); [|reflexivity].
  rewrite andb_false_r. discriminate.
Qed.

Lemma fetch_store r e w :
  rate_limit_kv (fetch r e w).2
  = if reaches_limiter r then rate_limit_kv (checkRateLimit r e w).2
    else rate_limit_kv w.
Proof.
  rewrite (keeps_after_limiter rate_limit_kv) by reflexivity.
  destruct (reaches_limiter r) eqn:Hr; [|reflexivity].
  apply (keeps_handle_after rate_limit_kv); try reflexivity.
  apply reaches_limiter_not_oversized, Hr.
Qed.

(** X5.  The counter store after one invocation of [fetch] is the one the
    limiter left: validation, the spam filter, the logs, delivery and the
    outer [catch] never write it, and a request that is answered before
    the limiter runs ([OPTIONS], another method or path, a declared body
    over 10 KB) leaves it as it was. *)
Theorem only_the_limiter_writes_the_counters r e w :
  rate_limit_kv (fetch r e w).2
  = if reaches_limiter r then rate_limit_kv (checkRateLimit r e w).2
    else rate_limit_kv w.
Proof. apply fetch_store. Qed.



(** A request over the limit is answered without a write. *)
Lemma checkRateLimit_rejects_without_writing r e w :
  RATE_LIMIT_KV e = true -> get_throws (rate_limit_kv w) = false ->
  ge (stored_count w (rateLimitKey r)) maxRequests = true ->
  rate_limit_kv (checkRateLimit r e w).2 = rate_limit_kv w.
Proof.
  intros Hb Hg Hc.
  unfold checkRateLimit, try_catch, bind. rewrite Hb.
  unfold kv_get, bind, await_io, emit. simpl. rewrite Hg.
  unfold stored_count in Hc.
  destruct (entries (rate_limit_kv w) !! rateLimitKey r) as [[c x]|]; simpl;
    [|discriminate Hc].
  destruct (_ <? x)%Z; simpl; [|discriminate Hc].
  destruct (String.eqb c ""); [discriminate Hc|].
  rewrite Hc. reflexivity.
Qed.

(** X7.  A request that finds the count at five or more is not counted:
    the stored counter and its expiry are exactly what they were, so
    asking again while blocked does not push the end of the block
    further away. *)
Theorem a_rejected_request_is_not_counted r e w :
  RATE_LIMIT_KV e = true -> get_throws (rate_limit_kv w) = false ->
  ge (stored_count w (rateLimitKey r)) maxRequests = true ->
  rate_limit_kv (fetch r e w).2 = rate_limit_kv w.
Proof.
  intros Hb Hg Hc. rewrite fetch_store.
  destruct (reaches_limiter r); [|reflexivity].
  apply checkRateLimit_rejects_without_writing; assumption.
Qed.

Lemma a_rejected_request_is_not_counted_witness :
  ge (stored_count half_hour_left (rateLimitKey (post visitor ann))) maxRequests
  = true
  /\ rate_limit_kv (fetch (post visitor ann) configured half_hour_left).2
     = rate_limit_kv half_hour_left.
Proof.
  split; [vm_compute; reflexivity|].
  apply (a_rejected_request_is_not_counted (post visitor ann) configured
           half_hour_left); vm_compute; reflexivity.
Defined.

(** X8.  Without the namespace binding the limiter lets every request
    in with [remaining = 4] and touches nothing but the clock it reads,
    and no request is ever answered 429. *)
Theorem unbound_limiter_allows_everything r e w :
  RATE_LIMIT_KV e = false ->
  checkRateLimit r e w
  = (Ok {| allowed := true; remaining := Num 4;
           resetTime := (clock w + 60 * 60 * 1000)%Z |}, w)
  /\ exists resp w', fetch r e w = (Ok resp, w') /\ status resp <> 429%Z.
Proof.
  intros Hb.
  assert (Hc : checkRateLimit r e w
               = (Ok {| allowed := true; remaining := Num 4;
                        resetTime := (clock w + 60 * 60 * 1000)%Z |}, w)).
  { unfold checkRateLimit. rewrite Hb. reflexivity. }
  split; [exact Hc|].
  unfold fetch.
  destruct (String.eqb (method r) "OPTIONS").
  { eexists _, _. split; [reflexivity|]. discriminate. }
  destruct (_ || _).
  { eexists _, _. split; [reflexivity|]. discriminate. }
  unfold try_catch at 1. unfold handle.
  destruct (oversized r).
  { eexists _, _. split; [reflexivity|]. discriminate. }
  unfold bind at 1. rewrite Hc. cbn [allowed negb].
  destruct (submit_outcome r e w) as (resp & w' & steps & n & E & _).
  exists resp, w'. split; [exact E|].
  refine (responds_try_catch proceeds _ _ _ _ w resp w' E).
  - apply submit_proceeds.
  - intros err. apply on_error_proceeds.
Qed.

Lemma unbound_limiter_allows_everything_witness :
  RATE_LIMIT_KV bare = false
  /\ exists resp w',
       fetch (post visitor ann) bare half_hour_left = (Ok resp, w')
       /\ status resp <> 429%Z.
Proof.
  split; [reflexivity|].
  exact (proj2 (unbound_limiter_allows_everything (post visitor ann) bare
                  half_hour_left eq_refl)).
Defined.

End QuotaFacts.

(** ** What a validation result holds *)

Section ResultFacts.

Import JsString ServerValidator Reading.

Lemma validateContactForm_stops now input :
  phone_ok input = false -> returns (validateContactForm now input) = false.
Proof.
  unfold phone_ok, validateContactForm. intros H.
  destruct input as [| |b|n|s|items|fs]; simpl in *; try discriminate H;
    try reflexivity.
  apply orb_false_iff in H as [T S]. apply negb_false_iff in T.
  rewrite (check_phone_throws _ _ T S). reflexivity.
Qed.

(** X9.  [validateContactForm] returns a result exactly on the inputs
    that have properties and whose [phone] is falsy or a string; on all
    others it throws.  The other four fields may be of any type. *)
Theorem validateContactForm_returns_exactly now input :
  returns (validateContactForm now input) = phone_ok input.
Proof.
  destruct (phone_ok input) eqn:H.
  - destruct (validateContactForm_returns now input H) as [v ->]. reflexivity.
  - apply validateContactForm_stops, H.
Qed.

(** *** No raw character in the sanitized data *)

Lemma escaped_empty : escaped "".
Proof. intros c _. reflexivity. Qed.

Lemma escaped_sanitizeInput v : escaped (sanitizeInput v).
Proof.
  intros c Hc. unfold sanitizeInput.
  destruct v; try reflexivity.
  destruct (truthy _); [|reflexivity].
  apply server_sanitize_string_clean, Hc.
Qed.

Lemma lower_keeps_escaped c d :
  In c escaped_by_server -> Ascii.eqb c (to_lower_char d) = Ascii.eqb c d.
Proof.
  intros Hc. simpl in Hc.
  destruct Hc as [<-|[<-|[<-|[<-|[<-|[<-|[]]]]]]];
    destruct d as [[] [] [] [] [] [] [] []]; reflexivity.
Qed.

Lemma escaped_toLowerCase s : escaped s -> escaped (toLowerCase s).
Proof.
  intros H c Hc. specialize (H c Hc). unfold toLowerCase.
  induction s as [|d s IH]; simpl in *; [reflexivity|].
  apply orb_false_iff in H as [Hd Hs].
  rewrite (lower_keeps_escaped c d Hc), Hd. apply IH, Hs.
Qed.

Lemma escaped_app a b : escaped a -> escaped b -> escaped (a ++ b).
Proof.
  intros Ha Hb c Hc. rewrite occurs_app, (Ha c Hc), (Hb c Hc). reflexivity.
Qed.

Lemma escaped_digits s : sall is_digit s = true -> escaped s.
Proof.
  intros H c Hc. induction s as [|d s IH]; simpl in *; [reflexivity|].
  apply andb_true_iff in H as [Hd Hs]. rewrite (IH Hs), orb_false_r.
  destruct (Ascii.eqb_spec c d) as [<-|]; [|reflexivity].
  simpl in Hc.
  destruct Hc as [<-|[<-|[<-|[<-|[<-|[<-|[]]]]]]]; discriminate Hd.
Qed.

Lemma escaped_toISOString now : escaped (Date.toISOString now).
Proof.
  destruct (toISOString_shape now)
    as (Y & M & D & h & m & sec & ms & -> & HY & HM & HD & Hh & Hm & Hs & Hms).
  assert (Hpunct : forall t, In t ["-"; "T"; ":"; "."; "Z"; "+"] -> escaped t).
  { intros t Ht c Hc. simpl in Ht, Hc.
    destruct Hc as [<-|[<-|[<-|[<-|[<-|[<-|[]]]]]]];
      destruct Ht as [<-|[<-|[<-|[<-|[<-|[<-|[]]]]]]]; reflexivity. }
  assert (HYe : escaped Y).
  { destruct HY as [HY|(Y' & [->| ->] & HY')].
    - apply escaped_digits, HY.
    - apply escaped_app; [apply Hpunct; simpl; tauto | apply escaped_digits, HY'].
    - apply escaped_app; [apply Hpunct; simpl; tauto | apply escaped_digits, HY']. }
  repeat (apply escaped_app;
          [first [ exact HYe
                 | apply escaped_digits; first [apply HM | apply HD | apply Hh
                                               | apply Hm | apply Hs | apply Hms]
                 | apply Hpunct; simpl; tauto ] |]).
  apply Hpunct; simpl; tauto.
Qed.

Lemma escaped_state_push msg st : escaped_state st -> escaped_state (push msg st).
Proof. intros H. exact H. Qed.

Lemma escaped_state_set name value st :
  escaped value -> escaped_state st -> escaped_state (set_field name value st).
Proof.
  intros Hv H k s. unfold set_field. simpl.
  destruct (decide (name = k)) as [->|Hne].
  - rewrite lookup_insert_eq. intros [= <-]. exact Hv.
  - rewrite lookup_insert_ne by exact Hne. apply H.
Qed.

Ltac escaped_block :=
  repeat match goal with
         | |- escaped_state (if ?b then _ else _) => destruct b
         | |- escaped_state (push _ _) => apply escaped_state_push
         | |- escaped_state (set_field _ _ _) => apply escaped_state_set
         | |- escaped (toLowerCase _) => apply escaped_toLowerCase
         | |- escaped (sanitizeInput _) => apply escaped_sanitizeInput
         end; try assumption; try apply escaped_empty.

Lemma validateContactForm_escaped now input v :
  validateContactForm now input = Ok v ->
  forall k s, data v !! k = Some s -> escaped s.
Proof.
  unfold validateContactForm.
  destruct (get_prop input "firstName") as [fn|]; simpl; [|discriminate].
  destruct (get_prop input "lastName") as [ln|]; simpl; [|discriminate].
  destruct (get_prop input "email") as [em|]; simpl; [|discriminate].
  destruct (get_prop input "phone") as [ph|]; simpl; [|discriminate].
  destruct (check_phone ph _) as [st'|] eqn:Eph; simpl; [|discriminate].
  destruct (get_prop input "message") as [msg|]; simpl; [|discriminate].
  intros [= <-]. simpl.
  assert (H0 : escaped_state ([], ∅)).
  { intros k s. simpl. rewrite lookup_empty. discriminate. }
  assert (H1 : escaped_state (check_firstName fn ([], ∅)))
    by (unfold check_firstName; escaped_block).
  assert (H2 : escaped_state (check_lastName ln (check_firstName fn ([], ∅))))
    by (unfold check_lastName; escaped_block).
  assert (H3 : escaped_state
                 (check_email em
                    (check_lastName ln (check_firstName fn ([], ∅)))))
    by (unfold check_email; escaped_block).
  assert (H4 : escaped_state st').
  { revert Eph. unfold check_phone.
    destruct (truthy ph).
    - destruct (isValidPhone ph) as [ok|]; simpl; [|discriminate].
      destruct (negb ok); intros [= <-]; escaped_block.
    - intros [= <-]. escaped_block. }
  assert (H5 : escaped_state (check_message msg st'))
    by (unfold check_message; escaped_block).
  change (escaped_state
            (set_field "source" "website_contact_form"
               (set_field "timestamp" (Date.toISOString now)
                  (check_message msg st')))).
  apply escaped_state_set;
    [intros c Hc; simpl in Hc;
     destruct Hc as [<-|[<-|[<-|[<-|[<-|[<-|[]]]]]]]; reflexivity|].
  apply escaped_state_set; [apply escaped_toISOString | exact H5].
Qed.

(** X10.  In every result [validateContactForm] returns, valid or not,
    no value of [data] contains one of the six characters the server
    escapes: the names, the lower-cased email, the phone, the message,
    the timestamp and the source tag alike. *)
Theorem validated_data_is_escaped now input v k s c :
  validateContactForm now input = Ok v ->
  data v !! k = Some s ->
  In c escaped_by_server -> occurs c s = false.
Proof.
  intros Hv Hk Hc. exact (validateContactForm_escaped now input v Hv k s Hk c Hc).
Qed.

Lemma validated_data_is_escaped_witness :
  exists s,
    data (validation_of 0 markup) !! "firstName" = Some s
    /\ occurs "<" s = false.
Proof.
  eexists. split; [vm_compute; reflexivity|].
  apply (validated_data_is_escaped 0 markup
           (validation_of 0 markup) "firstName");
    [vm_compute; reflexivity | vm_compute; reflexivity | simpl; tauto].
Defined.

End ResultFacts.

(** ** How many errors a result lists *)

Section ErrorFacts.

Import JsString ServerValidator Reading.

Ltac short_block :=
  unfold firstName_errors, lastName_errors, email_errors, message_errors,
    phone_errors, check_firstName, check_lastName, check_email,
    check_message, check_phone, push, set_field;
  repeat match goal with
         | |- context [rbind ?r _] => destruct r as [[]|]; simpl
         | |- context [if ?b then _ else _] => destruct b; simpl
         end;
  lia.

Lemma firstName_errors_short v : length (firstName_errors v) <= 1.
Proof. short_block. Qed.

Lemma lastName_errors_short v : length (lastName_errors v) <= 1.
Proof. short_block. Qed.

Lemma email_errors_short v : length (email_errors v) <= 1.
Proof. short_block. Qed.

Lemma phone_errors_short v : length (phone_errors v) <= 1.
Proof. short_block. Qed.

Lemma message_errors_short v : length (message_errors v) <= 1.
Proof. short_block. Qed.

Lemma filter_short {A} (p : A -> bool) (l : list A) :
  length (List.filter p l) <= length l.
Proof.
  induction l as [|x l IH]; simpl; [lia|]. destruct (p x); simpl; lia.
Qed.

Ltac foreign_block lemma :=
  apply filter_none; intros msg Hmsg; apply lemma in Hmsg; simpl in Hmsg;
  repeat (destruct Hmsg as [<-|Hmsg]; [reflexivity|]); destruct Hmsg.

Ltac one_block own :=
  rewrite !List.filter_app;
  repeat match goal with
         | |- context [List.filter ?p (firstName_errors ?v)] =>
             lazymatch own with
             | firstName_errors => fail
             | _ => replace (List.filter p (firstName_errors v)) with (@nil string)
                      by (symmetry; foreign_block firstName_errors_about)
             end
         | |- context [List.filter ?p (lastName_errors ?v)] =>
             lazymatch own with
             | lastName_errors => fail
             | _ => replace (List.filter p (lastName_errors v)) with (@nil string)
                      by (symmetry; foreign_block lastName_errors_about)
             end
         | |- context [List.filter ?p (email_errors ?v)] =>
             lazymatch own with
             | email_errors => fail
             | _ => replace (List.filter p (email_errors v)) with (@nil string)
                      by (symmetry; foreign_block email_errors_about)
             end
         | |- context [List.filter ?p (phone_errors ?v)] =>
             lazymatch own with
             | phone_errors => fail
             | _ => replace (List.filter p (phone_errors v)) with (@nil string)
                      by (symmetry; foreign_block phone_errors_about)
             end
         | |- context [List.filter ?p (message_errors ?v)] =>
             lazymatch own with
             | message_errors => fail
             | _ => replace (List.filter p (message_errors v)) with (@nil string)
                      by (symmetry; foreign_block message_errors_about)
             end
         end;
  rewrite ?app_nil_r; simpl app.

(** X11.  A result lists at most one error about each field, hence at
    most five errors, in the order first name, last name, email, phone,
    message: each block of [validateContactForm] stops at its first
    failed check. *)
Theorem at_most_one_error_per_field now input v field :
  validateContactForm now input = Ok v ->
  length (List.filter (about field) (errors v)) <= 1
  /\ length (errors v) <= 5.
Proof.
  intros Hv.
  destruct (validateContactForm_blocks _ _ _ Hv) as (He & _ & _).
  rewrite He. clear He Hv.
  pose proof (firstName_errors_short (prop_of input "firstName")) as H1.
  pose proof (lastName_errors_short (prop_of input "lastName")) as H2.
  pose proof (email_errors_short (prop_of input "email")) as H3.
  pose proof (phone_errors_short (prop_of input "phone")) as H4.
  pose proof (message_errors_short (prop_of input "message")) as H5.
  split; [|rewrite !length_app; lia].
  destruct (String.eqb_spec field "firstName") as [->|N1].
  { one_block firstName_errors.
    etransitivity; [apply filter_short | exact H1]. }
  destruct (String.eqb_spec field "lastName") as [->|N2].
  { one_block lastName_errors.
    etransitivity; [apply filter_short | exact H2]. }
  destruct (String.eqb_spec field "email") as [->|N3].
  { one_block email_errors.
    etransitivity; [apply filter_short | exact H3]. }
  destruct (String.eqb_spec field "phone") as [->|N4].
  { one_block phone_errors.
    etransitivity; [apply filter_short | exact H4]. }
  destruct (String.eqb_spec field "message") as [->|N5].
  { one_block message_errors.
    etransitivity; [apply filter_short | exact H5]. }
  rewrite filter_none; [simpl; lia|].
  intros msg _. unfold about, field_messages.
  apply String.eqb_neq in N1, N2, N3, N4, N5.
  rewrite N1, N2, N3, N4, N5. reflexivity.
Qed.

Lemma at_most_one_error_per_field_witness :
  length (List.filter (about "firstName") (errors (validation_of 0 all_wrong))) <= 1
  /\ length (errors (validation_of 0 all_wrong)) <= 5.
Proof.
  apply (at_most_one_error_per_field 0 all_wrong (validation_of 0 all_wrong)).
  vm_compute. reflexivity.
Defined.

End ErrorFacts.

(** ** The regular expressions of the validators *)

Section RegexFacts.

Import JsString Regex ServerValidator.

Lemma list_ascii_length s : length (list_ascii_of_string s) = String.length s.
Proof. induction s as [|c s IH]; simpl; [reflexivity | rewrite IH; reflexivity]. Qed.

Lemma list_ascii_sall p s : forallb p (list_ascii_of_string s) = sall p s.
Proof. induction s as [|c s IH]; simpl; [reflexivity | rewrite IH; reflexivity]. Qed.

Lemma list_ascii_app a b :
  list_ascii_of_string (a ++ b)
  = (list_ascii_of_string a ++ list_ascii_of_string b)%list.
Proof. induction a as [|c a IH]; simpl; [reflexivity | rewrite IH; reflexivity]. Qed.

Lemma is_some_or {A} (x y : option A) :
  is_some (match x with Some r => Some r | None => y end)
  = is_some x || is_some y.
Proof. destruct x; reflexivity. Qed.

(** A greedy repetition of a character class followed by [k] succeeds
    exactly when [k] succeeds after some admissible number of characters
    of the class: backtracking tries them all. *)
Lemma rep_char_some {R} p (k : list ascii -> option R) fuel :
  forall lo hi s, length s < fuel ->
    is_some (rep (exec (RChar p)) fuel lo hi s k) = true
    <-> exists n, lo <= n /\ below hi n /\ n <= length s
                  /\ forallb p (firstn n s) = true
                  /\ is_some (k (skipn n s)) = true.
Proof.
  induction fuel as [|f IH]; intros lo hi s Hlen; [lia|].
  assert (Hstop :
    is_some (if (lo =? 0)%nat then k s else None) = true
    <-> lo = 0 /\ is_some (k s) = true).
  { destruct (Nat.eqb_spec lo 0) as [->|Hlo]; simpl.
    - tauto.
    - split; [discriminate | intros [H _]; contradiction]. }
  assert (Hzero :
    (lo = 0 /\ is_some (k s) = true)
    -> exists n, lo <= n /\ below hi n /\ n <= length s
                 /\ forallb p (firstn n s) = true
                 /\ is_some (k (skipn n s)) = true).
  { intros [-> Hk]. exists 0. simpl.
    repeat split; try lia; [destruct hi; simpl; lia | exact Hk]. }
  simpl rep.
  destruct hi as [[|h]|].
  - rewrite Hstop. split; [exact Hzero|].
    intros (n & Hlo & Hhi & _ & _ & Hk). simpl in Hhi.
    assert (n = 0) by lia. subst n. simpl in Hk. split; [lia | exact Hk].
  - destruct s as [|c s'].
    + simpl exec. rewrite Hstop. split; [exact Hzero|].
      intros (n & Hlo & _ & Hn & _ & Hk). simpl in Hn.
      assert (n = 0) by lia. subst n. simpl in Hk. split; [lia | exact Hk].
    + simpl exec. destruct (p c) eqn:Hc.
      * replace (length s' <? length (c :: s'))%nat with true
          by (symmetry; apply Nat.ltb_lt; simpl; lia).
        rewrite is_some_or, orb_true_iff, Hstop.
        rewrite (IH (Nat.pred lo) (option_map Nat.pred (Some (S h))) s')
          by (simpl in Hlen; lia).
        split.
        -- intros [(n & Hlo & Hhi & Hn & Hp & Hk)|H0]; [|exact (Hzero H0)].
           exists (S n). simpl in *. rewrite Hc, Hp.
           repeat split; try lia. exact Hk.
        -- intros ([|n] & Hlo & Hhi & Hn & Hp & Hk).
           ++ right. simpl in Hk. split; [lia | exact Hk].
           ++ left. exists n. simpl in *. rewrite Hc in Hp.
              repeat split; try lia; assumption.
      * rewrite Hstop. split; [exact Hzero|].
        intros ([|n] & Hlo & Hhi & Hn & Hp & Hk).
        -- simpl in Hk. split; [lia | exact Hk].
        -- simpl in Hp. rewrite Hc in Hp. discriminate Hp.
  - destruct s as [|c s'].
    + simpl exec. rewrite Hstop. split; [exact Hzero|].
      intros (n & Hlo & _ & Hn & _ & Hk). simpl in Hn.
      assert (n = 0) by lia. subst n. simpl in Hk. split; [lia | exact Hk].
    + simpl exec. destruct (p c) eqn:Hc.
      * replace (length s' <? length (c :: s'))%nat with true
          by (symmetry; apply Nat.ltb_lt; simpl; lia).
        rewrite is_some_or, orb_true_iff, Hstop.
        rewrite (IH (Nat.pred lo) (option_map Nat.pred None) s')
          by (simpl in Hlen; lia).
        split.
        -- intros [(n & Hlo & Hhi & Hn & Hp & Hk)|H0]; [|exact (Hzero H0)].
           exists (S n). simpl in *. rewrite Hc, Hp.
           repeat split; try lia. exact Hk.
        -- intros ([|n] & Hlo & Hhi & Hn & Hp & Hk).
           ++ right. simpl in Hk. split; [lia | exact Hk].
           ++ left. exists n. simpl in *. rewrite Hc in Hp.
              repeat split; try lia; assumption.
      * rewrite Hstop. split; [exact Hzero|].
        intros ([|n] & Hlo & Hhi & Hn & Hp & Hk).
        -- simpl in Hk. split; [lia | exact Hk].
        -- simpl in Hp. rewrite Hc in Hp. discriminate Hp.
Qed.

(** Anchored at the end, the repetition must take the whole input. *)
Lemma rep_char_end p lo hi l :
  is_some (rep (exec (RChar p)) (S (length l)) lo hi l at_end)
  = forallb p l && (lo <=? length l)%nat && belowb hi (length l).
Proof.
  apply Bool.eq_iff_eq_true.
  rewrite (rep_char_some p at_end (S (length l)) lo hi l) by lia.
  rewrite !andb_true_iff, Nat.leb_le.
  split.
  - intros (n & Hlo & Hhi & Hn & Hp & Hk).
    assert (Hall : n = length l).
    { destruct (skipn n l) eqn:E; [|discriminate Hk].
      apply (f_equal (@length ascii)) in E. rewrite length_skipn in E.
      simpl in E. lia. }
    subst n. rewrite firstn_all in Hp.
    repeat split; [exact Hp | exact Hlo |].
    destruct hi; simpl in *; [apply Nat.leb_le; exact Hhi | reflexivity].
  - intros [[Hp Hlo] Hhi]. exists (length l).
    rewrite firstn_all, skipn_all.
    repeat split; try assumption; try lia.
    destruct hi; simpl in *; [apply Nat.leb_le; exact Hhi | exact I].
Qed.

Lemma phone_char_plus : phone_char "+" = false.
Proof. reflexivity. Qed.

(** [/^[\+]?[\d\s\-\(\)]{7,hi}$/] accepts the texts of [phone_shape]. *)
Lemma test_phone hi t :
  test_anchored (RCat (opt (chr "+")) (RRep 7 hi (RChar phone_char))) t
  = phone_shape hi t.
Proof.
  unfold test_anchored, phone_shape.
  change (fun rest : list ascii =>
            match rest with [] => Some tt | _ :: _ => None end) with at_end.
  change (exec (RCat (opt (chr "+")) (RRep 7 hi (RChar phone_char)))
            (list_ascii_of_string t) at_end)
    with (rep (exec (RChar (Ascii.eqb "+")))
            (S (length (list_ascii_of_string t))) 0 (Some 1)
            (list_ascii_of_string t)
            (fun s' => rep (exec (RChar phone_char)) (S (length s')) 7 hi s' at_end)).
  apply Bool.eq_iff_eq_true.
  rewrite rep_char_some by lia.
  destruct t as [|c r].
  - split; [|simpl; discriminate].
    intros (n & _ & _ & Hn & _ & Hk). simpl in Hn.
    assert (n = 0) by lia. subst n.
    cbn [skipn list_ascii_of_string] in Hk.
    rewrite (rep_char_end phone_char 7 hi []) in Hk. discriminate Hk.
  - change (list_ascii_of_string (String c r)) with (c :: list_ascii_of_string r).
    assert (Hwhole :
      is_some (rep (exec (RChar phone_char))
                 (S (length (c :: list_ascii_of_string r))) 7 hi
                 (c :: list_ascii_of_string r) at_end)
      = sall phone_char (String c r) && (7 <=? String.length (String c r))%nat
        && belowb hi (String.length (String c r))).
    { rewrite rep_char_end.
      change (c :: list_ascii_of_string r) with (list_ascii_of_string (String c r)).
      rewrite list_ascii_sall, list_ascii_length. reflexivity. }
    assert (Hrest :
      is_some (rep (exec (RChar phone_char))
                 (S (length (list_ascii_of_string r))) 7 hi
                 (list_ascii_of_string r) at_end)
      = sall phone_char r && (7 <=? String.length r)%nat
        && belowb hi (String.length r)).
    { rewrite rep_char_end, list_ascii_sall, list_ascii_length. reflexivity. }
    destruct (Ascii.eqb_spec "+" c) as [<-|Hc].
    + rewrite <- Hrest. split.
      * intros ([|[|n]] & _ & Hhi & _ & Hp & Hk).
        -- cbn [skipn] in Hk. rewrite Hwhole in Hk.
           cbn [sall] in Hk. rewrite phone_char_plus in Hk. discriminate Hk.
        -- exact Hk.
        -- simpl in Hhi. lia.
      * intros Hk. exists 1. simpl firstn. simpl skipn.
        repeat split; try (simpl; lia). exact Hk.
    + rewrite <- Hwhole. split.
      * intros ([|n] & _ & _ & _ & Hp & Hk).
        -- exact Hk.
        -- cbn [firstn forallb] in Hp.
           destruct (Ascii.eqb_spec "+" c) as [E|_]; [contradiction|].
           discriminate Hp.
      * intros Hk. exists 0. repeat split; try (simpl; lia). exact Hk.
Qed.

Lemma isValidPhone_shape s :
  isValidPhone (VStr s)
  = Ok (String.eqb (trim s) "" || phone_shape (Some 20) (trim s)).
Proof.
  unfold isValidPhone.
  destruct (truthy (VStr s)) eqn:T; simpl negb; cbv iota.
  - unfold phoneRegex. rewrite test_phone.
    destruct (trim s) as [|c t]; reflexivity.
  - simpl in T. apply negb_false_iff, String.eqb_eq in T. subst s. reflexivity.
Qed.

(** X12.  The server accepts as a phone number exactly the strings that,
    once trimmed, are empty or made of an optional [+] followed by 7 to
    20 digits, white-space characters, hyphens and parentheses. *)
Theorem isValidPhone_accepts_exactly s :
  isValidPhone (VStr s)
  = Ok (String.eqb (trim s) "" || phone_shape (Some 20) (trim s)).
Proof. apply isValidPhone_shape. Qed.

(** *** The email address *)

Lemma string_of_list_app a b :
  string_of_list_ascii (a ++ b)
  = (string_of_list_ascii a ++ string_of_list_ascii b)%string.
Proof. induction a as [|c a IH]; simpl; [reflexivity | rewrite IH; reflexivity]. Qed.

Lemma string_of_list_sall p l : sall p (string_of_list_ascii l) = forallb p l.
Proof. induction l as [|c l IH]; simpl; [reflexivity | rewrite IH; reflexivity]. Qed.

Lemma firstn_exact {A} (a b : list A) : firstn (length a) (a ++ b) = a.
Proof. induction a as [|x a IH]; simpl; [destruct b | rewrite IH]; reflexivity. Qed.

Lemma skipn_exact {A} (a b : list A) : skipn (length a) (a ++ b) = b.
Proof. induction a as [|x a IH]; simpl; [reflexivity | exact IH]. Qed.

Lemma email_lists l :
  is_some (exec emailRegex l at_end) = true
  <-> exists a b c,
        l = (a ++ "@"%char :: b ++ "."%char :: c)%list
        /\ a <> [] /\ b <> [] /\ c <> []
        /\ forallb not_space_at a = true /\ forallb not_space_at b = true
        /\ forallb not_space_at c = true.
Proof.
  change (exec emailRegex l at_end)
    with (rep (exec (RChar not_space_at)) (S (length l)) 1 None l
            (fun s1 =>
               match s1 with
               | x :: s1' =>
                   if Ascii.eqb "@" x then
                     rep (exec (RChar not_space_at)) (S (length s1')) 1 None s1'
                       (fun s2 =>
                          match s2 with
                          | y :: s2' =>
                              if Ascii.eqb "." y then
                                rep (exec (RChar not_space_at))
                                  (S (length s2')) 1 None s2' at_end
                              else None
                          | [] => None
                          end)
                   else None
               | [] => None
               end)).
  rewrite rep_char_some by lia.
  split.
  - intros (n1 & Hn1 & _ & Hl1 & Hp1 & Hk1).
    pose proof (firstn_skipn n1 l) as Hsplit1.
    destruct (skipn n1 l) as [|x r1]; [discriminate Hk1|].
    destruct (Ascii.eqb_spec "@" x) as [<-|]; [|discriminate Hk1].
    rewrite rep_char_some in Hk1 by lia.
    destruct Hk1 as (n2 & Hn2 & _ & Hl2 & Hp2 & Hk2).
    pose proof (firstn_skipn n2 r1) as Hsplit2.
    destruct (skipn n2 r1) as [|y r2]; [discriminate Hk2|].
    destruct (Ascii.eqb_spec "." y) as [<-|]; [|discriminate Hk2].
    rewrite rep_char_end in Hk2.
    apply andb_true_iff in Hk2 as [Hk2 _].
    apply andb_true_iff in Hk2 as [Hp3 Hn3]. apply Nat.leb_le in Hn3.
    exists (firstn n1 l), (firstn n2 r1), r2.
    split; [rewrite Hsplit2; symmetry; exact Hsplit1|].
    split; [intros E; apply (f_equal (@length ascii)) in E;
            rewrite length_firstn in E; simpl in E; lia|].
    split; [intros E; apply (f_equal (@length ascii)) in E;
            rewrite length_firstn in E; simpl in E; lia|].
    split; [intros ->; simpl in Hn3; lia|].
    auto.
  - intros (a & b & c & -> & Ha & Hb & Hc & Hpa & Hpb & Hpc).
    exists (length a).
    rewrite firstn_exact, skipn_exact.
    split; [destruct a; [contradiction | simpl; lia]|].
    split; [exact I|].
    split; [rewrite length_app; lia|].
    split; [exact Hpa|].
    destruct (Ascii.eqb_spec "@" "@") as [_|N]; [|contradiction].
    rewrite rep_char_some by lia.
    exists (length b).
    rewrite firstn_exact, skipn_exact.
    split; [destruct b; [contradiction | simpl; lia]|].
    split; [exact I|].
    split; [rewrite length_app; lia|].
    split; [exact Hpb|].
    destruct (Ascii.eqb_spec "." ".") as [_|N]; [|contradiction].
    rewrite rep_char_end, Hpc.
    destruct c; [contradiction | reflexivity].
Qed.

Lemma test_email t : test_anchored emailRegex t = true <-> email_shape t.
Proof.
  unfold test_anchored.
  change (fun rest : list ascii =>
            match rest with [] => Some tt | _ :: _ => None end) with at_end.
  rewrite email_lists. unfold email_shape. split.
  - intros (a & b & c & E & Ha & Hb & Hc & Hpa & Hpb & Hpc).
    exists (string_of_list_ascii a), (string_of_list_ascii b),
      (string_of_list_ascii c).
    split.
    { rewrite <- (string_of_list_ascii_of_string t), E.
      rewrite string_of_list_app. simpl. rewrite string_of_list_app. reflexivity. }
    rewrite !string_of_list_sall.
    repeat split; try assumption.
    + destruct a; [contradiction | discriminate].
    + destruct b; [contradiction | discriminate].
    + destruct c; [contradiction | discriminate].
  - intros (l & d & e & -> & Hl & Hd & He & Hpl & Hpd & Hpe).
    exists (list_ascii_of_string l), (list_ascii_of_string d),
      (list_ascii_of_string e).
    split.
    { rewrite !list_ascii_app. reflexivity. }
    rewrite !list_ascii_sall.
    repeat split; try assumption.
    + destruct l; [contradiction | discriminate].
    + destruct d; [contradiction | discriminate].
    + destruct e; [contradiction | discriminate].
Qed.

(** X13.  The server accepts as an email address exactly the strings of
    at most 254 characters that, once trimmed, read [local@domain.rest]
    with three non-empty parts free of white space and of [@]. *)
Theorem isValidEmail_accepts_exactly s :
  isValidEmail (VStr s) = true
  <-> email_shape (trim s) /\ String.length s <= 254.
Proof.
  unfold isValidEmail.
  destruct (truthy (VStr s)) eqn:T; simpl negb; cbv iota.
  - rewrite andb_true_iff, test_email, Nat.leb_le. reflexivity.
  - simpl in T. apply negb_false_iff, String.eqb_eq in T. subst s.
    split; [discriminate|].
    intros [(l & d & e & E & _) _]. destruct l; discriminate E.
Qed.

End RegexFacts.

(** ** Logs that cannot be written *)

Section LogFacts.

Import Number ServerValidator RateLimiter EmailSender Logger Worker.

Lemma alike_ret {A} (a : A) : alike (ret a).
Proof. intros w w' R. split; [reflexivity | exact R]. Qed.

Lemma alike_throw {A} err : alike (@throw A err).
Proof. intros w w' R. split; [reflexivity | exact R]. Qed.

Lemma alike_lift {A} (x : result A) : alike (lift x).
Proof. intros w w' R. split; [reflexivity | exact R]. Qed.

Lemma alike_bind {A B} (m : M A) (k : A -> M B) :
  alike m -> (forall a, alike (k a)) -> alike (bind m k).
Proof.
  intros Hm Hk w w' R. unfold bind.
  destruct (Hm w w' R) as [E R1].
  destruct (m w) as [[a|err] w1], (m w') as [[a'|err'] w1']; simpl in *;
    try discriminate E.
  - injection E as <-. apply Hk, R1.
  - injection E as <-. split; [reflexivity | exact R1].
Qed.

Lemma alike_try_catch {A} (m : M A) handler :
  alike m -> (forall err, alike (handler err)) -> alike (try_catch m handler).
Proof.
  intros Hm Hh w w' R. unfold try_catch.
  destruct (Hm w w' R) as [E R1].
  destruct (m w) as [[a|err] w1], (m w') as [[a'|err'] w1']; simpl in *;
    try discriminate E.
  - injection E as <-. split; [reflexivity | exact R1].
  - injection E as <-. apply Hh, R1.
Qed.

Ltac same_worlds :=
  match goal with
  | R : same_but_logs _ _ |- _ =>
      destruct R as (Rc & Rl & Ra & Rk & Rp & Rs & Rt)
  end;
  unfold same_but_logs; simpl;
  repeat match goal with
         | H : _ = _ |- _ => rewrite H
         end;
  repeat split; reflexivity.

Lemma alike_date_now : alike date_now.
Proof.
  intros w w' R. split; [|exact R].
  simpl. destruct R as (-> & _). reflexivity.
Qed.

Lemma alike_emit ev : alike (emit ev).
Proof. intros w w' R. split; [reflexivity|]. same_worlds. Qed.

Lemma alike_await_io : alike await_io.
Proof. intros w w' R. split; [reflexivity|]. same_worlds. Qed.

Lemma alike_sleep ms : alike (sleep ms).
Proof.
  unfold sleep. apply alike_bind; [apply alike_emit|]. intros _ w w' R.
  split; [reflexivity|]. same_worlds.
Qed.

Lemma alike_kv_get key : alike (kv_get key).
Proof.
  unfold kv_get. apply alike_bind; [apply alike_await_io|]. intros _.
  apply alike_bind; [apply alike_emit|]. intros _ w w' R.
  assert (R' := R). destruct R' as (Rc & _ & _ & Rk & _).
  rewrite <- Rk, <- Rc.
  destruct (get_throws _); [split; [reflexivity | exact R]|].
  destruct (entries _ !! key) as [[c x]|]; [|split; [reflexivity | exact R]].
  destruct (_ <? x)%Z; split; try reflexivity; exact R.
Qed.

Lemma alike_kv_put key value ttl : alike (kv_put key value ttl).
Proof.
  unfold kv_put. apply alike_bind; [apply alike_await_io|]. intros _.
  apply alike_bind; [apply alike_emit|]. intros _ w w' R.
  assert (R' := R). destruct R' as (Rc & _ & _ & Rk & _).
  rewrite <- Rk, <- Rc.
  destruct (put_throws _); [split; [reflexivity | exact R]|].
  split; [reflexivity|].
  destruct R as (_ & Rl & Ra & _ & Rp & Rs & Rt).
  unfold same_but_logs, with_entries. simpl.
  rewrite Rc, Rl, Ra, Rk, Rp, Rs, Rt. repeat split; reflexivity.
Qed.

Lemma alike_provider_fetch payload key : alike (provider_fetch payload key).
Proof.
  unfold provider_fetch. apply alike_bind; [apply alike_await_io|]. intros _.
  apply alike_bind; [apply alike_emit|]. intros _ w w' R.
  split; [|same_worlds].
  simpl. destruct R as (_ & _ & _ & _ & -> & -> & _). reflexivity.
Qed.

(** A log write inside its [try]: whether the store refuses it or not
    shows in the console only. *)
Lemma alike_guarded_log_put s entry ttl label :
  alike (try_catch (log_put s entry ttl) (fun _ => console label)).
Proof.
  intros w w' R.
  unfold try_catch, log_put, bind, await_io, emit, console, emit. simpl.
  destruct (log_put_throws w s), (log_put_throws w' s); simpl;
    (split; [reflexivity|]); same_worlds.
Qed.

Lemma alike_logSubmission d e : alike (logSubmission d e).
Proof.
  unfold logSubmission. apply alike_bind; [apply alike_date_now|]. intros now.
  apply alike_bind; [apply alike_emit|]. intros _.
  destruct (ANALYTICS_KV e); [|apply alike_ret].
  apply alike_guarded_log_put.
Qed.

Lemma alike_logError err ctx e : alike (logError err ctx e).
Proof.
  unfold logError. apply alike_bind; [apply alike_date_now|]. intros now.
  apply alike_bind; [apply alike_emit|]. intros _.
  destruct (ERROR_LOGS_KV e); [|apply alike_ret].
  apply alike_guarded_log_put.
Qed.

Lemma alike_checkRateLimit r e : alike (checkRateLimit r e).
Proof.
  unfold checkRateLimit. apply alike_try_catch.
  - apply alike_bind.
    { destruct (RATE_LIMIT_KV e); [apply alike_kv_get | apply alike_ret]. }
    intros currentCount.
    destruct (ge _ maxRequests).
    + apply alike_bind; [apply alike_date_now | intros; apply alike_ret].
    + apply alike_bind.
      { destruct (RATE_LIMIT_KV e); [apply alike_kv_put | apply alike_ret]. }
      intros _.
      apply alike_bind; [apply alike_date_now | intros; apply alike_ret].
  - intros err. apply alike_bind; [apply alike_emit|]. intros _.
    apply alike_bind; [apply alike_date_now | intros; apply alike_ret].
Qed.

Lemma alike_sendContactFormEmail fd key : alike (sendContactFormEmail fd key).
Proof.
  unfold sendContactFormEmail.
  apply alike_bind.
  { intros w w' R. split; [|exact R].
    simpl. destruct R as (_ & _ & _ & _ & _ & _ & ->). reflexivity. }
  intros locale.
  apply alike_bind; [apply alike_lift|]. intros payload.
  unfold sendWithResend. apply alike_bind; [apply alike_provider_fetch|].
  intros [m|ok|ok body]; try apply alike_throw.
  destruct (negb ok); [|apply alike_ret].
  apply alike_bind; [apply alike_lift | intros; apply alike_throw].
Qed.

Lemma alike_retry_loop fuel n e fd key : alike (retry_loop fuel n e fd key).
Proof.
  revert n. induction fuel as [|fuel IH]; intros n; simpl; [apply alike_ret|].
  destruct (n <=? maxRetries)%nat; [|apply alike_ret].
  apply alike_try_catch; [apply alike_sendContactFormEmail|]. intros err.
  destruct (maxRetries <? S n)%nat.
  - apply alike_bind; [apply alike_logError | intros; apply alike_throw].
  - apply alike_bind; [apply alike_sleep | intros; apply IH].
Qed.

Lemma alike_deliver r e v : alike (deliver r e v).
Proof.
  unfold deliver. destruct (RESEND_API_KEY e) as [k|].
  - destruct (String.eqb k "").
    + apply alike_bind; [apply alike_logError | intros; apply alike_throw].
    + apply alike_bind; [apply alike_retry_loop|]. intros res.
      apply alike_bind; [apply alike_lift|]. intros id.
      apply alike_bind; [apply alike_logSubmission | intros; apply alike_ret].
  - apply alike_bind; [apply alike_logError | intros; apply alike_throw].
Qed.

Lemma alike_submit r e : alike (submit r e).
Proof.
  unfold submit. destruct (parse r); [|apply alike_ret].
  apply alike_bind; [apply alike_date_now|]. intros now.
  apply alike_bind; [apply alike_lift|]. intros v.
  destruct (negb (isValid v)).
  { apply alike_bind; [apply alike_logSubmission | intros; apply alike_ret]. }
  destruct (detectSpam (data v)).
  { apply alike_bind; [apply alike_logSubmission | intros; apply alike_ret]. }
  apply alike_deliver.
Qed.

Lemma alike_on_error r e err : alike (on_error r e err).
Proof.
  unfold on_error. apply alike_bind; [apply alike_logError | intros; apply alike_ret].
Qed.

Lemma alike_fetch r e : alike (fetch r e).
Proof.
  unfold fetch.
  destruct (String.eqb (method r) "OPTIONS"); [apply alike_ret|].
  destruct (_ || _); [apply alike_ret|].
  apply alike_try_catch; [|intros; apply alike_on_error].
  unfold handle. destruct (oversized r); [apply alike_ret|].
  apply alike_bind; [apply alike_checkRateLimit|]. intros rl.
  destruct (negb (allowed rl)); [|apply alike_submit].
  apply alike_bind; [apply alike_logSubmission|]. intros _.
  apply alike_bind; [apply alike_date_now|]. intros bodyNow.
  apply alike_bind; [apply alike_date_now|]. intros headerNow.
  apply alike_ret.
Qed.

(** X14.  A log store that refuses its writes changes nothing for the
    visitor: from two worlds that differ only in their log stores (and
    in what has been traced), [fetch] gives the same answer, status,
    headers and body, and leaves the same counters, clock and number of
    provider calls. *)
Theorem log_failures_do_not_show r e w w' :
  same_but_logs w w' ->
  (fetch r e w).1 = (fetch r e w').1
  /\ same_but_logs (fetch r e w).2 (fetch r e w').2.
Proof. apply alike_fetch. Qed.

Lemma log_failures_do_not_show_witness :
  same_but_logs (world_at 0 ∅ accepting) (logs_down (world_at 0 ∅ accepting))
  /\ (fetch (post visitor ann) configured (world_at 0 ∅ accepting)).1
     = (fetch (post visitor ann) configured
          (logs_down (world_at 0 ∅ accepting))).1.
Proof.
  split; [unfold same_but_logs; simpl; repeat split; reflexivity|].
  refine (proj1 (log_failures_do_not_show (post visitor ann) configured
                   (world_at 0 ∅ accepting)
                   (logs_down (world_at 0 ∅ accepting)) _)).
  unfold same_but_logs. simpl. repeat split; reflexivity.
Defined.

End LogFacts.

(** ** The page and the worker *)

Section PageFacts.

Import JsString Number ServerValidator Reading RateLimiter EmailSender Logger.
Import Worker Page.

(** X15.  Once [checkSubmissionFrequency] has let a submission through
    at time [t], it answers "too frequent" at every time less than 30
    seconds after [t] (or before [t], should the clock go back) and then
    leaves the stored time alone, so that being refused does not prolong
    the wait; from 30 seconds on it lets the next one through and stores
    its time. *)
Theorem checkSubmissionFrequency_blocks_for_30_seconds stored t t' :
  (checkSubmissionFrequency stored t).1 = false ->
  checkSubmissionFrequency (checkSubmissionFrequency stored t).2 t'
  = if (t' - t <? 30000)%Z then (true, Some (of_Z t))
    else (false, Some (of_Z t')).
Proof.
  unfold checkSubmissionFrequency at 1 3.
  match goal with
  | |- context [if ?b then (true, stored) else _] => destruct b
  end; simpl; [discriminate|]. intros _.
  unfold checkSubmissionFrequency, minInterval.
  rewrite of_Z_not_empty, parseInt_of_Z. simpl.
  destruct (t' - t <? 30000)%Z; reflexivity.
Qed.

Lemma checkSubmissionFrequency_blocks_for_30_seconds_witness :
  (checkSubmissionFrequency None 1000).1 = false
  /\ checkSubmissionFrequency (checkSubmissionFrequency None 1000).2 30999
     = (true, Some "1000")
  /\ checkSubmissionFrequency (checkSubmissionFrequency None 1000).2 31000
     = (false, Some "31000").
Proof.
  split; [reflexivity|]. split.
  - rewrite (checkSubmissionFrequency_blocks_for_30_seconds None 1000 30999);
      reflexivity.
  - rewrite (checkSubmissionFrequency_blocks_for_30_seconds None 1000 31000);
      reflexivity.
Defined.

(** *** Every answer of the worker *)

Lemma responds_bind_lift {A} P (x : result A) (k : A -> M response) :
  (forall a, x = Ok a -> responds P (k a)) -> responds P (bind (lift x) k).
Proof.
  intros Hk w resp w'. unfold bind, lift.
  destruct x as [a|err]; [apply (Hk a eq_refl) | discriminate].
Qed.

Lemma submit_answers r e : responds answer (submit r e).
Proof.
  unfold submit. destruct (parse r) as [input|];
    [|apply responds_ret; constructor].
  apply responds_bind; intros now.
  apply responds_bind_lift; intros v Hv.
  destruct (isValid v) eqn:Hok; cbn [negb].
  2:{ apply responds_bind; intros. apply responds_ret.
      exact (answer_validation_failed now input v Hv Hok). }
  destruct (detectSpam (data v)).
  { apply responds_bind; intros. apply responds_ret. constructor. }
  unfold deliver.
  destruct (RESEND_API_KEY e) as [k|];
    [destruct (String.eqb k "")|];
    try (apply responds_bind; intros; apply responds_throw).
  apply responds_bind; intros res. apply responds_bind; intros id.
  apply responds_bind; intros. apply responds_ret. constructor.
Qed.

Lemma fetch_answer r e : responds answer (fetch r e).
Proof.
  unfold fetch.
  destruct (String.eqb (method r) "OPTIONS"); [apply responds_ret; constructor|].
  destruct (_ || _); [apply responds_ret; constructor|].
  apply responds_try_catch.
  - unfold handle. destruct (oversized r); [apply responds_ret; constructor|].
    apply responds_bind; intros rl.
    destruct (negb (allowed rl)); [|apply submit_answers].
    apply responds_bind; intros. apply responds_bind; intros.
    apply responds_bind; intros. apply responds_ret. constructor.
  - intros err. unfold on_error. apply responds_bind; intros.
    apply responds_ret. constructor.
Qed.

(** *** What the page makes of them *)

Lemma includes_first c p s : includes (String c p) s = true -> occurs c s = true.
Proof.
  induction s as [|d s IH]; simpl; [discriminate|].
  rewrite !orb_true_iff, andb_true_iff.
  intros [[H _]|H]; [left; exact H | right; apply IH, H].
Qed.

Lemma occurs_concat c sep l :
  occurs c sep = false -> (forall x, In x l -> occurs c x = false) ->
  occurs c (String.concat sep l) = false.
Proof.
  intros Hsep. induction l as [|x l IH]; intros H; simpl; [reflexivity|].
  destruct l as [|y l]; [apply H; left; reflexivity|].
  rewrite !occurs_app, Hsep, (H x (or_introl eq_refl)). simpl.
  apply IH. intros z Hz. apply H. right. exact Hz.
Qed.

Lemma errors_are_messages now input v msg :
  validateContactForm now input = Ok v -> In msg (errors v) ->
  exists field, In msg (field_messages field).
Proof.
  intros Hv Hin.
  destruct (validateContactForm_blocks _ _ _ Hv) as (He & _).
  rewrite He in Hin. rewrite !in_app_iff in Hin.
  destruct Hin as [H|[H|[H|[H|H]]]].
  - exists "firstName". exact (firstName_errors_about _ _ H).
  - exists "lastName". exact (lastName_errors_about _ _ H).
  - exists "email". exact (email_errors_about _ _ H).
  - exists "phone". exact (phone_errors_about _ _ H).
  - exists "message". exact (message_errors_about _ _ H).
Qed.

Lemma message_letters field msg c :
  In msg (field_messages field) -> In c ["T"; "N"]%char -> occurs c msg = false.
Proof.
  unfold field_messages. intros Hm Hc.
  repeat match type of Hm with
         | In _ (if ?b then _ else _) => destruct b
         end;
    simpl in Hm, Hc;
    repeat (destruct Hm as [<-|Hm];
            [destruct Hc as [<-|[<-|[]]]; reflexivity|]);
    destruct Hm.
Qed.

Lemma join_errors errs :
  String.concat ", "
    (List.map (fun i => match i with
                        | VUndefined | VNull => ""
                        | _ => to_text i
                        end) (List.map VStr errs))
  = String.concat ", " errs.
Proof.
  rewrite List.map_map. simpl.
  f_equal. induction errs as [|x l IH]; simpl; [reflexivity|].
  rewrite IH. reflexivity.
Qed.

Lemma startsWith_app p s : startsWith p (p ++ s) = true.
Proof.
  induction p as [|c p IH]; simpl; [reflexivity|].
  rewrite Ascii.eqb_refl. exact IH.
Qed.

Lemma includes_prefix p s : includes p (p ++ s) = true.
Proof.
  destruct (p ++ s) eqn:E; simpl;
    rewrite <- E, startsWith_app; reflexivity.
Qed.

Lemma explain_validation now input v :
  validateContactForm now input = Ok v ->
  explain (Error ("Validation failed: " ++ String.concat ", " (errors v)))
  = "Please check your information and try again.".
Proof.
  intros Hv. unfold explain. cbn [error_message].
  assert (Habsent : forall c, In c ["T"; "N"]%char ->
            occurs c ("Validation failed: " ++ String.concat ", " (errors v)) = false).
  { intros c Hc. rewrite occurs_app.
    replace (occurs c "Validation failed: ") with false
      by (simpl in Hc; destruct Hc as [<-|[<-|[]]]; reflexivity).
    apply occurs_concat.
    - simpl in Hc; destruct Hc as [<-|[<-|[]]]; reflexivity.
    - intros msg Hmsg.
      destruct (errors_are_messages _ _ _ _ Hv Hmsg) as [field Hf].
      exact (message_letters field msg c Hf Hc). }
  destruct (includes "Too many requests" _) eqn:E1.
  { apply includes_first in E1. rewrite Habsent in E1; [discriminate|simpl; tauto]. }
  destruct (includes "Network error" _) eqn:E2.
  { apply includes_first in E2. rewrite Habsent in E2; [discriminate|simpl; tauto]. }
  change ("Validation failed: " ++ String.concat ", " (errors v))
    with ("Validation failed" ++ (": " ++ String.concat ", " (errors v))).
  rewrite includes_prefix. reflexivity.
Qed.

Lemma sanitize_entries_returns entries o :
  exists o', sanitize_entries entries o = Ok o'.
Proof.
  revert o. induction entries as [|[k v] rest IH]; intros o; simpl; [eauto|].
  unfold FormValidator.sanitizeInput.
  destruct (negb (truthy (VStr v))); simpl; apply IH.
Qed.

(** What [send] shows when the network answers [resp]. *)
Lemma send_answer entries stamp resp :
  answer resp -> page_shows resp (send entries stamp (fun _ => Ok resp)).
Proof.
  intros Ha. unfold send, page_shows.
  destruct (sanitize_entries_returns entries []) as [o ->].
  cbn [rbind].
  destruct Ha as [ | | |a b| |now input v Hv Hok| | | ].
  - right. right. right. split; [simpl; tauto | reflexivity].
  - right. right. right. split; [simpl; tauto | reflexivity].
  - right. right. right. split; [simpl; tauto | vm_compute; reflexivity].
  - right. left. split; [eauto | reflexivity].
  - right. right. right. split; [simpl; tauto | vm_compute; reflexivity].
  - right. right. left. split; [eauto|].
    unfold submitContactForm, validation_failed, json_response, json_of.
    cbn [content status rbind]. cbn.
    rewrite join_errors.
    rewrite (explain_validation now input v Hv). reflexivity.
  - left. split; [simpl; tauto | reflexivity].
  - left. split; [simpl; tauto | reflexivity].
  - right. right. right. split; [simpl; tauto | vm_compute; reflexivity].
Qed.

(** X16.  Whatever request the page's submission reaches the worker
    as, the worker answers, and the page shows its thanks exactly for
    the two 200 answers with a body (the silently dropped spam included),
    the "several messages" text for a 429, the "check your information"
    text for a validation failure, whose errors it does not show, and its
    general apology for every other answer; it never blames the
    network. *)
Theorem page_reads_every_answer (req : fields -> request) e w entries stamp :
  exists body resp w',
    fetch (req body) e w = (Ok resp, w')
    /\ page_shows resp
         (send entries stamp (fun body => (fetch (req body) e w).1)).
Proof.
  destruct (sanitize_entries_returns entries []) as [o Ho].
  pose (body := set_prop "source" (VStr "website_contact_form")
                  (set_prop "timestamp" (VStr (Date.toISOString stamp)) o)).
  destruct (fetch_answers (req body) e w) as (resp & w' & E).
  exists body, resp, w'. split; [exact E|].
  replace (send entries stamp (fun body => (fetch (req body) e w).1))
    with (send entries stamp (fun _ => Ok resp)).
  - apply send_answer. exact (fetch_answer (req body) e w resp w' E).
  - unfold send. rewrite Ho. cbn [rbind]. fold body. rewrite E. reflexivity.
Qed.

End PageFacts.

(** ** The two validators *)

Section TwoValidators.

Import JsString Regex ServerValidator Reading.

Lemma assoc_entries (entries : list (string * string)) k :
  assoc k (List.map (fun kv => (kv.1, VStr kv.2)) entries)
  = match (list_to_map entries : gmap string string) !! k with
    | Some s => VStr s
    | None => VUndefined
    end.
Proof.
  induction entries as [|[k' s] rest IH]; simpl; [reflexivity|].
  destruct (String.eqb_spec k k') as [->|Hne].
  - rewrite lookup_insert_eq. reflexivity.
  - rewrite lookup_insert_ne by (intros E; apply Hne; symmetry; exact E).
    exact IH.
Qed.

Lemma name_block_passes st v min max msg1 msg2 msg3 name :
  ((if negb (isRequired v) then push msg1 st
    else if negb (hasMinLength v min) then push msg2 st
    else if negb (hasMaxLength v max) then push msg3 st
    else set_field name (sanitizeInput v) st).1 = st.1) ->
  exists s, v = VStr s /\ isRequired (VStr s) = true
            /\ hasMinLength (VStr s) min = true.
Proof.
  assert (Hgrow : forall m, (push m st).1 <> st.1).
  { intros m H. unfold push in H. simpl in H.
    apply (f_equal (@length string)) in H. rewrite length_app in H.
    simpl in H. lia. }
  destruct (isRequired v) eqn:Hr; simpl; [|intros H; destruct (Hgrow _ H)].
  destruct (hasMinLength v min) eqn:Hm; simpl; [|intros H; destruct (Hgrow _ H)].
  intros _. destruct v; try discriminate Hr. eauto.
Qed.

Lemma firstName_passes v :
  firstName_errors v = [] ->
  exists s, v = VStr s /\ isRequired (VStr s) = true
            /\ hasMinLength (VStr s) 2 = true.
Proof. unfold firstName_errors, check_firstName. apply name_block_passes. Qed.

Lemma lastName_passes v :
  lastName_errors v = [] ->
  exists s, v = VStr s /\ isRequired (VStr s) = true
            /\ hasMinLength (VStr s) 2 = true.
Proof. unfold lastName_errors, check_lastName. apply name_block_passes. Qed.

Lemma message_passes v :
  message_errors v = [] ->
  exists s, v = VStr s /\ isRequired (VStr s) = true
            /\ hasMinLength (VStr s) 10 = true.
Proof. unfold message_errors, check_message. apply name_block_passes. Qed.

Lemma email_passes v :
  email_errors v = [] ->
  exists s, v = VStr s /\ isRequired (VStr s) = true
            /\ isValidEmail (VStr s) = true.
Proof.
  unfold email_errors, check_email.
  destruct (isRequired v) eqn:Hr; simpl; [|discriminate].
  destruct (isValidEmail v) eqn:Hm; simpl; [|discriminate].
  intros _. destruct v; try discriminate Hr. eauto.
Qed.

Lemma phone_passes s :
  phone_errors (VStr s) = [] -> isValidPhone (VStr s) = Ok true.
Proof.
  unfold phone_errors, check_phone.
  assert (Hret : exists b, isValidPhone (VStr s) = Ok b).
  { unfold isValidPhone. destruct (negb _); [eauto|].
    destruct (_ =? 0)%nat; eauto. }
  destruct Hret as [b Hb]. rewrite Hb.
  destruct (truthy (VStr s)) eqn:T.
  - simpl. destruct b; simpl; [reflexivity | discriminate].
  - intros _. unfold isValidPhone in Hb. rewrite T in Hb. simpl in Hb.
    symmetry. exact Hb.
Qed.

(** A text the server's phone expression accepts is accepted by the
    client's, which only lacks the upper bound. *)
Lemma phone_shape_unbounded t :
  phone_shape (Some 20) t = true -> phone_shape None t = true.
Proof.
  unfold phone_shape. rewrite !andb_true_iff. intros [[H1 H2] _].
  simpl. auto.
Qed.

Lemma client_required s :
  isRequired (VStr s) = true -> FormValidator.isRequired (VStr s) = Ok true.
Proof.
  unfold isRequired, FormValidator.isRequired.
  rewrite andb_true_iff. intros [T L]. rewrite T.
  cbn [negb rbind FormValidator.trimmed]. rewrite L. reflexivity.
Qed.

Lemma client_minLength s n :
  hasMinLength (VStr s) n = true -> FormValidator.hasMinLength (VStr s) n = Ok true.
Proof.
  unfold hasMinLength, FormValidator.hasMinLength.
  rewrite andb_true_iff. intros [T L]. rewrite T.
  cbn [negb rbind FormValidator.trimmed]. rewrite L. reflexivity.
Qed.

Lemma required_not_blank s :
  isRequired (VStr s) = true ->
  truthy (VStr s) = true /\ (String.length (trim s) =? 0)%nat = false.
Proof.
  unfold isRequired. rewrite andb_true_iff. intros [-> H]. split; [reflexivity|].
  apply Nat.ltb_lt in H. apply Nat.eqb_neq. lia.
Qed.

Lemma client_name_passes name lbl n s st :
  isRequired (VStr s) = true -> hasMinLength (VStr s) (S n) = true ->
  FormValidator.validateField name (VStr s)
    {| FormValidator.required := true; FormValidator.email := false;
       FormValidator.phone := false; FormValidator.minLength := Some (S n);
       FormValidator.label := lbl |} st
  = Ok (true, FormValidator.clearFieldError name st).
Proof.
  intros Hr Hm. unfold FormValidator.validateField.
  cbn [FormValidator.required FormValidator.email FormValidator.phone
       FormValidator.minLength].
  rewrite (client_required s Hr), (client_minLength s (S n) Hm).
  destruct (required_not_blank s Hr) as [-> Hb].
  cbn [rbind negb FormValidator.trimmed]. rewrite Hb. reflexivity.
Qed.

Lemma client_email_passes lbl s st :
  isRequired (VStr s) = true -> isValidEmail (VStr s) = true ->
  FormValidator.validateField "email" (VStr s)
    {| FormValidator.required := true; FormValidator.email := true;
       FormValidator.phone := false; FormValidator.minLength := None;
       FormValidator.label := lbl |} st
  = Ok (true, FormValidator.clearFieldError "email" st).
Proof.
  intros Hr He. unfold FormValidator.validateField.
  cbn [FormValidator.required FormValidator.email FormValidator.phone
       FormValidator.minLength].
  rewrite (client_required s Hr).
  destruct (required_not_blank s Hr) as [T Hb]. rewrite T.
  cbn [rbind negb FormValidator.trimmed]. rewrite Hb.
  unfold FormValidator.isValidEmail, FormValidator.emailRegex.
  cbn [rbind FormValidator.trimmed].
  unfold isValidEmail in He. rewrite T in He. simpl negb in He. cbv iota in He.
  apply andb_true_iff in He as [-> _]. reflexivity.
Qed.

Lemma client_phone_passes lbl s st :
  isValidPhone (VStr s) = Ok true ->
  FormValidator.validateField "phone" (VStr s)
    {| FormValidator.required := false; FormValidator.email := false;
       FormValidator.phone := true; FormValidator.minLength := None;
       FormValidator.label := lbl |} st
  = Ok (true, FormValidator.clearFieldError "phone" st).
Proof.
  intros Hp. unfold FormValidator.validateField.
  cbn [FormValidator.required FormValidator.email FormValidator.phone
       FormValidator.minLength rbind negb].
  destruct (truthy (VStr s)) eqn:T; cbn [negb]; [|reflexivity].
  cbn [rbind FormValidator.trimmed].
  destruct (String.length (trim s) =? 0)%nat eqn:Hb; [reflexivity|].
  unfold FormValidator.isValidPhone. rewrite T.
  cbn [rbind negb FormValidator.trimmed]. rewrite Hb.
  rewrite isValidPhone_shape in Hp.
  injection Hp as Hp.
  assert (Hne : String.eqb (trim s) "" = false).
  { destruct (trim s); [discriminate Hb | reflexivity]. }
  rewrite Hne in Hp. simpl in Hp.
  unfold FormValidator.phoneRegex. rewrite test_phone.
  rewrite (phone_shape_unbounded _ Hp). reflexivity.
Qed.

Lemma app_nil_both {A} (a b : list A) : (a ++ b)%list = [] -> a = [] /\ b = [].
Proof. destruct a; [auto | discriminate]. Qed.

(** X17.  The page's validation is no stricter than the server's: a
    form whose field values the server's validator accepts passes
    [validateForm] under the rules of the contact form, with no error
    recorded. *)
Theorem client_accepts_what_the_server_accepts entries now v st :
  validateContactForm now
    (VObj (List.map (fun kv => (kv.1, VStr kv.2)) entries)) = Ok v ->
  isValid v = true ->
  FormValidator.validateForm Page.validationRules (list_to_map entries) st
  = Ok (true, FormValidator.clearAllErrors st).
Proof.
  intros Hv Hok.
  destruct (validateContactForm_blocks _ _ _ Hv) as (He & Hvalid & _).
  rewrite Hok in Hvalid. symmetry in Hvalid. apply Nat.eqb_eq in Hvalid.
  apply length_zero_iff_nil in Hvalid. rewrite Hvalid in He. symmetry in He.
  apply app_nil_both in He as [H1 He]. apply app_nil_both in He as [H2 He].
  apply app_nil_both in He as [H3 He]. apply app_nil_both in He as [H4 H5].
  unfold prop_of in H1, H2, H3, H4, H5. cbn [get_prop] in H1, H2, H3, H4, H5.
  rewrite assoc_entries in H1, H2, H3, H4, H5.
  unfold FormValidator.validateForm, Page.validationRules.
  cbn [FormValidator.validate_each].
  set (form := (list_to_map entries : gmap string string)) in *.
  assert (Hclear : forall name,
            FormValidator.clearFieldError name (FormValidator.clearAllErrors st)
            = FormValidator.clearAllErrors st).
  { intros name. unfold FormValidator.clearFieldError, FormValidator.clearAllErrors.
    cbn. rewrite delete_empty. reflexivity. }
  destruct (firstName_passes _ H1) as (fn & E1 & R1 & M1).
  destruct (form !! "firstName") as [x|]; [|discriminate E1].
  injection E1 as ->.
  rewrite (client_name_passes "firstName" _ 1 fn _ R1 M1), Hclear. cbn [rbind snd].
  destruct (lastName_passes _ H2) as (ln & E2 & R2 & M2).
  destruct (form !! "lastName") as [x|]; [|discriminate E2].
  injection E2 as ->.
  rewrite (client_name_passes "lastName" _ 1 ln _ R2 M2), Hclear. cbn [rbind snd].
  destruct (email_passes _ H3) as (em & E3 & R3 & M3).
  destruct (form !! "email") as [x|]; [|discriminate E3].
  injection E3 as ->.
  rewrite (client_email_passes _ em _ R3 M3), Hclear. cbn [rbind snd].
  destruct (message_passes _ H5) as (msg & E5 & R5 & M5).
  destruct (form !! "message") as [x|]; [|discriminate E5].
  injection E5 as ->.
  destruct (form !! "phone") as [ph|].
  - rewrite (client_phone_passes _ ph _ (phone_passes ph H4)), Hclear.
    cbn [rbind snd].
    rewrite (client_name_passes "message" _ 9 msg _ R5 M5), Hclear. reflexivity.
  - rewrite (client_name_passes "message" _ 9 msg _ R5 M5), Hclear. reflexivity.
Qed.

Lemma client_accepts_what_the_server_accepts_witness :
  FormValidator.validateForm Page.validationRules
    (list_to_map [("firstName", "Ann"); ("lastName", "Lee");
                  ("email", "ann@example.com");
                  ("message", "Hello, I would like to book a call please.")])
    {| FormValidator.errors := ∅; FormValidator.isValid := false |}
  = Ok (true, {| FormValidator.errors := ∅; FormValidator.isValid := true |}).
Proof.
  apply (client_accepts_what_the_server_accepts
           [("firstName", "Ann"); ("lastName", "Lee");
            ("email", "ann@example.com");
            ("message", "Hello, I would like to book a call please.")]
           0 (validation_of 0 ann));
    vm_compute; reflexivity.
Defined.

End TwoValidators.

(** ** Sanitizing twice *)

Section TwiceSanitized.

Import JsString.

Lemma replaceAll_absent c rep s :
  occurs c s = false -> replaceAll c rep s = s.
Proof.
  induction s as [|d s IH]; simpl; [reflexivity|].
  intros H. apply orb_false_iff in H as [Hd Hs].
  rewrite Ascii.eqb_sym, Hd, (IH Hs). reflexivity.
Qed.

Lemma slice0_all n s : String.length s <= n -> slice0 n s = s.
Proof.
  revert n. induction s as [|c s IH]; intros [|n] H; simpl in *;
    try reflexivity; [lia|].
  rewrite IH by lia. reflexivity.
Qed.

Lemma trimStart_keeps_absent c s :
  occurs c s = false -> occurs c (trimStart s) = false.
Proof.
  induction s as [|d s IH]; simpl; [reflexivity|].
  intros H. destruct (is_space d); [|exact H].
  apply orb_false_iff in H as [_ Hs]. apply IH, Hs.
Qed.

Lemma trimEnd_keeps_absent c s :
  occurs c s = false -> occurs c (trimEnd s) = false.
Proof.
  induction s as [|d s IH]; simpl; [reflexivity|].
  intros H. apply orb_false_iff in H as [Hd Hs]. specialize (IH Hs).
  destruct (trimEnd s).
  - destruct (is_space d); simpl; [reflexivity | rewrite Hd; reflexivity].
  - simpl in *. rewrite Hd. exact IH.
Qed.

Lemma trimStart_starts s : starts_clean (trimStart s).
Proof.
  induction s as [|c s IH]; simpl; [exact I|].
  destruct (is_space c) eqn:E; [exact IH | exact E].
Qed.

Lemma trimEnd_starts t : starts_clean t -> starts_clean (trimEnd t).
Proof.
  destruct t as [|c r]; simpl; [auto|]. intros H.
  destruct (trimEnd r); [rewrite H|]; exact H.
Qed.

Lemma trimEnd_ends t : ends_clean (trimEnd t).
Proof.
  unfold ends_clean. induction t as [|c r IH]; simpl; [reflexivity|].
  destruct (trimEnd r) as [|d x] eqn:E.
  - destruct (is_space c) eqn:Hc; simpl; [reflexivity | rewrite Hc; reflexivity].
  - change (trimEnd (String c (String d x))) with
      (match trimEnd (String d x) with
       | EmptyString => if is_space c then EmptyString else String c EmptyString
       | t => String c t
       end).
    rewrite IH. reflexivity.
Qed.

Lemma clean_trim t : starts_clean t -> ends_clean t -> trim t = t.
Proof.
  intros Hs He. unfold trim.
  replace (trimStart t) with t; [exact He|].
  destruct t as [|c r]; simpl in *; [reflexivity | rewrite Hs; reflexivity].
Qed.

Lemma ends_cons c r :
  r <> "" -> ends_clean r -> ends_clean (String c r).
Proof.
  unfold ends_clean. intros Hne He. simpl. rewrite He.
  destruct r; [contradiction | reflexivity].
Qed.

Lemma ends_cons_inv c r :
  ends_clean (String c r) ->
  (r = "" /\ is_space c = false) \/ (r <> "" /\ ends_clean r).
Proof.
  unfold ends_clean. simpl.
  destruct (trimEnd r) as [|d x] eqn:E.
  - destruct (is_space c); [discriminate|].
    intros [= <-]. left. split; reflexivity.
  - intros [= <-]. right. split; [discriminate | reflexivity].
Qed.

Lemma ends_app a b : b <> "" -> ends_clean b -> ends_clean (a ++ b).
Proof.
  intros Hne He. induction a as [|c a IH]; [exact He|].
  change (ends_clean (String c (a ++ b))).
  apply ends_cons; [|exact IH].
  destruct a; [exact Hne | discriminate].
Qed.

Lemma string_app_empty a : (a ++ "")%string = a.
Proof.
  induction a as [|c a IH]; [reflexivity|].
  change (String c (a ++ "") = String c a). rewrite IH. reflexivity.
Qed.

Lemma replaceAll_nonempty c rep t :
  rep <> "" -> t <> "" -> replaceAll c rep t <> "".
Proof.
  intros Hrep Ht. destruct t as [|d r]; [contradiction|]. simpl.
  destruct (Ascii.eqb d c); [|discriminate].
  destruct rep; [contradiction | discriminate].
Qed.

Lemma replaceAll_starts c rep t :
  rep <> "" -> starts_clean rep -> starts_clean t ->
  starts_clean (replaceAll c rep t).
Proof.
  intros Hne Hrep Ht. destruct t as [|d r]; simpl; [exact I|].
  destruct (Ascii.eqb d c); [|exact Ht].
  destruct rep; [contradiction | exact Hrep].
Qed.

Lemma replaceAll_ends c rep t :
  rep <> "" -> ends_clean rep -> ends_clean t -> ends_clean (replaceAll c rep t).
Proof.
  intros Hne Hrep. induction t as [|d r IH]; intros Ht; simpl; [exact Ht|].
  destruct (ends_cons_inv d r Ht) as [[-> Hd]|[Hr He]].
  - simpl. destruct (Ascii.eqb d c).
    + rewrite string_app_empty. exact Hrep.
    + unfold ends_clean. simpl. rewrite Hd. reflexivity.
  - pose proof (replaceAll_nonempty c rep r Hne Hr) as Hnr.
    destruct (Ascii.eqb d c).
    + apply ends_app; [exact Hnr | exact (IH He)].
    + apply ends_cons; [exact Hnr | exact (IH He)].
Qed.

Ltac entity := first [discriminate | reflexivity].

Lemma client_sanitize_string_trimmed s :
  trim (FormValidator.sanitize_string s) = FormValidator.sanitize_string s.
Proof.
  unfold FormValidator.sanitize_string.
  apply clean_trim.
  - repeat (apply replaceAll_starts; [entity | entity |]).
    unfold trim. apply trimEnd_starts, trimStart_starts.
  - repeat (apply replaceAll_ends; [entity | entity |]).
    unfold trim. apply trimEnd_ends.
Qed.

(** X18.  What the page has escaped the server leaves as it is: on a
    text without a backslash whose escaped form has at most 10,000
    characters, the server's [sanitizeInput] applied to the client's
    result returns it unchanged (an ampersand is not escaped, so no
    entity is escaped twice). *)
Theorem server_keeps_what_the_client_escaped s :
  occurs "\" s = false ->
  String.length (FormValidator.sanitize_string s) <= 10000 ->
  ServerValidator.sanitize_string (FormValidator.sanitize_string s)
  = FormValidator.sanitize_string s.
Proof.
  intros Hb Hlen.
  unfold ServerValidator.sanitize_string.
  rewrite client_sanitize_string_trimmed.
  assert (Hc : forall c, In c escaped_by_client ->
                 occurs c (FormValidator.sanitize_string s) = false)
    by (intros c; apply client_sanitize_string_clean).
  rewrite (replaceAll_absent "<") by (apply Hc; simpl; tauto).
  rewrite (replaceAll_absent ">") by (apply Hc; simpl; tauto).
  rewrite (replaceAll_absent dquote) by (apply Hc; simpl; tauto).
  rewrite (replaceAll_absent "'") by (apply Hc; simpl; tauto).
  rewrite (replaceAll_absent "/") by (apply Hc; simpl; tauto).
  rewrite (replaceAll_absent "\").
  - apply slice0_all, Hlen.
  - unfold FormValidator.sanitize_string.
    repeat (apply replaceAll_keeps_absent; [reflexivity|]).
    unfold trim. apply trimEnd_keeps_absent, trimStart_keeps_absent, Hb.
Qed.

Lemma server_keeps_what_the_client_escaped_witness :
  ServerValidator.sanitize_string (FormValidator.sanitize_string " O'Brien <b> ")
  = "O&#x27;Brien &lt;b&gt;".
Proof.
  rewrite (server_keeps_what_the_client_escaped " O'Brien <b> ").
  - vm_compute. reflexivity.
  - vm_compute. reflexivity.
  - apply Nat.leb_le. vm_compute. reflexivity.
Defined.

End TwiceSanitized.

(** ** The page's validator and its submit handler *)

Section FormFacts.

Import JsString Number FormValidator Page.





(** X20.  While less than 30 seconds have passed since the stored time
    of the last submission, the submit handler sends nothing: its outcome
    is the same whatever the network would answer, what it shows is an
    error, and the stored time stays as it was. *)
Theorem on_submit_sends_nothing_within_30_seconds
    entries now stamp network pg t :
  lastFormSubmission pg = Some (of_Z t) -> (now - t < 30000)%Z ->
  on_submit entries now stamp network pg = on_submit entries now stamp offline pg
  /\ forall shown pg',
       on_submit entries now stamp network pg = Ok (shown, pg') ->
       (exists message, shown = ShowError message)
       /\ lastFormSubmission pg' = Some (of_Z t).
Proof.
  intros Hlast Hsoon.
  assert (Hfreq : checkSubmissionFrequency (Some (of_Z t)) now
                  = (true, Some (of_Z t))).
  { unfold checkSubmissionFrequency, minInterval.
    rewrite of_Z_not_empty, parseInt_of_Z. simpl.
    replace (now - t <? 30000)%Z with true
      by (symmetry; apply Z.ltb_lt; exact Hsoon).
    reflexivity. }
  unfold on_submit.
  destruct (validateForm validationRules (list_to_map entries) (form_validator pg))
    as [[ok st']|err]; cbn [rbind fst snd]; [|split; [reflexivity | discriminate]].
  destruct ok; cbn [negb].
  2:{ split; [reflexivity|]. intros shown pg' [= <- <-]. simpl. eauto. }
  destruct ((list_to_map entries : gmap string string) !! "message") as [message|];
    [|split; [reflexivity | discriminate]].
  destruct (SpamProtection.detectSpam (VStr message)).
  { split; [reflexivity|]. intros shown pg' [= <- <-]. simpl. eauto. }
  cbn [lastFormSubmission form_validator]. rewrite Hlast, Hfreq. cbn [fst snd].
  split; [reflexivity|]. intros shown pg' [= <- <-]. simpl. eauto.
Qed.

Lemma on_submit_sends_nothing_within_30_seconds_witness :
  on_submit ann_entries 31000 31000 (fun _ => Ok Worker.sent_ok)
    {| form_validator := {| errors := ∅; isValid := true |};
       lastFormSubmission := Some (of_Z 1001) |}
  = on_submit ann_entries 31000 31000 offline
      {| form_validator := {| errors := ∅; isValid := true |};
         lastFormSubmission := Some (of_Z 1001) |}.
Proof.
  refine (proj1 (on_submit_sends_nothing_within_30_seconds ann_entries 31000 31000
                   (fun _ => Ok Worker.sent_ok)
                   {| form_validator := {| errors := ∅; isValid := true |};
                      lastFormSubmission := Some (of_Z 1001) |} 1001 _ _));
    [reflexivity | lia].
Defined.

End FormFacts.

(** ** A retry that succeeds *)

Section Recovery.

Import Number ServerValidator RateLimiter EmailSender Logger Worker.

Lemma delivery_succeeds_on_third_attempt_witness :
  reply_fails (recovering 0) = true /\ reply_fails (recovering 1) = true
  /\ exists resp w',
       fetch (post visitor ann) configured (world_at 0 ∅ recovering)
       = (Ok resp, w')
       /\ status resp = 200%Z
       /\ body_field resp "success" = VBool true
       /\ extends (world_at 0 ∅ recovering) w'
            [Attempt; Wait 2000; Attempt; Wait 4000; Attempt] 3.
Proof.
  split; [reflexivity|]. split; [reflexivity|].
  apply (delivery_succeeds_on_third_attempt (post visitor ann) configured
           (world_at 0 ∅ recovering)
           (limiter_world (post visitor ann) configured (world_at 0 ∅ recovering))
           (validation_of 0 ann) "re_test" [("id", VStr "email_3")]).
  - apply sample_accepted. left; reflexivity.
  - apply sample_validated. vm_compute; reflexivity.
  - vm_compute; reflexivity.
  - split; reflexivity.
  - reflexivity.
  - reflexivity.
  - reflexivity.
Defined.

End Recovery.
